(** * Cache Machine: a shallow embedding of [caching/base.py]

    The development follows the module top to bottom: Python values and
    model classes, key derivation ([CachingMixin]), the effect monad in
    which the cache store, the invalidator and the relational layer are
    threaded, the mutation hooks of [CachingManager], the read-through
    generator of [CacheMachine], [CachingQuerySet.iterator], and the
    function memoization helpers. *)

From stdpp Require Import gmap strings list pretty.

Set Warnings "-register-all,-clear-no-such-hyp".

Open Scope string_scope.

(** ** Python values *)

(** Scalars that occur as column values, primary keys and results. *)
Inductive PyVal :=
  | PNone
  | PBool (b : bool)
  | PInt (z : Z)
  | PStr (s : string).

#[global] Instance PyVal_eq_dec : EqDecision PyVal.
Proof. solve_decision. Defined.

Definition PyVal_enc (v : PyVal) : unit + bool + Z + string :=
  match v with
  | PNone => inl (inl (inl tt))
  | PBool b => inl (inl (inr b))
  | PInt z => inl (inr z)
  | PStr s => inr s
  end.

Definition PyVal_dec (x : unit + bool + Z + string) : PyVal :=
  match x with
  | inl (inl (inl _)) => PNone
  | inl (inl (inr b)) => PBool b
  | inl (inr z) => PInt z
  | inr s => PStr s
  end.

#[global] Instance PyVal_countable : Countable PyVal.
Proof. apply (inj_countable' PyVal_enc PyVal_dec). by intros []. Defined.

(** Python truthiness, as used by [not instance.id] and [if val]. *)
Definition truthy (v : PyVal) : bool :=
  match v with
  | PNone => false
  | PBool b => b
  | PInt z => negb (Z.eqb z 0)
  | PStr s => negb (String.eqb s "")
  end.

(** Python's [==] on scalars: a boolean compares as the integer 0 or 1. *)
Definition py_eq (a b : PyVal) : bool :=
  match a, b with
  | PBool x, PInt z | PInt z, PBool x => Z.eqb z (if x then 1 else 0)
  | _, _ => bool_decide (a = b)
  end.

(** ** Model classes

    A model class carries its [_meta] options; the options list the
    fields; a foreign key field points to the class it relates to. *)
Inductive ModelClass :=
  | MkModelClass (module_ name_ : string) (meta : Options)
      (caching_mixin : bool) (objects_caching : bool)
with Options :=
  | MkOptions (app_label module_name : string)
      (pk : option Field) (fields : list Field)
with Field :=
  | MkField (name attname : string) (rel_to : option ModelClass).

Definition cls___module__ (c : ModelClass) : string :=
  match c with MkModelClass m _ _ _ _ => m end.
Definition cls___name__ (c : ModelClass) : string :=
  match c with MkModelClass _ n _ _ _ => n end.
Definition cls__meta (c : ModelClass) : Options :=
  match c with MkModelClass _ _ o _ _ => o end.
(** [CachingMixin] is among the bases of the class: this is what
    [hasattr(cls, '_model_key')] and [hasattr(cls, '_cache_key')] test. *)
Definition cls_mixin (c : ModelClass) : bool :=
  match c with MkModelClass _ _ _ b _ => b end.
(** [cls.objects] is a [CachingManager]: this is what
    [hasattr(cls.objects, 'invalidate_model')] tests. *)
Definition cls_objects_caching (c : ModelClass) : bool :=
  match c with MkModelClass _ _ _ _ b => b end.

Definition meta_app_label (o : Options) : string :=
  match o with MkOptions a _ _ _ => a end.
Definition meta_module_name (o : Options) : string :=
  match o with MkOptions _ m _ _ => m end.
Definition meta_pk (o : Options) : option Field :=
  match o with MkOptions _ _ p _ => p end.
Definition meta_fields (o : Options) : list Field :=
  match o with MkOptions _ _ _ fs => fs end.

Definition field_name (f : Field) : string :=
  match f with MkField n _ _ => n end.
Definition field_attname (f : Field) : string :=
  match f with MkField _ a _ => a end.
(** [Some target] exactly for a [models.ForeignKey]. *)
Definition field_rel_to (f : Field) : option ModelClass :=
  match f with MkField _ _ r => r end.

(** A model instance: its class, its attribute dictionary and the
    [from_cache] tag ([None] while the attribute has not been set). *)
Record Obj := MkObj {
  o_class : ModelClass;
  o_attrs : gmap string PyVal;
  from_cache : option bool
}.

Definition set_from_cache (b : bool) (o : Obj) : Obj :=
  {| o_class := o_class o; o_attrs := o_attrs o; from_cache := Some b |}.

Definition getattr (o : Obj) (a : string) : option PyVal := o_attrs o !! a.
Definition hasattr (o : Obj) (a : string) : bool := bool_decide (is_Some (getattr o a)).

(** [getattr(x, a) != getattr(y, a)] for attributes both objects have. *)
Definition py_ne (a b : option PyVal) : bool :=
  match a, b with
  | Some x, Some y => negb (py_eq x y)
  | _, _ => false
  end.

(** ** Key derivation *)

(** The arguments [encoding.smart_unicode] receives in this module. *)
Inductive KeyPart :=
  | KVal (v : PyVal)
  | KMeta (o : Options).

(** [unicode(x)]: a string is itself, an integer its decimal notation,
    an [Options] object prints as [app_label.module_name]. *)
Definition smart_unicode (p : KeyPart) : string :=
  match p with
  | KVal PNone => "None"
  | KVal (PBool true) => "True"
  | KVal (PBool false) => "False"
  | KVal (PInt z) => pretty z
  | KVal (PStr s) => s
  | KMeta o => meta_app_label o ++ "." ++ meta_module_name o
  end.

Definition join (sep : string) (parts : list string) : string :=
  String.concat sep parts.

(** The two classmethods of [CachingMixin] that derive keys.  They read
    nothing but the class and the primary key. *)

(** [CachingMixin._cache_key] *)
Definition _cache_key (cls : ModelClass) (pk : PyVal) : string :=
  let key_parts := [KVal (PStr "o"); KMeta (cls__meta cls); KVal pk] in
  join ":" (map smart_unicode key_parts).

(** [CachingMixin._model_key] *)
Definition _model_key (cls : ModelClass) : string :=
  let key_parts := [KVal (PStr "m"); KMeta (cls__meta cls)] in
  join ":" (map smart_unicode key_parts).

(** ** Exceptions and results *)

Inductive Exn :=
  | Exception (msg : string)
  | AttributeError
  | StopIteration
  | EmptyResultSet
  | DoesNotExist
  | MultipleObjectsReturned
  | KeyError
  | TypeError.

Inductive Result (A : Type) :=
  | Ok (a : A)
  | Raise (e : Exn).
Arguments Ok {A} a.
Arguments Raise {A} e.

Definition rbind {A B} (r : Result A) (k : A -> Result B) : Result B :=
  match r with
  | Ok a => k a
  | Raise e => Raise e
  end.

Definition of_option {A} (e : Exn) (o : option A) : Result A :=
  match o with
  | Some a => Ok a
  | None => Raise e
  end.

(** Attribute access on an instance: a missing attribute raises. *)
Definition attr (o : Obj) (a : string) : Result PyVal :=
  of_option AttributeError (getattr o a).

(** ** Keys of an instance ([CachingMixin] properties and methods) *)

(** [self.pk]: the attribute named by [_meta.pk.attname]. *)
Definition obj_pk (self : Obj) : Result PyVal :=
  rbind (of_option AttributeError (meta_pk (cls__meta (o_class self))))
        (fun f => attr self (field_attname f)).

(** [CachingMixin.cache_key] (property); an instance of a class without
    the mixin has no such attribute. *)
Definition cache_key (self : Obj) : Result string :=
  if cls_mixin (o_class self)
  then rbind (obj_pk self) (fun pk => Ok (_cache_key (o_class self) pk))
  else Raise AttributeError.

(** [CachingMixin.model_key] (property). *)
Definition model_key (self : Obj) : Result string :=
  if cls_mixin (o_class self)
  then Ok (_model_key (o_class self))
  else Raise AttributeError.

(** The comprehension over [fks.items()] in [_cache_keys]: one key per
    foreign key whose value is not [None] and whose target class has
    [_cache_key].  The dictionary is walked in the order of
    [_meta.fields]. *)
Fixpoint fk_cache_keys (self : Obj) (fs : list Field) : Result (list string) :=
  match fs with
  | [] => Ok []
  | f :: fs' =>
      match field_rel_to f with
      | None => fk_cache_keys self fs'
      | Some to =>
          rbind (attr self (field_attname f)) (fun val =>
          rbind (fk_cache_keys self fs') (fun keys =>
          if bool_decide (val <> PNone) && cls_mixin to
          then Ok (_cache_key to val :: keys)
          else Ok keys))
      end
  end.

(** [CachingMixin._cache_keys] *)
Definition _cache_keys (self : Obj) : Result (list string) :=
  rbind (fk_cache_keys self (meta_fields (cls__meta (o_class self)))) (fun keys =>
  rbind (cache_key self) (fun own =>
  Ok (own :: keys))).

(** [CachingMixin._model_keys] *)
Definition _model_keys (self : Obj) : Result (list string) :=
  rbind (model_key self) (fun mk =>
  rbind (_cache_keys self) (fun ks =>
  Ok (mk :: tail ks))).

(** [k] is the cache key of a record that [self] references through a
    foreign key: the field holds a value other than [None] and the
    class it relates to derives cache keys. *)
Definition references (self : Obj) (k : string) : Prop :=
  exists (f : Field) (to : ModelClass) (val : PyVal),
    f ∈ meta_fields (cls__meta (o_class self))
    /\ field_rel_to f = Some to
    /\ getattr self (field_attname f) = Some val
    /\ val <> PNone
    /\ cls_mixin to = true
    /\ k = _cache_key to val.

(** ** Queries *)

(** The items found in the list attributes of a [WhereNode]: a nested
    node, a tuple whose first component is a [Constraint] (of which
    [field.model] and [field.name] are read), or anything else. *)
Inductive WhereItem :=
  | WhereNode (children : list WhereItem)
  | ConstraintTuple (model : ModelClass) (name : string)
      (lookup_type : string) (value : list PyVal)
  | OtherItem.

Record Query := MkQuery {
  q_model : ModelClass;
  q_where : WhereItem;
  q_low_mark : nat;
  q_high_mark : option nat;
  q_order_by : list string;
  q_select_related : bool;
  q_extra : list string
}.

Definition FOREVER : Z := 0.
Definition NO_CACHE : Z := -1.

Record CachingQuerySet := MkQuerySet {
  qs_model : ModelClass;
  qs_query : Query;
  qs_timeout : option Z
}.

(** The callables handed to [CacheMachine] as [iter_function]. *)
Inductive IterFunction :=
  | SuperIterator (q : Query)           (* super(CachingQuerySet, self).iterator *)
  | FetchById (qs : CachingQuerySet)    (* self.fetch_by_id *)
  | RawIterator (sql : string).         (* super(CachingRawQuerySet, self).__iter__ *)

Record CacheMachine := MkCacheMachine {
  query_string : string;
  iter_function : IterFunction;
  timeout : option Z
}.

(** ** The cache store *)

(** What the module stores under a key: a scalar (function results,
    the SQL text), one record (fetch by id), a result list, or the key
    set of a flush list. *)
Inductive CVal :=
  | CScalar (v : PyVal)
  | CObj (o : Obj)
  | CObjs (l : list Obj)
  | CKeys (l : list string).

Definition CNone : CVal := CScalar PNone.

Definition is_none (v : CVal) : bool :=
  match v with
  | CScalar PNone => true
  | _ => false
  end.

(** Argument of [flush_key] and [byid]: a string or an instance. *)
Inductive KeyArg :=
  | KeyStr (s : string)
  | KeyObj (o : Obj).

(** The objects [cached_with] is handed: a queryset, a model instance,
    a [CacheMachine], some other value without [query_key] and
    [cache_key] (told apart by a name), or a tuple of such objects. *)
Inductive PyObject :=
  | OQuerySet (qs : CachingQuerySet)
  | OInstance (o : Obj)
  | OMachine (cm : CacheMachine)
  | OOther (name : string)
  | OTuple (items : list PyObject).

(** ** Effects *)

Inductive Event :=
  | CacheGet (key : string)
  | CacheSet (key : string) (val : CVal) (tmo : option Z)
  | CacheAdd (key : string) (val : CVal) (tmo : option Z)
  | CacheDelete (key : string)
  | CacheGetMany (keys : list string)
  | CacheSetMany (new : gmap string CVal)
  | AddToFlushList (mapping : gmap string (gset string))
  | GetFlushLists (keys : list string)
  | InvalidateKeys (keys : list string)
  | CacheObjects (objects : list Obj) (query_key query_flush : string)
  | Clear
  | IterFunctionCall (f : IterFunction)
  | DbExecute (q : Query)
  | DbExecuteRaw (sql : string)
  | DbValuesList (q : Query)
  | Yield (o : Obj)
  | LogDebug (msg : string)
  | LogWarning (msg : string)
  | SignalConnect (signal : string) (sender : option ModelClass)
  | SuperContributeToClass (cls : ModelClass) (name : string)
  | FunctionCall (fname : string).

(** ** The collaborators

    Three things the module uses live outside it: the relational layer
    (Django's query compiler and the database), the settings, and the
    [invalidation] module.  The code of this file is written against
    these interfaces. *)

(** The relational layer: [as_sql] is the compiled statement with its
    parameters substituted ([None] when compiling raises
    [EmptyResultSet]); [execute] is the base [QuerySet.iterator];
    [values_list_pk] is the first column of
    [values_list('pk', *extra)]; [count_rows] is the base
    [QuerySet.count]. *)
Class Relational := {
  DB : Type;
  as_sql : Query -> option string;
  execute : Query -> DB -> list Obj;
  execute_raw : string -> DB -> list Obj;
  values_list_pk : Query -> DB -> list PyVal;
  count_rows : Query -> DB -> Z
}.

Class Settings := {
  CACHE_DEBUG : bool;
  FETCH_BY_ID : bool;
  CACHE_COUNT_TIMEOUT : option Z
}.

(** What the conversion [%r] makes of an object in a unicode format
    string: the text of [repr(obj)], or the exception that printing
    raises.  [__repr__] and [__unicode__] are the objects' own methods,
    and a [repr] with bytes outside ASCII does not decode. *)
Class Printing := {
  repr_ : PyObject -> Result string
}.

(** The names imported from [.invalidation]: three key functions and
    the [invalidator] object, whose methods read and write the cache
    store. *)
Class Invalidation := {
  make_key : string -> bool -> string;
  flush_key : KeyArg -> string;
  byid : KeyArg -> string;
  inv_add_to_flush_list :
    gmap string (gset string) -> gmap string CVal -> gmap string CVal;
  inv_get_flush_lists : list string -> gmap string CVal -> list string;
  inv_invalidate_keys : list string -> gmap string CVal -> gmap string CVal;
  inv_cache_objects :
    list Obj -> string -> string -> gmap string CVal -> gmap string CVal;
  inv_clear : gmap string CVal -> gmap string CVal
}.

(** ** The world and the effect monad *)

Section World.
Context {R : Relational}.

(** The cache store, the database and the log of effects performed so
    far, oldest first. *)
Record World := MkWorld {
  cache : gmap string CVal;
  db : DB;
  trace : list Event
}.

Definition M (A : Type) : Type := World -> Result A * World.

Definition ret {A} (a : A) : M A := fun w => (Ok a, w).

Definition bind {A B} (m : M A) (k : A -> M B) : M B :=
  fun w =>
    match m w with
    | (Ok a, w') => k a w'
    | (Raise e, w') => (Raise e, w')
    end.

Definition raise {A} (e : Exn) : M A := fun w => (Raise e, w).

(** [try: body except <those e with handles e>: handler]. *)
Definition try_except {A} (body : M A) (handles : Exn -> bool) (handler : M A) : M A :=
  fun w =>
    match body w with
    | (Ok a, w') => (Ok a, w')
    | (Raise e, w') => if handles e then handler w' else (Raise e, w')
    end.

Definition lift {A} (r : Result A) : M A := fun w => (r, w).

Definition emit (e : Event) : M unit :=
  fun w => (Ok tt, {| cache := cache w; db := db w; trace := trace w ++ [e] |}).

Definition read_cache : M (gmap string CVal) := fun w => (Ok (cache w), w).
Definition read_db : M DB := fun w => (Ok (db w), w).

Definition update_cache (f : gmap string CVal -> gmap string CVal) : M unit :=
  fun w => (Ok tt, {| cache := f (cache w); db := db w; trace := trace w |}).

End World.

Declare Scope py_scope.
Delimit Scope py_scope with py.
Notation "x <- c ;; k" := (bind c (fun x => k))
  (at level 100, c at next level, k at level 200, right associativity) : py_scope.
Notation "c ;; k" := (bind c (fun _ => k))
  (at level 100, k at level 200, right associativity) : py_scope.
Open Scope py_scope.

(** ** [django.core.cache.cache] *)

Section Cache.
Context {R : Relational}.

(** Stored values do not expire in this model. *)

(** [cache.get(key)]: the stored value, [None] when there is none. *)
Definition lookup_default (key : string) (c : gmap string CVal) : CVal :=
  default CNone (c !! key).

Definition cache_get (key : string) : M CVal :=
  emit (CacheGet key) ;;
  c <- read_cache ;;
  ret (lookup_default key c).

(** [cache.set(key, val, timeout)] *)
Definition cache_set (key : string) (val : CVal) (tmo : option Z) : M unit :=
  emit (CacheSet key val tmo) ;;
  update_cache (fun c => <[key := val]> c).

(** [cache.add(key, val, timeout)]: stores only if the key holds nothing. *)
Definition add_if_absent (key : string) (val : CVal) (c : gmap string CVal) :
    gmap string CVal :=
  match c !! key with
  | Some _ => c
  | None => <[key := val]> c
  end.

Definition cache_add (key : string) (val : CVal) (tmo : option Z) : M unit :=
  emit (CacheAdd key val tmo) ;;
  update_cache (add_if_absent key val).

(** [cache.delete(key)] *)
Definition cache_delete (key : string) : M unit :=
  emit (CacheDelete key) ;;
  update_cache (fun c => delete key c).

(** [cache.get_many(keys)]: the mapping of the keys that are present. *)
Definition cache_get_many (keys : list string) : M (gmap string CVal) :=
  emit (CacheGetMany keys) ;;
  c <- read_cache ;;
  ret (filter (fun kv => kv.1 ∈ keys) c).

(** [cache.set_many(new)] *)
Definition cache_set_many (new : gmap string CVal) : M unit :=
  emit (CacheSetMany new) ;;
  update_cache (fun c => new ∪ c).

End Cache.

(** ** The [invalidator] object, as called from this module *)

Section Invalidator.
Context {R : Relational} {I : Invalidation}.

Definition add_to_flush_list (mapping : gmap string (gset string)) : M unit :=
  emit (AddToFlushList mapping) ;;
  update_cache (inv_add_to_flush_list mapping).

Definition get_flush_lists (keys : list string) : M (list string) :=
  emit (GetFlushLists keys) ;;
  c <- read_cache ;;
  ret (inv_get_flush_lists keys c).

Definition invalidate_keys (keys : list string) : M unit :=
  emit (InvalidateKeys keys) ;;
  update_cache (inv_invalidate_keys keys).

Definition cache_objects (objects : list Obj) (query_key query_flush : string) : M unit :=
  emit (CacheObjects objects query_key query_flush) ;;
  update_cache (inv_cache_objects objects query_key query_flush).

Definition clear : M unit :=
  emit Clear ;;
  update_cache inv_clear.

End Invalidator.

(** ** Logging *)

Section Log.
Context {R : Relational} {Pr : Printing}.

Definition log_debug (msg : string) : M unit := emit (LogDebug msg).
Definition log_warning (msg : string) : M unit := emit (LogWarning msg).

(** [u'%r cannot be cached.' % obj].  A tuple on the right of [%] is
    the argument list: with no item there are not enough arguments for
    the format string, with more than one not all arguments are
    converted, and both raise [TypeError]; with one item, that item is
    printed.  Any other object is the one argument. *)
Definition cannot_be_cached (obj : PyObject) : Result string :=
  rbind (match obj with
         | OTuple [item] => repr_ item
         | OTuple _ => Raise TypeError
         | _ => repr_ obj
         end)
        (fun text => Ok (text ++ " cannot be cached.")).

End Log.

(** ** Iterator objects *)

(** A generator object made by calling an [iter_function]: not yet
    started, or suspended in its final loop over rows (the base iterator
    and the raw query) or over primary keys ([fetch_by_id]). *)
Inductive UIter :=
  | UNew (f : IterFunction)
  | URows (rows : list Obj)
  | UById (pks : list PyVal) (objects : gmap PyVal Obj)
  | UDone.

(** Where the generator [CacheMachine.__iter__] is suspended: before
    its first statement, at the [yield] of the hit loop with the items
    still to replay, at the [yield] of the miss loop with the
    underlying iterator and the buffer, or finished. *)
Inductive GenState :=
  | GStart
  | GHit (cached : list Obj)
  | GMiss (iterator : UIter) (to_cache : list Obj)
  | GDone.

(** What [CachingQuerySet.iterator] returns: a generator of the base
    iterator, or the generator of a [CacheMachine]. *)
Inductive Iter :=
  | IterPlain (u : UIter)
  | IterMachine (cm : CacheMachine) (g : GenState).

(** ** [CachingQuerySet]: constraints and keys *)

Module CachingQuerySet.
Section QuerySet.
Context {R : Relational} {I : Invalidation} {S : Settings}.

(** [self.query_key()]: [sql % params]; compiling may raise
    [EmptyResultSet]. *)
Definition query_key (self : CachingQuerySet) : M string :=
  lift (of_option EmptyResultSet (as_sql (qs_query self))).

(** [self.flush_key()] *)
Definition flush_key (self : CachingQuerySet) : M string :=
  k <- query_key self ;;
  ret (flush_key (KeyStr k)).

(** The list and tuple attributes of a [WhereNode] hold its children. *)
Definition children (w : WhereItem) : list WhereItem :=
  match w with
  | WhereNode cs => cs
  | _ => []
  end.

(** [model._meta.pk and model._meta.pk.name == name] *)
Definition is_pk_name (model : ModelClass) (name : string) : bool :=
  match meta_pk (cls__meta model) with
  | Some pk => bool_decide (field_name pk = name)
  | None => false
  end.

(** One round of the inner [for i, item in enumerate(v)] loop.  The
    stack is a list whose head is the element [stack.pop()] takes. *)
Definition visit_item (st : list WhereItem * gmap string (gset string))
    (item : WhereItem) : list WhereItem * gmap string (gset string) :=
  let '(stack, constraints) := st in
  match item with
  | WhereNode _ => (item :: stack, constraints)
  | ConstraintTuple model name _ _ =>
      if negb (cls_mixin model) then st
      else if is_pk_name model name then st
      else
        let constraint_key := "cols:" ++ _model_key model in
        let old := default ∅ (constraints !! constraint_key) in
        (stack, <[constraint_key := old ∪ {[name]}]> constraints)
  | OtherItem => st
  end.

(** The [while stack:] loop; each round pops one node. *)
Fixpoint walk (fuel : nat) (stack : list WhereItem)
    (constraints : gmap string (gset string)) : gmap string (gset string) :=
  match fuel with
  | 0 => constraints
  | Datatypes.S fuel' =>
      match stack with
      | [] => constraints
      | curr_where :: stack' =>
          let '(stack'', constraints') :=
            foldl visit_item (stack', constraints) (children curr_where) in
          walk fuel' stack'' constraints'
      end
  end.

(** The number of nodes of a where tree: the loop pops each node once. *)
Fixpoint nodes (w : WhereItem) : nat :=
  match w with
  | WhereNode cs => Datatypes.S (list_sum (map nodes cs))
  | _ => 0
  end.

(** [self.get_constraints()] *)
Definition get_constraints (self : CachingQuerySet) : gmap string (gset string) :=
  let root := q_where (qs_query self) in
  walk (Datatypes.S (nodes root)) [root] ∅.

(** [self._clone()] keeps the timeout; [self.cache(timeout)] replaces it. *)
Definition cache_ (self : CachingQuerySet) (tmo : option Z) : CachingQuerySet :=
  {| qs_model := qs_model self; qs_query := qs_query self; qs_timeout := tmo |}.

Definition no_cache (self : CachingQuerySet) : CachingQuerySet :=
  cache_ self (Some NO_CACHE).

(** Django resolves the lookup name [pk] to the primary key field. *)
Definition pk_field_name (model : ModelClass) : string :=
  match meta_pk (cls__meta model) with
  | Some pk => field_name pk
  | None => "pk"
  end.

(** [where.add(item, AND)] on the root node. *)
Definition where_add (item : WhereItem) (w : WhereItem) : WhereItem :=
  match w with
  | WhereNode cs => WhereNode (cs ++ [item])
  | _ => WhereNode [w; item]
  end.

(** [self.filter(pk<lookup>=value)] *)
Definition filter_pk (self : CachingQuerySet) (lookup_type : string)
    (value : list PyVal) : CachingQuerySet :=
  let q := qs_query self in
  let item := ConstraintTuple (qs_model self) (pk_field_name (qs_model self))
                lookup_type value in
  {| qs_model := qs_model self;
     qs_query := {| q_model := q_model q; q_where := where_add item (q_where q);
                    q_low_mark := q_low_mark q; q_high_mark := q_high_mark q;
                    q_order_by := q_order_by q;
                    q_select_related := q_select_related q;
                    q_extra := q_extra q |};
     qs_timeout := qs_timeout self |}.

(** [others.query.clear_limits()] followed by [others.order_by()]. *)
Definition clear_limits_and_order (self : CachingQuerySet) : CachingQuerySet :=
  let q := qs_query self in
  {| qs_model := qs_model self;
     qs_query := {| q_model := q_model q; q_where := q_where q;
                    q_low_mark := 0; q_high_mark := None;
                    q_order_by := [];
                    q_select_related := q_select_related q;
                    q_extra := q_extra q |};
     qs_timeout := qs_timeout self |}.

(** [self.fetch_missed(pks)]; [others] is a clone of [self], so
    [dup_select_related(self)] leaves its [select_related] as it is. *)
Definition fetch_missed (self : CachingQuerySet) (pks : list PyVal) : CachingQuerySet :=
  let others := clear_limits_and_order self in
  let others := filter_pk others "in" pks in
  no_cache others.

(** [dict(pairs)]: a later pair replaces an earlier one with its key. *)
Definition dict {K V} `{Countable K} (pairs : list (K * V)) : gmap K V :=
  list_to_map (reverse pairs).

(** [o.pk] for the values found in the cache and fetched anew. *)
Definition cval_pk (v : CVal) : Result (PyVal * Obj) :=
  match v with
  | CObj o => rbind (obj_pk o) (fun pk => Ok (pk, o))
  | _ => Raise AttributeError
  end.

Fixpoint mapR {A B} (f : A -> Result B) (l : list A) : Result (list B) :=
  match l with
  | [] => Ok []
  | a :: l' => rbind (f a) (fun b => rbind (mapR f l') (fun bs => Ok (b :: bs)))
  end.

(** [self.model._cache_key(pk)]: a class without the mixin has no such
    attribute. *)
Definition class_cache_key (cls : ModelClass) (pk : PyVal) : Result string :=
  if cls_mixin cls then Ok (_cache_key cls pk) else Raise AttributeError.

(** The body of [CachingQuerySet.fetch_by_id] up to its final loop.
    Iterating [others], a queryset with the [NO_CACHE] timeout, goes
    through [iterator]: constraints are registered and the base
    iterator runs. *)
Definition fetch_by_id (self : CachingQuerySet) : M UIter :=
  emit (DbValuesList (qs_query self)) ;;
  d <- read_db ;;
  let pks := values_list_pk (qs_query self) d in
  pairs <- lift (mapR (fun pk =>
                         rbind (class_cache_key (qs_model self) pk) (fun key =>
                         Ok (byid (KeyStr key), pk))) pks) ;;
  let keys : gmap string PyVal := dict pairs in
  got <- cache_get_many (map fst (map_to_list keys)) ;;
  let cached := filter (fun kv => is_none kv.2 = false) got in
  let missed := map snd (filter (fun kv => bool_decide (cached !! kv.1 = None))
                                (map_to_list keys)) in
  new <- match missed with
         | [] => ret ∅
         | _ =>
             let others := fetch_missed self missed in
             add_to_flush_list (get_constraints others) ;;
             emit (IterFunctionCall (SuperIterator (qs_query others))) ;;
             emit (DbExecute (qs_query others)) ;;
             d' <- read_db ;;
             let new := dict (map (fun o => (byid (KeyObj o), CObj o))
                                  (execute (qs_query others) d')) in
             cache_set_many new ;;
             ret new
         end ;;
  found <- lift (mapR cval_pk (map snd (map_to_list cached) ++ map snd (map_to_list new))) ;;
  ret (UById pks (dict found)).

(** [CachingQuerySet.iterator] *)
Definition iterator (self : CachingQuerySet) : M Iter :=
  let constraints := get_constraints self in
  add_to_flush_list constraints ;;
  let iterator := SuperIterator (qs_query self) in
  if bool_decide (qs_timeout self = Some NO_CACHE) then
    emit (IterFunctionCall iterator) ;;
    ret (IterPlain (UNew iterator))
  else
    r <- try_except (k <- query_key self ;; ret (Some k))
           (fun e => match e with EmptyResultSet => true | _ => false end)
           (ret None) ;;
    match r with
    | None =>
        emit (IterFunctionCall iterator) ;;
        ret (IterPlain (UNew iterator))
    | Some query_string =>
        let iterator := if FETCH_BY_ID then FetchById self else iterator in
        ret (IterMachine (MkCacheMachine query_string iterator (qs_timeout self)) GStart)
    end.

End QuerySet.
End CachingQuerySet.

(** ** The iterators under [CacheMachine] *)

Section Underlying.
Context {R : Relational} {I : Invalidation} {S : Settings}.

(** Running a generator from its creation to its final loop. *)
Definition u_start (f : IterFunction) : M UIter :=
  match f with
  | SuperIterator q =>
      emit (DbExecute q) ;;
      d <- read_db ;;
      ret (URows (execute q d))
  | RawIterator sql =>
      emit (DbExecuteRaw sql) ;;
      d <- read_db ;;
      ret (URows (execute_raw sql d))
  | FetchById qs => CachingQuerySet.fetch_by_id qs
  end.

(** One round of the final loop: the next row, or [None] at the end. *)
Definition u_pull (u : UIter) : Result (option Obj * UIter) :=
  match u with
  | URows (o :: rows) => Ok (Some o, URows rows)
  | UById (pk :: pks) objects =>
      match objects !! pk with
      | Some o => Ok (Some o, UById pks objects)
      | None => Raise KeyError
      end
  | _ => Ok (None, UDone)
  end.

(** [iterator.next()]; [Ok None] stands for [StopIteration]. *)
Definition u_next (u : UIter) : M (option Obj * UIter) :=
  match u with
  | UNew f => u' <- u_start f ;; lift (u_pull u')
  | _ => lift (u_pull u)
  end.

(** How many rows a started generator can still produce. *)
Definition u_remaining (u : UIter) : nat :=
  match u with
  | URows rows => length rows
  | UById pks _ => length pks
  | _ => 0
  end.

End Underlying.

(** ** [CacheMachine] *)

Module CacheMachine.
Section Machine.
Context {R : Relational} {I : Invalidation} {S : Settings}.

(** [self.query_key()] *)
Definition query_key (self : CacheMachine) : M string :=
  let key := make_key ("qs:" ++ query_string self) false in
  cache_set ("sql:" ++ key) (CScalar (PStr (query_string self))) None ;;
  ret key.

(** [self.cache_objects(objects)] *)
Definition cache_objects (self : CacheMachine) (objects : list Obj) : M unit :=
  query_key <- query_key self ;;
  let query_flush := flush_key (KeyStr (query_string self)) in
  cache_add query_key (CObjs objects) (timeout self) ;;
  cache_objects objects query_key query_flush.

(** The loop [for obj in cached], entered or resumed. *)
Definition replay (cached : list Obj) : M (option Obj * GenState) :=
  match cached with
  | [] => ret (None, GDone)
  | obj :: rest =>
      let obj := set_from_cache true obj in
      emit (Yield obj) ;;
      ret (Some obj, GHit rest)
  end.

(** The loop [while True] under [try], entered or resumed; at
    [StopIteration] the handler caches a non-empty buffer and the
    generator ends. *)
Definition fetch (self : CacheMachine) (iterator : UIter) (to_cache : list Obj) :
    M (option Obj * GenState) :=
  r <- u_next iterator ;;
  match r with
  | (Some obj, iterator') =>
      let obj := set_from_cache false obj in
      let to_cache := (to_cache ++ [obj])%list in
      emit (Yield obj) ;;
      ret (Some obj, GMiss iterator' to_cache)
  | (None, _) =>
      match to_cache with
      | [] => ret tt
      | _ => cache_objects self to_cache
      end ;;
      ret (None, GDone)
  end.

(** [self.__iter__()]: the generator body run from state [g] to its
    next [yield] ([Some obj]) or to its end ([None]). *)
Definition __iter__ (self : CacheMachine) (g : GenState) : M (option Obj * GenState) :=
  match g with
  | GStart =>
      r <- try_except (k <- query_key self ;; ret (Some k))
             (fun e => match e with EmptyResultSet => true | _ => false end)
             (ret None) ;;
      match r with
      | None => ret (None, GDone)
      | Some query_key =>
          cached <- cache_get query_key ;;
          if negb (is_none cached) then
            (if CACHE_DEBUG then log_debug ("cache hit: " ++ query_string self)
             else ret tt) ;;
            match cached with
            | CObjs l => replay l
            | CScalar (PStr "") | CKeys [] => ret (None, GDone)
            | CScalar (PStr _) | CKeys _ => raise AttributeError
            | _ => raise TypeError
            end
          else
            emit (IterFunctionCall (iter_function self)) ;;
            fetch self (UNew (iter_function self)) []
      end
  | GHit cached => replay cached
  | GMiss iterator to_cache => fetch self iterator to_cache
  | GDone => ret (None, GDone)
  end.

(** An upper bound on the [yield]s left in a started generator. *)
Definition remaining (g : GenState) : nat :=
  match g with
  | GHit cached => length cached
  | GMiss iterator _ => u_remaining iterator
  | _ => 0
  end.

End Machine.
End CacheMachine.

(** ** Iterating a queryset *)

Section Iteration.
Context {R : Relational} {I : Invalidation} {S : Settings}.

(** [it.next()] *)
Definition next (it : Iter) : M (option Obj * Iter) :=
  match it with
  | IterPlain u =>
      r <- u_next u ;;
      ret (r.1, IterPlain r.2)
  | IterMachine cm g =>
      r <- CacheMachine.__iter__ cm g ;;
      ret (r.1, IterMachine cm r.2)
  end.

Definition it_remaining (it : Iter) : nat :=
  match it with
  | IterPlain u => u_remaining u
  | IterMachine _ g => CacheMachine.remaining g
  end.

(** Calling [next] until the iterator is exhausted, collecting the
    items.  [fuel] bounds the calls; running out of it is an error of
    its own, never the end of the iteration. *)
Fixpoint collect (fuel : nat) (it : Iter) : M (list Obj) :=
  match fuel with
  | 0 => raise (Exception "collect: out of fuel")
  | Datatypes.S fuel' =>
      r <- next it ;;
      match r with
      | (None, _) => ret []
      | (Some obj, it') =>
          rest <- collect fuel' it' ;;
          ret (obj :: rest)
      end
  end.

(** [list(it)]: after the first [next] the iterator is in one of its
    loops, which bounds the calls that remain. *)
Definition list_ (it : Iter) : M (list Obj) :=
  r <- next it ;;
  match r with
  | (None, _) => ret []
  | (Some obj, it') =>
      rest <- collect (Datatypes.S (it_remaining it')) it' ;;
      ret (obj :: rest)
  end.

(** Django's [QuerySet.get] for a primary key lookup. *)

(** The clone [get] iterates: filtered on the primary key, without
    ordering. *)
Definition exact_pk (self : CachingQuerySet) (value : PyVal) : CachingQuerySet :=
  let clone := CachingQuerySet.filter_pk self "exact" [value] in
  let q := qs_query clone in
  {| qs_model := qs_model clone;
     qs_query := {| q_model := q_model q; q_where := q_where q;
                    q_low_mark := q_low_mark q; q_high_mark := q_high_mark q;
                    q_order_by := [];
                    q_select_related := q_select_related q;
                    q_extra := q_extra q |};
     qs_timeout := qs_timeout clone |}.

(** [self.get(pk=value)]: fill the result cache from [iterator] and
    demand exactly one row. *)
Definition QuerySet_get (self : CachingQuerySet) (value : PyVal) : M Obj :=
  let clone := exact_pk self value in
  it <- CachingQuerySet.iterator clone ;;
  rows <- list_ it ;;
  match rows with
  | [obj] => ret obj
  | [] => raise DoesNotExist
  | _ => raise MultipleObjectsReturned
  end.

End Iteration.


(** ** [CachingManager]: the mutation hooks *)

Record CachingManager := MkManager {
  model : ModelClass
}.

(** [s[n:]] *)
Definition string_from (n : nat) (s : string) : string :=
  String.substring n (String.length s - n) s.

Module CachingManager.
Section Manager.
Context {R : Relational} {I : Invalidation} {S : Settings}.

(** [self.get_query_set()]: a fresh [CachingQuerySet(self.model)]. *)
Definition get_query_set (self : CachingManager) : CachingQuerySet :=
  {| qs_model := model self;
     qs_query := {| q_model := model self; q_where := WhereNode [];
                    q_low_mark := 0; q_high_mark := None;
                    q_order_by := [];
                    q_select_related := false;
                    q_extra := [] |};
     qs_timeout := None |}.

(** [self.cache(timeout)] *)
Definition cache_ (self : CachingManager) (tmo : option Z) : CachingQuerySet :=
  CachingQuerySet.cache_ (get_query_set self) tmo.

(** [self.no_cache()] *)
Definition no_cache (self : CachingManager) : CachingQuerySet :=
  cache_ self (Some NO_CACHE).

(** [self.contribute_to_class(cls, name)] *)
Definition contribute_to_class (self : CachingManager) (cls : ModelClass)
    (name : string) : M unit :=
  emit (SignalConnect "pre_save" (Some cls)) ;;
  emit (SignalConnect "post_save" (Some cls)) ;;
  emit (SignalConnect "post_delete" (Some cls)) ;;
  emit (SignalConnect "m2m_changed" None) ;;
  emit (SuperContributeToClass cls name).

(** The loop of [invalidate] that gathers the keys. *)
Fixpoint gather_keys (objects : list Obj) : Result (list string) :=
  match objects with
  | [] => Ok []
  | o :: objects' =>
      if cls_mixin (o_class o)
      then rbind (_cache_keys o) (fun ks =>
           rbind (gather_keys objects') (fun keys => Ok (ks ++ keys)%list))
      else gather_keys objects'
  end.

(** [self.invalidate] applied to the tuple [objects] *)
Definition invalidate (self : CachingManager) (objects : list Obj) : M unit :=
  keys <- lift (gather_keys objects) ;;
  if Nat.ltb 0 (length keys) then invalidate_keys keys else ret tt.

(** [self.invalidate_model()] *)
Definition invalidate_model (self : CachingManager) : M unit :=
  model_key <- (if cls_mixin (model self)
                then ret (_model_key (model self))
                else raise AttributeError) ;;
  (if CACHE_DEBUG
   then log_debug ("Invalidating model " ++ string_from 2 model_key)
   else ret tt) ;;
  (if negb (cls_mixin (model self))
   then raise (Exception
          ("The model Manager of "
           ++ join "." [cls___module__ (model self); cls___name__ (model self)]
           ++ " uses caching, but the model does not. Needs CachingMixIn."))
   else ret tt) ;;
  invalidate_keys [model_key] ;;
  cache_delete ("cols:" ++ model_key).

(** The loop [for col in flush_cols] of [pre_save]; [objects] is
    [cls.objects]. *)
Fixpoint compare_cols (objects : CachingManager) (orig instance : Obj)
    (flush_cols : list string) : M unit :=
  match flush_cols with
  | [] => ret tt
  | col :: flush_cols' =>
      if negb (hasattr orig col) || negb (hasattr instance col)
      then compare_cols objects orig instance flush_cols'
      else if py_ne (getattr orig col) (getattr instance col)
      then invalidate_model objects
      else compare_cols objects orig instance flush_cols'
  end.

(** [self.pre_save(sender, instance, raw)] *)
Definition pre_save (self : CachingManager) (sender : ModelClass)
    (instance : Obj) (raw : bool) : M unit :=
  if raw then ret tt else
  id <- lift (attr instance "id") ;;
  if negb (truthy id) then ret tt else
  let cls := o_class instance in
  if negb (cls_objects_caching cls) then ret tt else
  let objects := MkManager cls in
  orig <- QuerySet_get (no_cache objects) id ;;
  model_key <- lift (model_key instance) ;;
  let constraint_key := "cols:" ++ model_key in
  flush_cols <- get_flush_lists [constraint_key] ;;
  if Nat.eqb (length flush_cols) 0 then ret tt else
  compare_cols objects orig instance flush_cols.

(** [self.post_save(instance, created)] *)
Definition post_save (self : CachingManager) (instance : Obj) (created : bool) : M unit :=
  invalidate self [instance] ;;
  if created then clear else ret tt.

(** [self.post_delete(instance)] *)
Definition post_delete (self : CachingManager) (instance : Obj) : M unit :=
  invalidate self [instance].

(** [self.m2m_changed(instance, action)] *)
Definition m2m_changed (self : CachingManager) (instance : Obj) (action : string) : M unit :=
  if negb (String.eqb (String.substring 0 4 action) "post") then ret tt
  else invalidate self [instance].

End Manager.
End CachingManager.

(** ** Function memoization *)

Section Memo.
Context {R : Relational} {I : Invalidation} {S : Settings} {Pr : Printing}.

(** A Python callable without arguments.  Its body may read and write
    the cache store and the database. *)
Record Callable := MkCallable {
  fn_name : string;
  fn_body : gmap string CVal -> DB -> Result CVal * gmap string CVal * DB
}.

(** [f()] *)
Definition call (f : Callable) : M CVal :=
  emit (FunctionCall (fn_name f)) ;;
  fun w =>
    let '(r, c, d) := fn_body f (cache w) (db w) in
    (r, {| cache := c; db := d; trace := trace w |}).

Definition _function_cache_key (key : string) : string :=
  make_key ("f:" ++ key) true.

(** [cached(function, key_, duration)] *)
Definition cached (function : Callable) (key_ : string) (duration : option Z) : M CVal :=
  let key := _function_cache_key key_ in
  val <- cache_get key ;;
  if is_none val then
    (if CACHE_DEBUG then log_debug ("cache miss for " ++ key) else ret tt) ;;
    val <- call function ;;
    cache_set key val duration ;;
    ret val
  else
    (if CACHE_DEBUG then log_debug ("cache hit for " ++ key) else ret tt) ;;
    ret val.

Definition has_query_key (obj : PyObject) : bool :=
  match obj with
  | OQuerySet _ | OMachine _ => true
  | _ => false
  end.

Definition has_cache_key (obj : PyObject) : bool :=
  match obj with
  | OInstance o => cls_mixin (o_class o)
  | _ => false
  end.

(** [obj.query_key() if hasattr(obj, 'query_key') else obj.cache_key] *)
Definition object_key (obj : PyObject) : M string :=
  match obj with
  | OQuerySet qs => CachingQuerySet.query_key qs
  | OMachine cm => CacheMachine.query_key cm
  | OInstance o => lift (cache_key o)
  | OOther _ | OTuple _ => raise AttributeError
  end.

(** [obj.flush_key()]; a [CacheMachine] has no such method. *)
Definition object_flush_key (obj : PyObject) : M string :=
  match obj with
  | OQuerySet qs => CachingQuerySet.flush_key qs
  | OInstance o =>
      if cls_mixin (o_class o) then ret (flush_key (KeyObj o))
      else raise AttributeError
  | _ => raise AttributeError
  end.

(** [cached_with(obj, f, f_key, timeout)] *)
Definition cached_with (obj : PyObject) (f : Callable) (f_key : string)
    (tmo : option Z) : M CVal :=
  r <- try_except (k <- object_key obj ;; ret (Some k))
         (fun e => match e with AttributeError => true | _ => false end)
         (ret None) ;;
  match r with
  | None =>
      msg <- lift (cannot_be_cached obj) ;;
      log_warning msg ;;
      call f
  | Some obj_key =>
      let key := f_key ++ ":" ++ obj_key in
      fk <- object_flush_key obj ;;
      add_to_flush_list {[ fk := {[ _function_cache_key key ]} ]} ;;
      cached f key tmo
  end.

End Memo.

(** ** [cached_method] and [MethodWrapper] *)

(** A positional or keyword argument of a cached method: a plain value
    or a model instance. *)
Inductive Arg :=
  | ArgVal (v : PyVal)
  | ArgObj (o : Obj).

(** How Python prints the list of argument keys and the list of
    keyword pairs under the format [%s], and how it substitutes the
    parameters of a raw query. *)
Class Formatting := {
  str_args : list Arg -> string;
  str_kwargs : list (string * Arg) -> string;
  percent : string -> list PyVal -> string
}.

Section Methods.
Context {R : Relational}.

(** A method: its [__name__] and its body applied to [self], the
    arguments and the keyword arguments. *)
Record Method := MkMethod {
  m_name : string;
  m_body : Obj -> list Arg -> list (string * Arg) ->
           gmap string CVal -> DB -> Result CVal * gmap string CVal * DB
}.

(** [MethodWrapper]: [local] is its dictionary [self.cache]. *)
Record MethodWrapper := MkMethodWrapper {
  mw_obj : Obj;
  mw_func : Method;
  local : gmap string CVal
}.

End Methods.

Module MethodWrapper.
Section Wrapper.
Context {R : Relational} {I : Invalidation} {S : Settings} {Pr : Printing}
  {F : Formatting}.

(** [MethodWrapper(obj, func)]: the wrapper [cached_method.__get__]
    makes at the first access on an instance. *)
Definition __init__ (obj : Obj) (func : Method) : MethodWrapper :=
  {| mw_obj := obj; mw_func := func; local := ∅ |}.

(** [k = lambda o: o.cache_key if hasattr(o, 'cache_key') else o] *)
Definition k (o : Arg) : Arg :=
  match o with
  | ArgObj obj =>
      match cache_key obj with
      | Ok key => ArgVal (PStr key)
      | Raise _ => o
      end
  | ArgVal _ => o
  end.

(** [functools.partial(self.func, self.obj, args, kwargs)] *)
Definition partial (func : Method) (obj : Obj) (args : list Arg)
    (kwargs : list (string * Arg)) : Callable :=
  {| fn_name := m_name func; fn_body := m_body func obj args kwargs |}.

(** The key under which a call is memoized. *)
Definition call_key (own : string) (func : Method) (args : list Arg)
    (kwargs : list (string * Arg)) : string :=
  let arg_keys := map k args in
  let kwarg_keys := map (fun kv => (kv.1, k kv.2)) kwargs in
  "m:" ++ own ++ ":" ++ m_name func ++ ":" ++ str_args arg_keys
  ++ ":" ++ str_kwargs kwarg_keys.

(** [self.__call__(args, kwargs)]; the wrapper is returned with its
    updated dictionary. *)
Definition __call__ (self : MethodWrapper) (args : list Arg)
    (kwargs : list (string * Arg)) : M (CVal * MethodWrapper) :=
  own <- lift (cache_key (mw_obj self)) ;;
  let key := call_key own (mw_func self) args kwargs in
  match local self !! key with
  | None =>
      let f := partial (mw_func self) (mw_obj self) args kwargs in
      val <- cached_with (OInstance (mw_obj self)) f key None ;;
      ret (val, {| mw_obj := mw_obj self; mw_func := mw_func self;
                   local := <[key := val]> (local self) |})
  | Some val => ret (val, self)
  end.

End Wrapper.
End MethodWrapper.

(** ** [CachingQuerySet.count] and [CachingRawQuerySet] *)

Record CachingRawQuerySet := MkRawQuerySet {
  raw_query : string;
  params : list PyVal
}.

Module CachingQuerySetCount.
Section Count.
Context {R : Relational} {I : Invalidation} {S : Settings} {Pr : Printing}.

(** [super(CachingQuerySet, self).count] *)
Definition super_count (self : CachingQuerySet) : Callable :=
  {| fn_name := "count";
     fn_body := fun c d => (Ok (CScalar (PInt (count_rows (qs_query self) d))), c, d) |}.

(** [self.count()] *)
Definition count (self : CachingQuerySet) : M CVal :=
  let tmo := CACHE_COUNT_TIMEOUT in
  k <- CachingQuerySet.query_key self ;;
  let query_string := "count:" ++ k in
  match tmo with
  | None => call (super_count self)
  | Some _ => cached_with (OQuerySet self) (super_count self) query_string tmo
  end.

End Count.
End CachingQuerySetCount.

Module CachingRawQuerySet.
Section Raw.
Context {R : Relational} {F : Formatting}.

(** [self.__iter__()]: the generator hands on what the machine for the
    formatted query yields. *)
Definition __iter__ (self : CachingRawQuerySet) : Iter :=
  let sql := percent (raw_query self) (params self) in
  IterMachine (MkCacheMachine sql (RawIterator sql) None) GStart.

End Raw.
End CachingRawQuerySet.

(** ** A reference invalidator *)

(** Modelled from the spec: [caching/invalidation.py] is not among the
    sources.  Flush lists are kept in the cache store itself, under the
    invalidation key, as the key set of the dependents (sections 3 and
    4.2); [register] merges with union semantics; [invalidate] deletes
    every dependent and the list itself and follows lists found among
    the dependents; the constraint sets [cols:<ModelKey>] are flush
    lists of column names (section 4.3); [clear] drops all flush-list
    entries (section 4.5).  The hash of key derivation (section 4.1)
    is replaced by the identity, which is injective, and the locale
    salt is a fixed suffix. *)
Module SpecInvalidation.

Definition make_key (k : string) (with_locale : bool) : string :=
  if with_locale then k ++ ":en-us" else k.

Definition key_of (a : KeyArg) : string :=
  match a with
  | KeyStr s => s
  | KeyObj o => match cache_key o with Ok k => k | Raise _ => "" end
  end.

Definition flush_key (a : KeyArg) : string := "flush:" ++ make_key (key_of a) false.
Definition byid (a : KeyArg) : string := "byid:" ++ make_key (key_of a) false.

Definition flush_list (v : option CVal) : list string :=
  match v with
  | Some (CKeys l) => l
  | _ => []
  end.

Definition merge_entry (new : option (gset string)) (old : option CVal) : option CVal :=
  match new with
  | Some s => Some (CKeys (flush_list old ++ filter (fun k => k ∉ flush_list old) (elements s)))
  | None => old
  end.

(** [register(dependency_map)] *)
Definition add_to_flush_list (mapping : gmap string (gset string))
    (c : gmap string CVal) : gmap string CVal :=
  merge merge_entry mapping c.

Definition get_flush_lists (keys : list string) (c : gmap string CVal) : list string :=
  remove_dups (concat (map (fun k => flush_list (c !! k)) keys)).

(** The fixed point of [invalidate]: each pending key is deleted; when
    it held a flush list, its members become pending. *)
Fixpoint flush (fuel : nat) (pending : list string) (c : gmap string CVal) :
    gmap string CVal :=
  match fuel, pending with
  | Datatypes.S fuel', k :: rest => flush fuel' (rest ++ flush_list (c !! k)) (delete k c)
  | _, _ => c
  end.

Definition list_total (c : gmap string CVal) : nat :=
  list_sum (map (fun kv => length (flush_list (Some kv.2))) (map_to_list c)).

(** [invalidate(invalidation_keys)] *)
Definition invalidate_keys (keys : list string) (c : gmap string CVal) : gmap string CVal :=
  flush (length keys + list_total c) (map (fun k => flush_key (KeyStr k)) keys) c.

Definition register (k v : string) (m : gmap string (gset string)) :
    gmap string (gset string) :=
  <[k := default ∅ (m !! k) ∪ {[v]}]> m.

(** The dependency map of a query result: the query's flush key under
    every record and model it read, the query key under the query's
    flush key. *)
Definition dependency_map (objects : list Obj) (query_key query_flush : string) :
    gmap string (gset string) :=
  foldr (fun o m =>
           register (flush_key (KeyObj o)) query_flush
             (register (flush_key (KeyStr (_model_key (o_class o)))) query_flush m))
        {[ query_flush := {[ query_key ]} ]} objects.

Definition cache_objects (objects : list Obj) (query_key query_flush : string)
    (c : gmap string CVal) : gmap string CVal :=
  add_to_flush_list (dependency_map objects query_key query_flush) c.

Definition is_flush_list (v : CVal) : bool :=
  match v with
  | CKeys _ => true
  | _ => false
  end.

Definition clear (c : gmap string CVal) : gmap string CVal :=
  filter (fun kv => is_flush_list kv.2 = false) c.

#[export] Instance invalidation : Invalidation :=
  Build_Invalidation make_key flush_key byid add_to_flush_list get_flush_lists
    invalidate_keys cache_objects clear.

End SpecInvalidation.

(** ** A small relational layer and sample models

    The examples run on a database that is one list of rows.  A query
    selects the rows of its model that satisfy every constraint tuple of
    its where tree; compiling a query with an empty [in] list raises
    [EmptyResultSet], as Django does. *)
Module Sample.

Fixpoint satisfies (o : Obj) (w : WhereItem) : bool :=
  match w with
  | WhereNode cs => forallb (satisfies o) cs
  | ConstraintTuple _ name _ value =>
      match getattr o name with
      | Some v => bool_decide (v ∈ value)
      | None => false
      end
  | OtherItem => true
  end.

Definition table (c : ModelClass) : string := _model_key c.

Definition select (q : Query) (rows : list Obj) : list Obj :=
  filter (fun o => String.eqb (table (o_class o)) (table (q_model q))
                   && satisfies o (q_where q)) rows.

Fixpoint render (w : WhereItem) : string :=
  match w with
  | WhereNode cs => "(" ++ join " AND " (map render cs) ++ ")"
  | ConstraintTuple _ name lookup_type value =>
      name ++ " " ++ lookup_type ++ " "
      ++ join "," (map (fun v => smart_unicode (KVal v)) value)
  | OtherItem => "?"
  end.

Fixpoint matches_nothing (w : WhereItem) : bool :=
  match w with
  | WhereNode cs => existsb matches_nothing cs
  | ConstraintTuple _ _ _ [] => true
  | _ => false
  end.

Definition compile (q : Query) : option string :=
  if matches_nothing (q_where q) then None
  else Some ("SELECT * FROM " ++ table (q_model q) ++ " WHERE " ++ render (q_where q)).

Definition pk_of (o : Obj) : PyVal :=
  match obj_pk o with
  | Ok v => v
  | Raise _ => PNone
  end.

#[export] Instance relational : Relational := {|
  DB := list Obj;
  as_sql := compile;
  execute := select;
  execute_raw := fun sql rows =>
    filter (fun o => String.eqb sql ("SELECT * FROM " ++ table (o_class o))) rows;
  values_list_pk := fun q rows => map pk_of (select q rows);
  count_rows := fun q rows => Z.of_nat (length (select q rows))
|}.

Definition show_arg (a : Arg) : string :=
  match a with
  | ArgVal v => smart_unicode (KVal v)
  | ArgObj _ => "<object>"
  end.

#[export] Instance formatting : Formatting := {|
  str_args := fun l => "[" ++ join ", " (map show_arg l) ++ "]";
  str_kwargs := fun l =>
    "[" ++ join ", " (map (fun kv => "(" ++ kv.1 ++ ", " ++ show_arg kv.2 ++ ")") l) ++ "]";
  percent := fun raw params =>
    raw ++ " % (" ++ join ", " (map (fun v => smart_unicode (KVal v)) params) ++ ")"
|}.

(** Printing as Django does for a model without [__unicode__], with
    the name of any other value for its text. *)
Definition printing : Printing :=
  {| repr_ := fun obj =>
       match obj with
       | OInstance o =>
           Ok ("<" ++ cls___name__ (o_class o) ++ ": "
               ++ cls___name__ (o_class o) ++ " object>")
       | OOther name => Ok name
       | _ => Ok "<object>"
       end |}.

(** A function that computes nothing. *)
Definition nothing : Callable (R := relational) :=
  {| fn_name := "nothing"; fn_body := fun c d => (Ok CNone, c, d) |}.

Definition settings : Settings :=
  {| CACHE_DEBUG := false; FETCH_BY_ID := false; CACHE_COUNT_TIMEOUT := None |}.
Definition debug_settings : Settings :=
  {| CACHE_DEBUG := true; FETCH_BY_ID := false; CACHE_COUNT_TIMEOUT := Some 60%Z |}.

Definition id_field : Field := MkField "id" "id" None.

Definition Owner : ModelClass :=
  MkModelClass "app.models" "Owner"
    (MkOptions "app" "owner" (Some id_field) [id_field]) true true.

(** The same model as another process sees it, imported from another
    module path. *)
Definition OwnerElsewhere : ModelClass :=
  MkModelClass "project.app.models" "Owner"
    (MkOptions "app" "owner" (Some id_field) [id_field]) true false.

Definition Widget : ModelClass :=
  MkModelClass "app.models" "Widget"
    (MkOptions "app" "widget" (Some id_field)
       [id_field; MkField "owner" "owner_id" (Some Owner); MkField "color" "color" None])
    true true.

(** A model under a caching manager that does not inherit the mixin. *)
Definition Gadget : ModelClass :=
  MkModelClass "app.models" "Gadget"
    (MkOptions "app" "gadget" (Some id_field) [id_field]) false true.

Definition widget (id : Z) (owner : PyVal) (color : string) : Obj :=
  {| o_class := Widget;
     o_attrs := {[ "id" := PInt id; "owner_id" := owner; "color" := PStr color ]};
     from_cache := None |}.

Definition w1 : Obj := widget 1 (PInt 7) "red".
Definition w2 : Obj := widget 2 PNone "red".
Definition w3 : Obj := widget 3 (PInt 7) "blue".

Definition gadget : Obj :=
  {| o_class := Gadget; o_attrs := {[ "id" := PInt 1 ]}; from_cache := None |}.

Definition rows : list Obj := [w1; w2; w3].

Definition world0 : World := {| cache := ∅; db := rows; trace := [] |}.

(** [Widget.objects.filter(color=c)] *)
Definition by_color (c : string) : CachingQuerySet :=
  {| qs_model := Widget;
     qs_query := {| q_model := Widget;
                    q_where := WhereNode [ConstraintTuple Widget "color" "exact" [PStr c]];
                    q_low_mark := 0; q_high_mark := None; q_order_by := [];
                    q_select_related := false; q_extra := [] |};
     qs_timeout := None |}.

(** The machine [iterator] builds for a queryset when [FETCH_BY_ID] is
    off. *)
Definition machine_of (qs : CachingQuerySet) : CacheMachine :=
  {| query_string := default "" (compile (qs_query qs));
     iter_function := SuperIterator (qs_query qs);
     timeout := qs_timeout qs |}.

Definition red : CacheMachine := machine_of (by_color "red").
Definition green : CacheMachine := machine_of (by_color "green").

(** The world after [Widget.objects.filter(color="red")] has been
    iterated once: its result is cached and [color] is a watched
    column. *)
Definition world1 : World :=
  snd ((it <- CachingQuerySet.iterator (I := SpecInvalidation.invalidation)
               (S := settings) (by_color "red") ;;
        list_ (I := SpecInvalidation.invalidation) (S := settings) it) world0).

(** [Widget.objects.filter(color__in=[])], whose query does not
    compile. *)
Definition no_color : CachingQuerySet :=
  {| qs_model := Widget;
     qs_query := {| q_model := Widget;
                    q_where := WhereNode [ConstraintTuple Widget "color" "in" []];
                    q_low_mark := 0; q_high_mark := None; q_order_by := [];
                    q_select_related := false; q_extra := [] |};
     qs_timeout := None |}.

(** A function that computes a number, and one that fails. *)
Definition five : Callable (R := relational) :=
  {| fn_name := "five"; fn_body := fun c d => (Ok (CScalar (PInt 5)), c, d) |}.
Definition broken : Callable (R := relational) :=
  {| fn_name := "broken"; fn_body := fun c d => (Raise (Exception "broken"), c, d) |}.

(** A method that counts the rows of the database. *)
Definition census : Method (R := relational) :=
  {| m_name := "census";
     m_body := fun _ _ _ c d => (Ok (CScalar (PInt (Z.of_nat (length d)))), c, d) |}.

(** A formatting that puts the parameters at the end of the text, and
    the raw query for all widgets written with it. *)
Definition appending : Formatting :=
  {| str_args := @str_args formatting;
     str_kwargs := @str_kwargs formatting;
     percent := fun raw params =>
       raw ++ join "," (map (fun v => smart_unicode (KVal v)) params) |}.

Definition all_widgets : CachingRawQuerySet :=
  {| raw_query := "SELECT * FROM "; params := [PStr "m:app.widget"] |}.
Definition all_widgets' : CachingRawQuerySet :=
  {| raw_query := "SELECT * FROM m:app.widget"; params := [] |}.

(** [Gadget.objects.all()], and the machine [iterator] builds for it
    when [FETCH_BY_ID] is on. *)
Definition gadgets : CachingQuerySet :=
  {| qs_model := Gadget;
     qs_query := {| q_model := Gadget; q_where := WhereNode [];
                    q_low_mark := 0; q_high_mark := None; q_order_by := [];
                    q_select_related := false; q_extra := [] |};
     qs_timeout := None |}.

Definition gadgets_by_id : CacheMachine :=
  {| query_string := default "" (compile (qs_query gadgets));
     iter_function := FetchById gadgets;
     timeout := None |}.

(** A store that holds the two red widgets under their [byid] keys, as
    the reference invalidator derives them. *)
Definition warm : World :=
  MkWorld (R := relational)
    {[ "byid:o:app.widget:1" := CObj w1; "byid:o:app.widget:2" := CObj w2 ]}
    rows [].

Definition red_widget (pk : PyVal) : Obj :=
  match pk with
  | PInt 1 => w1
  | _ => w2
  end.

End Sample.

(** ** Vocabulary of the statements *)

Section Vocabulary.
Context {R : Relational} {I : Invalidation} {S : Settings}.

(** The nodes still to be popped from the stack of [get_constraints]. *)
Definition stack_nodes (stack : list WhereItem) : nat :=
  list_sum (map CachingQuerySet.nodes stack).

(** The world after further events, and after a change of the store. *)
Definition logged (evs : list Event) (w : World) : World :=
  {| cache := cache w; db := db w; trace := trace w ++ evs |}.

Definition stored (c : gmap string CVal) (w : World) : World :=
  {| cache := c; db := db w; trace := trace w |}.

(** The rows a started generator of an iter function still produces,
    [KeyError] if [fetch_by_id] misses one of its objects. *)
Fixpoint by_id_rows (pks : list PyVal) (objects : gmap PyVal Obj) : Result (list Obj) :=
  match pks with
  | [] => Ok []
  | pk :: pks' =>
      match objects !! pk with
      | Some o => rbind (by_id_rows pks' objects) (fun l => Ok (o :: l))
      | None => Raise KeyError
      end
  end.

Definition u_list (u : UIter) : Result (list Obj) :=
  match u with
  | URows rows => Ok rows
  | UById pks objects => by_id_rows pks objects
  | _ => Ok []
  end.

Definition started (u : UIter) : Prop :=
  match u with
  | UNew _ => False
  | _ => True
  end.

(** [list(f())]: an iter function called and exhausted on its own. *)
Definition underlying (f : IterFunction) : M (list Obj) :=
  u <- u_start f ;;
  lift (u_list u).

(** The keys a [CacheMachine] works with. *)
Definition machine_key (cm : CacheMachine) : string :=
  make_key ("qs:" ++ query_string cm) false.

Definition machine_flush (cm : CacheMachine) : string :=
  flush_key (KeyStr (query_string cm)).

(** The store after [query_key()] has recorded the SQL text. *)
Definition noted (cm : CacheMachine) (c : gmap string CVal) : gmap string CVal :=
  <["sql:" ++ machine_key cm := CScalar (PStr (query_string cm))]> c.

Definition note (cm : CacheMachine) : Event :=
  CacheSet ("sql:" ++ machine_key cm) (CScalar (PStr (query_string cm))) None.

(** The world after the [StopIteration] handler of [__iter__] has run
    with the buffer [to_cache]. *)
Definition finished (cm : CacheMachine) (to_cache : list Obj) (w : World) : World :=
  match to_cache with
  | [] => w
  | _ =>
      {| cache := inv_cache_objects to_cache (machine_key cm) (machine_flush cm)
                    (add_if_absent (machine_key cm) (CObjs to_cache) (noted cm (cache w)));
         db := db w;
         trace := trace w ++ [note cm;
                              CacheAdd (machine_key cm) (CObjs to_cache) (timeout cm);
                              CacheObjects to_cache (machine_key cm) (machine_flush cm)] |}
  end.

(** The world in which the underlying iterator of a miss starts. *)
Definition missed (cm : CacheMachine) (w : World) : World :=
  {| cache := noted cm (cache w); db := db w;
     trace := trace w ++ [note cm; CacheGet (machine_key cm);
                          IterFunctionCall (iter_function cm)] |}.

(** The world in which the replay of a hit starts. *)
Definition replaying (cm : CacheMachine) (w : World) : World :=
  {| cache := noted cm (cache w); db := db w;
     trace := trace w ++ [note cm; CacheGet (machine_key cm)]
              ++ (if CACHE_DEBUG then [LogDebug ("cache hit: " ++ query_string cm)]
                  else []) |}.

(** The events of an iter function that finds no row. *)
Definition empty_run (f : IterFunction) : list Event :=
  match f with
  | SuperIterator q => [DbExecute q]
  | RawIterator sql => [DbExecuteRaw sql]
  | FetchById qs => [DbValuesList (qs_query qs); CacheGetMany []]
  end.

(** The run of one [__iter__] on a hit: the SQL text is noted, the
    query key is read, the hit is logged in debug mode, and the stored
    items are yielded. *)
Definition hit_events (cm : CacheMachine) (l : list Obj) : list Event :=
  [note cm; CacheGet (machine_key cm)]
  ++ (if CACHE_DEBUG then [LogDebug ("cache hit: " ++ query_string cm)] else [])
  ++ map Yield (map (set_from_cache true) l).

(** The world after an execution that misses and finds no row. *)
Definition empty_execution (cm : CacheMachine) (w : World) : World :=
  logged (empty_run (iter_function cm)) (missed cm w).

(** How often a trace calls an iter function. *)
Definition iter_calls (t : list Event) : nat :=
  length (List.filter (fun e => match e with IterFunctionCall _ => true | _ => false end) t).

(** [n] executions of the same computation, one after the other. *)
Fixpoint times {A} (n : nat) (m : M A) : M (list A) :=
  match n with
  | 0 => ret []
  | Datatypes.S n' =>
      a <- m ;;
      rest <- times n' m ;;
      ret (a :: rest)
  end.

(** An event that calls the relational layer. *)
Definition relational (e : Event) : bool :=
  match e with
  | IterFunctionCall _ | DbExecute _ | DbExecuteRaw _ | DbValuesList _ => true
  | _ => false
  end.

(** An event that invalidates: a flush through the invalidator, a
    deletion from the store, or the clearing of the flush lists. *)
Definition invalidating (e : Event) : bool :=
  match e with
  | InvalidateKeys _ | CacheDelete _ | Clear => true
  | _ => false
  end.

(** An event that reads or writes a value of the cache store. *)
Definition cache_access (e : Event) : bool :=
  match e with
  | CacheGet _ | CacheSet _ _ _ | CacheAdd _ _ _ | CacheDelete _
  | CacheGetMany _ | CacheSetMany _ => true
  | _ => false
  end.

(** How often a trace calls the function named [name]. *)
Definition calls (name : string) (t : list Event) : nat :=
  length (List.filter (fun e => match e with
                                | FunctionCall n => String.eqb n name
                                | _ => false
                                end) t).

(** The world after [invalidator.add_to_flush_list(mapping)]. *)
Definition registered (mapping : gmap string (gset string)) (w : World) : World :=
  {| cache := inv_add_to_flush_list mapping (cache w); db := db w;
     trace := trace w ++ [AddToFlushList mapping] |}.

(** The key and the flush key of an object that has an identity: a
    queryset whose query compiles, or an instance with a cache key. *)
Definition identity (obj : PyObject) : option (string * string) :=
  match obj with
  | OQuerySet qs =>
      match as_sql (qs_query qs) with
      | Some k => Some (k, flush_key (KeyStr k))
      | None => None
      end
  | OInstance o =>
      match cache_key o with
      | Ok k => Some (k, flush_key (KeyObj o))
      | Raise _ => None
      end
  | _ => None
  end.

(** The world after [invalidate_model] on a manager of [cls]. *)
Definition model_invalidated (cls : ModelClass) (w : World) : World :=
  {| cache := delete ("cols:" ++ _model_key cls)
                (inv_invalidate_keys [_model_key cls] (cache w));
     db := db w;
     trace := trace w
              ++ (if CACHE_DEBUG
                  then [LogDebug ("Invalidating model " ++ string_from 2 (_model_key cls))]
                  else [])
              ++ [InvalidateKeys [_model_key cls];
                  CacheDelete ("cols:" ++ _model_key cls)] |}.

(** The world after [pre_save] has fetched the persisted record with
    the query [lookup] and asked for the watched columns of [cls]. *)
Definition compared (cls : ModelClass) (lookup : CachingQuerySet) (w : World) : World :=
  logged [IterFunctionCall (SuperIterator (qs_query lookup));
          DbExecute (qs_query lookup);
          GetFlushLists ["cols:" ++ _model_key cls]]
    (registered (CachingQuerySet.get_constraints lookup) w).

(** The constraint tuples the loop of [get_constraints] can meet: those
    among the children of the root and of the nodes nested below it,
    each with the model and the name of its field. *)
Fixpoint tuples (w : WhereItem) : list (ModelClass * string) :=
  match w with
  | WhereNode cs =>
      concat (map (fun c => match c with
                            | ConstraintTuple m n _ _ => [(m, n)]
                            | _ => tuples c
                            end) cs)
  | _ => []
  end.

(** The column [name] of [model] is one that [get_constraints] records,
    and [key] is where it records it: the model derives keys and the
    column is not its primary key. *)
Definition watches (model : ModelClass) (name key : string) : Prop :=
  cls_mixin model = true
  /\ CachingQuerySet.is_pk_name model name = false
  /\ key = "cols:" ++ _model_key model.

(** The columns a constraint mapping holds under [key]. *)
Definition columns (constraints : gmap string (gset string)) (key : string) :
    gset string :=
  default ∅ (constraints !! key).

(** At most [n] calls of [next], as a caller makes who stops early:
    the items received and the iterator as it is left. *)
Fixpoint pull (n : nat) (it : Iter) : M (list Obj * Iter) :=
  match n with
  | 0 => ret ([], it)
  | Datatypes.S n' =>
      r <- next it ;;
      match r with
      | (None, it') => ret ([], it')
      | (Some obj, it') =>
          r' <- pull n' it' ;;
          ret (obj :: r'.1, r'.2)
      end
  end.

(** The keys gathered from the objects that have [_cache_keys], in the
    order of the objects. *)
Definition keys_of (objects : list Obj) : Result (list string) :=
  rbind (CachingQuerySet.mapR _cache_keys
           (List.filter (fun o => cls_mixin (o_class o)) objects))
        (fun kss => Ok (concat kss)).

Definition colon : Ascii.ascii := Ascii.Ascii false true false true true true false false.

(** The character [c] occurs in the string [s]. *)
Fixpoint occurs (c : Ascii.ascii) (s : string) : bool :=
  match s with
  | EmptyString => false
  | String a s' => Ascii.eqb a c || occurs c s'
  end.

(** The comparison [pre_save] makes for one watched column. *)
Definition differs (orig instance : Obj) (col : string) : bool :=
  hasattr orig col && hasattr instance col
  && py_ne (getattr orig col) (getattr instance col).

End Vocabulary.

(** * Properties *)

(** ** Strings and keys *)

Lemma append_cons (a : Ascii.ascii) (s t : string) :
  String a s ++ t = String a (s ++ t).
Proof. reflexivity. Qed.

Lemma length_append (s t : string) :
  String.length (s ++ t) = String.length s + String.length t.
Proof.
  induction s as [|a s IH]; [done |].
  rewrite append_cons. simpl. by rewrite IH.
Qed.

Lemma append_assoc (s t u : string) : (s ++ t) ++ u = s ++ t ++ u.
Proof.
  induction s as [|a s IH]; [done |].
  rewrite !append_cons. by rewrite IH.
Qed.

(** A key never equals itself under a non-empty prefix: the entries
    [sql:<key>] and [<key>] are distinct. *)
Lemma prefixed_ne (p k : string) : p <> "" -> p ++ k <> k.
Proof.
  intros Hp Heq. apply (f_equal String.length) in Heq.
  rewrite length_append in Heq. destruct p; [done | simpl in Heq; lia].
Qed.

Lemma sql_key_ne (k : string) : "sql:" ++ k <> k.
Proof. by apply prefixed_ne. Qed.

Lemma join3 (sep a b c : string) : join sep [a; b; c] = a ++ sep ++ b ++ sep ++ c.
Proof. reflexivity. Qed.

Lemma join2 (sep a b : string) : join sep [a; b] = a ++ sep ++ b.
Proof. reflexivity. Qed.

(** C7. For every record class and primary key value, [_cache_key]
    returns [o:<class>:<pk>] and [_model_key] returns [m:<class>],
    where [<class>] is the label [app_label.module_name] of the class
    and [<pk>] the text of the primary key.  Both are functions of that
    label and of the primary key alone: they read no state, so equal
    inputs give identical strings at every call and in every process. *)
Theorem key_derivation_canonical (cls : ModelClass) (pk : PyVal) :
  _cache_key cls pk
    = "o:" ++ meta_app_label (cls__meta cls) ++ "." ++ meta_module_name (cls__meta cls)
      ++ ":" ++ smart_unicode (KVal pk)
  /\ _model_key cls
    = "m:" ++ meta_app_label (cls__meta cls) ++ "." ++ meta_module_name (cls__meta cls)
  /\ (forall (cls' : ModelClass) (pk' : PyVal),
        meta_app_label (cls__meta cls') = meta_app_label (cls__meta cls) ->
        meta_module_name (cls__meta cls') = meta_module_name (cls__meta cls) ->
        pk' = pk ->
        _cache_key cls' pk' = _cache_key cls pk /\ _model_key cls' = _model_key cls).
Proof.
  assert (Hjoin : forall c p, _cache_key c p
            = "o:" ++ meta_app_label (cls__meta c) ++ "." ++ meta_module_name (cls__meta c)
              ++ ":" ++ smart_unicode (KVal p)).
  { intros c p. unfold _cache_key. cbv zeta. cbn [map]. rewrite join3.
    cbn [smart_unicode]. by rewrite !append_assoc. }
  assert (Hmodel : forall c, _model_key c
            = "m:" ++ meta_app_label (cls__meta c) ++ "." ++ meta_module_name (cls__meta c)).
  { intros c. unfold _model_key. cbv zeta. cbn [map]. rewrite join2.
    by cbn [smart_unicode]. }
  split; [apply Hjoin |]. split; [apply Hmodel |].
  intros cls' pk' Ha Hm ->. rewrite !Hjoin, !Hmodel, Ha, Hm. done.
Qed.

Lemma key_derivation_canonical_witness :
  _cache_key Sample.OwnerElsewhere (PInt 7) = _cache_key Sample.Owner (PInt 7)
  /\ _model_key Sample.OwnerElsewhere = _model_key Sample.Owner.
Proof.
  apply (key_derivation_canonical Sample.Owner (PInt 7)); reflexivity.
Defined.

(** ** Constraint discovery *)

Section Constraints.
Context {R : Relational} {I : Invalidation} {S : Settings}.

Lemma stack_nodes_cons (x : WhereItem) (stack : list WhereItem) :
  stack_nodes (x :: stack) = CachingQuerySet.nodes x + stack_nodes stack.
Proof. reflexivity. Qed.

Lemma nodes_node (cs : list WhereItem) :
  CachingQuerySet.nodes (WhereNode cs) = Datatypes.S (stack_nodes cs).
Proof. reflexivity. Qed.

(** A round pushes the nested nodes among the children and nothing
    else. *)
Lemma visit_items (items : list WhereItem) :
  forall (stack : list WhereItem) (constraints : gmap string (gset string)),
    Forall (fun x => 0 < CachingQuerySet.nodes x) stack ->
    let st := foldl CachingQuerySet.visit_item (stack, constraints) items in
    stack_nodes st.1 = stack_nodes items + stack_nodes stack
    /\ Forall (fun x => 0 < CachingQuerySet.nodes x) st.1.
Proof.
  induction items as [|item items IH]; intros stack constraints Hpos; [done |].
  cbn [foldl]. destruct item as [cs | model name lookup_type value |].
  - cbn [CachingQuerySet.visit_item].
    destruct (IH (WhereNode cs :: stack) constraints) as [Hsum Hall].
    { constructor; [rewrite nodes_node; lia | done]. }
    split; [| done]. rewrite Hsum, !stack_nodes_cons. lia.
  - cbn [CachingQuerySet.visit_item]. rewrite stack_nodes_cons.
    change (CachingQuerySet.nodes (ConstraintTuple model name lookup_type value))
      with 0.
    destruct (negb (cls_mixin model)); [by apply IH |].
    destruct (CachingQuerySet.is_pk_name model name); by apply IH.
  - rewrite stack_nodes_cons. by apply IH.
Qed.

(** With as much fuel as the stack has nodes the loop runs until the
    stack is empty: more fuel changes nothing. *)
Lemma walk_enough (fuel : nat) :
  forall (stack : list WhereItem) (constraints : gmap string (gset string)) (k : nat),
    Forall (fun x => 0 < CachingQuerySet.nodes x) stack ->
    stack_nodes stack <= fuel ->
    CachingQuerySet.walk (fuel + k) stack constraints
    = CachingQuerySet.walk fuel stack constraints.
Proof.
  induction fuel as [|fuel IH]; intros stack constraints k Hpos Hle.
  - destruct stack as [|x stack]; [by destruct k |].
    apply Forall_cons in Hpos as [Hx _]. rewrite stack_nodes_cons in Hle. lia.
  - destruct stack as [|curr stack]; [done |].
    apply Forall_cons in Hpos as [Hcurr Hpos].
    cbn [Nat.add CachingQuerySet.walk].
    destruct (visit_items (CachingQuerySet.children curr) stack constraints Hpos)
      as [Hsum Hall].
    destruct (foldl CachingQuerySet.visit_item (stack, constraints)
                (CachingQuerySet.children curr)) as [stack' constraints'].
    cbn [fst] in Hsum, Hall. apply IH; [done |].
    rewrite Hsum. rewrite stack_nodes_cons in Hle.
    destruct curr as [cs | |]; [| cbn in Hcurr; lia | cbn in Hcurr; lia].
    rewrite nodes_node in Hle. cbn [CachingQuerySet.children]. lia.
Qed.

(** [get_constraints] is the result of the loop run to its end. *)
Lemma get_constraints_total (self : CachingQuerySet) (k : nat) :
  CachingQuerySet.walk (Datatypes.S (CachingQuerySet.nodes (q_where (qs_query self))) + k)
    [q_where (qs_query self)] ∅
  = CachingQuerySet.get_constraints self.
Proof.
  unfold CachingQuerySet.get_constraints.
  destruct (q_where (qs_query self)) as [cs | model name lookup_type value |] eqn:Hw.
  - apply walk_enough.
    + constructor; [rewrite nodes_node; lia | constructor].
    + rewrite stack_nodes_cons. change (stack_nodes []) with 0. lia.
  - by destruct k.
  - by destruct k.
Qed.

End Constraints.

(** The query [filter(color="red")] watches the column [color] of
    [Widget]. *)
Example get_constraints_by_color :
  CachingQuerySet.get_constraints (Sample.by_color "red")
  = {[ "cols:m:app.widget" := {[ "color" ]} ]}.
Proof. vm_compute. reflexivity. Qed.

(** ** The mutation hooks *)

Section Hooks.
Context {R : Relational} {I : Invalidation} {S : Settings}.

Lemma fk_cache_keys_spec (self : Obj) (fs : list Field) (keys : list string) :
  fk_cache_keys self fs = Ok keys ->
  forall k, k ∈ keys <->
    exists f to val,
      f ∈ fs /\ field_rel_to f = Some to
      /\ getattr self (field_attname f) = Some val
      /\ val <> PNone /\ cls_mixin to = true /\ k = _cache_key to val.
Proof.
  revert keys. induction fs as [|f fs IH]; intros keys Hk k.
  - injection Hk as <-. split.
    + intros Hin. by apply elem_of_nil in Hin.
    + intros (f & to & val & Hin & _). by apply elem_of_nil in Hin.
  - cbn [fk_cache_keys] in Hk.
    destruct (field_rel_to f) as [to|] eqn:Hrel.
    + unfold attr in Hk.
      destruct (getattr self (field_attname f)) as [val|] eqn:Hval; [| done].
      cbn [of_option rbind] in Hk.
      destruct (fk_cache_keys self fs) as [keys'|] eqn:Hrest; [| done].
      cbn [rbind] in Hk. specialize (IH keys' eq_refl k).
      destruct (bool_decide (val <> PNone) && cls_mixin to) eqn:Hcond;
        injection Hk as <-.
      * apply andb_true_iff in Hcond as [Hne Hmix]. apply bool_decide_eq_true in Hne.
        rewrite elem_of_cons, IH. split.
        -- intros [-> | (f' & to' & val' & Hin & Hr)].
           ++ exists f, to, val. rewrite elem_of_cons. naive_solver.
           ++ exists f', to', val'. rewrite elem_of_cons. naive_solver.
        -- intros (f' & to' & val' & Hin & Hr & Hv & Hn & Hm & ->).
           apply elem_of_cons in Hin as [-> | Hin].
           ++ left. congruence.
           ++ right. naive_solver.
      * rewrite IH. split.
        -- intros (f' & to' & val' & Hin & Hr). exists f', to', val'.
           rewrite elem_of_cons. naive_solver.
        -- intros (f' & to' & val' & Hin & Hr & Hv & Hn & Hm & ->).
           apply elem_of_cons in Hin as [-> | Hin]; [| naive_solver].
           exfalso. rewrite Hrel in Hr. injection Hr as <-.
           rewrite Hval in Hv. injection Hv as <-.
           apply andb_false_iff in Hcond as [Hc | Hc]; [| congruence].
           apply bool_decide_eq_false in Hc. done.
    + rewrite (IH keys Hk k). split.
      * intros (f' & to' & val' & Hin & Hr). exists f', to', val'.
        rewrite elem_of_cons. naive_solver.
      * intros (f' & to' & val' & Hin & Hr & Hrest).
        apply elem_of_cons in Hin as [-> | Hin]; [congruence | naive_solver].
Qed.

(** [_cache_keys] is the record's own key followed by the keys of the
    records it references. *)
Lemma _cache_keys_spec (self : Obj) (keys : list string) :
  _cache_keys self = Ok keys ->
  exists own rest,
    cache_key self = Ok own /\ keys = own :: rest
    /\ forall k, k ∈ rest <-> references self k.
Proof.
  unfold _cache_keys. intros Hk.
  destruct (fk_cache_keys self _) as [rest|] eqn:Hrest; [| done].
  cbn [rbind] in Hk. destruct (cache_key self) as [own|]; [| done].
  injection Hk as <-. exists own, rest. split; [done |]. split; [done |].
  intros k. apply (fk_cache_keys_spec _ _ _ Hrest).
Qed.

Lemma invalidate_one (self : CachingManager) (instance : Obj)
    (keys : list string) (w : World) :
  cls_mixin (o_class instance) = true ->
  _cache_keys instance = Ok keys ->
  CachingManager.invalidate self [instance] w
  = (Ok tt, {| cache := inv_invalidate_keys keys (cache w); db := db w;
               trace := trace w ++ [InvalidateKeys keys] |}).
Proof.
  intros Hmix Hkeys.
  destruct (_cache_keys_spec _ _ Hkeys) as (own & rest & _ & -> & _).
  unfold CachingManager.invalidate, bind, lift. cbn [CachingManager.gather_keys].
  rewrite Hmix, Hkeys. cbn [rbind]. rewrite app_nil_r. reflexivity.
Qed.

(** C5. The after-create, after-update and after-delete hooks
    invalidate the keys [_cache_keys] returns: the record's own cache
    key and the cache key of every record it references through a
    foreign key that is not [None] (a referenced class has a cache key
    when it derives them).  After a create, [post_save] then calls
    [invalidator.clear()], which takes no argument: the whole store goes
    through it, not the entries of the created record. *)
Theorem post_hooks_invalidate (self : CachingManager) (instance : Obj)
    (keys : list string) (created : bool) (w : World) :
  cls_mixin (o_class instance) = true ->
  _cache_keys instance = Ok keys ->
  (exists own rest,
      cache_key instance = Ok own /\ keys = own :: rest
      /\ forall k, k ∈ rest <-> references instance k)
  /\ CachingManager.post_save self instance created w
     = (Ok tt,
        {| cache := (if created then inv_clear (inv_invalidate_keys keys (cache w))
                     else inv_invalidate_keys keys (cache w));
           db := db w;
           trace := trace w ++ InvalidateKeys keys :: (if created then [Clear] else []) |})
  /\ CachingManager.post_delete self instance w
     = (Ok tt,
        {| cache := inv_invalidate_keys keys (cache w); db := db w;
           trace := trace w ++ [InvalidateKeys keys] |}).
Proof.
  intros Hmix Hkeys. split; [by apply _cache_keys_spec |]. split.
  - unfold CachingManager.post_save, bind.
    rewrite (invalidate_one _ _ _ _ Hmix Hkeys).
    destruct created; [| reflexivity].
    unfold clear, bind, emit, update_cache. cbn.
    by rewrite <- app_assoc.
  - unfold CachingManager.post_delete. by apply invalidate_one.
Qed.

End Hooks.

Lemma post_hooks_invalidate_witness :
  CachingManager.post_save (R := Sample.relational) (I := SpecInvalidation.invalidation)
    (MkManager Sample.Widget) Sample.w1 true Sample.world0
  = (Ok tt,
     MkWorld (R := Sample.relational)
       (SpecInvalidation.clear
          (SpecInvalidation.invalidate_keys ["o:app.widget:1"; "o:app.owner:7"] ∅))
       Sample.rows
       [InvalidateKeys ["o:app.widget:1"; "o:app.owner:7"]; Clear]).
Proof.
  apply (post_hooks_invalidate (R := Sample.relational)
           (I := SpecInvalidation.invalidation)
           (MkManager Sample.Widget) Sample.w1
           ["o:app.widget:1"; "o:app.owner:7"] true Sample.world0);
    reflexivity.
Defined.

(** ** The participation check *)

Section Participation.
Context {R : Relational} {I : Invalidation} {S : Settings}.

(** For a model without the mixin the first statement of
    [invalidate_model], the call of [self.model._model_key()], already
    raises: the test [hasattr(self.model, '_model_key')] three lines
    below and its exception are never reached. *)
Lemma invalidate_model_without_mixin (self : CachingManager) (w : World) :
  cls_mixin (model self) = false ->
  CachingManager.invalidate_model self w = (Raise AttributeError, w).
Proof.
  intros Hmix. unfold CachingManager.invalidate_model, bind. by rewrite Hmix.
Qed.

(** C9, as amended.  Attaching the manager raises nothing, whatever the
    record type: [contribute_to_class] connects the four signal
    handlers and defers to the base manager.  The failure comes at use:
    for a model without [_model_key], [invalidate_model] raises before
    it logs, calls the invalidator or deletes anything. *)
Theorem participation_checked_at_use (self : CachingManager) (cls : ModelClass)
    (name : string) (w : World) :
  CachingManager.contribute_to_class self cls name w
  = (Ok tt,
     {| cache := cache w; db := db w;
        trace := trace w ++ [SignalConnect "pre_save" (Some cls);
                             SignalConnect "post_save" (Some cls);
                             SignalConnect "post_delete" (Some cls);
                             SignalConnect "m2m_changed" None;
                             SuperContributeToClass cls name] |})
  /\ (cls_mixin (model self) = false ->
      exists e, CachingManager.invalidate_model self w = (Raise e, w)).
Proof.
  split.
  - unfold CachingManager.contribute_to_class, bind, emit. cbn.
    by rewrite <- !app_assoc.
  - intros Hmix. exists AttributeError. by apply invalidate_model_without_mixin.
Qed.

End Participation.

Lemma participation_checked_at_use_witness :
  exists e,
    CachingManager.invalidate_model (R := Sample.relational)
      (I := SpecInvalidation.invalidation) (S := Sample.debug_settings)
      (MkManager Sample.Gadget) Sample.world0
    = (Raise e, Sample.world0).
Proof.
  apply (participation_checked_at_use (R := Sample.relational)
           (I := SpecInvalidation.invalidation) (S := Sample.debug_settings)
           (MkManager Sample.Gadget) Sample.Gadget "objects" Sample.world0).
  reflexivity.
Defined.

(** C9 as stated fails: a manager is attached to [Gadget], which lacks
    the mixin, without any error, and [invalidate_model] then raises
    [AttributeError] at its first statement, not the exception that
    names [CachingMixIn]. *)
Lemma participation_not_eager :
  let self := MkManager Sample.Gadget in
  fst (CachingManager.contribute_to_class (R := Sample.relational) self
         Sample.Gadget "objects" Sample.world0) = Ok tt
  /\ fst (CachingManager.invalidate_model (R := Sample.relational)
            (I := SpecInvalidation.invalidation) (S := Sample.settings)
            self Sample.world0) = Raise AttributeError
  /\ fst (CachingManager.invalidate_model (R := Sample.relational)
            (I := SpecInvalidation.invalidation) (S := Sample.settings)
            self Sample.world0)
     <> Raise (Exception
          "The model Manager of app.models.Gadget uses caching, but the model does not. Needs CachingMixIn.").
Proof. cbv zeta. split; [reflexivity |]. split; [reflexivity | discriminate]. Qed.

(** ** Memoization without identity *)

Section NoIdentity.
Context {R : Relational} {I : Invalidation} {S : Settings} {Pr : Printing}.

(** The handler of [AttributeError]: the warning text is built first,
    then the warning is logged and [f] called. *)
Lemma cached_with_fallback (obj : PyObject) (f : Callable)
    (f_key : string) (tmo : option Z) (w : World) :
  has_query_key obj = false ->
  has_cache_key obj = false ->
  cached_with obj f f_key tmo w
  = match cannot_be_cached obj with
    | Ok msg =>
        let '(r, c, d) := fn_body f (cache w) (db w) in
        (r, {| cache := c; db := d;
               trace := trace w ++ [LogWarning msg; FunctionCall (fn_name f)] |})
    | Raise e => (Raise e, w)
    end.
Proof.
  intros Hq Hc.
  assert (Hkey : object_key obj w = (Raise AttributeError, w)).
  { destruct obj as [qs | o | cm | r | items]; try done.
    cbn in Hc. unfold object_key, lift, cache_key. by rewrite Hc. }
  unfold cached_with, bind, try_except. rewrite Hkey. cbn.
  unfold lift. destruct (cannot_be_cached obj) as [msg|e]; [| done]. cbn.
  destruct (fn_body f (cache w) (db w)) as [[r c] d].
  by rewrite <- app_assoc.
Qed.

(** C8.  The claim fails on the code.  The handler builds its warning
    with [u'%r cannot be cached.' % obj], and a tuple on the right of
    [%] is taken for the list of arguments.  So for the empty tuple,
    and for every tuple of two or more items, which have neither
    [query_key] nor [cache_key], [cached_with] raises [TypeError] to
    its caller: no warning is logged, [f] is not called, and the world
    is as it was. *)
Theorem cached_with_fails_on_tuple (f : Callable) (f_key : string)
    (tmo : option Z) (w : World) :
  cached_with (OTuple []) f f_key tmo w = (Raise TypeError, w)
  /\ forall (x y : PyObject) (rest : list PyObject),
       cached_with (OTuple (x :: y :: rest)) f f_key tmo w = (Raise TypeError, w).
Proof.
  split; [| intros x y rest]; by rewrite cached_with_fallback.
Qed.


End NoIdentity.


(** ** The generator of [CacheMachine] *)

Section MachineFacts.
Context {R : Relational} {I : Invalidation} {S : Settings}.

Lemma logged_app (evs1 evs2 : list Event) (w : World) :
  logged evs2 (logged evs1 w) = logged (evs1 ++ evs2) w.
Proof. unfold logged. cbn. by rewrite app_assoc. Qed.

Lemma logged_nil (w : World) : logged [] w = w.
Proof. destruct w. unfold logged. cbn. by rewrite app_nil_r. Qed.

Lemma u_next_started (u : UIter) (w : World) :
  started u -> u_next u w = (u_pull u, w).
Proof. by destruct u. Qed.

Lemma u_pull_cons (u : UIter) (o : Obj) (rest : list Obj) :
  started u -> u_list u = Ok (o :: rest) ->
  exists u', u_pull u = Ok (Some o, u') /\ started u' /\ u_list u' = Ok rest.
Proof.
  destruct u as [f | rows | pks objects |]; try done.
  - intros _ [= ->]. by exists (URows rest).
  - intros _. destruct pks as [|pk pks]; [done |]. cbn.
    destruct (objects !! pk) as [o'|]; [| done].
    destruct (by_id_rows pks objects) as [l|] eqn:Hl; [| done].
    intros [= -> ->]. by exists (UById pks objects).
Qed.

Lemma u_pull_nil (u : UIter) :
  started u -> u_list u = Ok [] -> u_pull u = Ok (None, UDone).
Proof.
  destruct u as [f | rows | pks objects |]; try done.
  - by intros _ [= ->].
  - intros _. destruct pks as [|pk pks]; [done |]. cbn.
    destruct (objects !! pk) as [o'|]; [| done].
    by destruct (by_id_rows pks objects).
Qed.

Lemma u_remaining_list (u : UIter) (rows : list Obj) :
  started u -> u_list u = Ok rows -> u_remaining u = length rows.
Proof.
  destruct u as [f | rows' | pks objects |]; try done.
  - by intros _ [= ->].
  - intros _. cbn. revert rows. induction pks as [|pk pks IH]; intros rows.
    + by intros [= <-].
    + cbn. destruct (objects !! pk) as [o'|]; [| done].
      destruct (by_id_rows pks objects) as [l|]; [| done].
      intros [= <-]. cbn. by rewrite (IH l).
  - by intros _ [= <-].
Qed.

(** A round of the miss loop that receives a row: the row is tagged,
    appended to the buffer and yielded; the store is not touched. *)
Lemma fetch_yield (cm : CacheMachine) (u u' : UIter) (o : Obj)
    (to_cache : list Obj) (w : World) :
  started u -> u_pull u = Ok (Some o, u') ->
  CacheMachine.fetch cm u to_cache w
  = (Ok (Some (set_from_cache false o),
         GMiss u' (to_cache ++ [set_from_cache false o])),
     logged [Yield (set_from_cache false o)] w).
Proof.
  intros Hs Hp. unfold CacheMachine.fetch, bind.
  rewrite (u_next_started _ _ Hs), Hp. reflexivity.
Qed.

(** The round in which the underlying iterator is exhausted: a
    non-empty buffer is written with [cache.add] and then registered;
    an empty one leaves the world as it is. *)
Lemma fetch_stop (cm : CacheMachine) (u u' : UIter) (to_cache : list Obj) (w : World) :
  started u -> u_pull u = Ok (None, u') ->
  CacheMachine.fetch cm u to_cache w = (Ok (None, GDone), finished cm to_cache w).
Proof.
  intros Hs Hp. unfold CacheMachine.fetch, bind.
  rewrite (u_next_started _ _ Hs), Hp.
  destruct to_cache as [|o tc]; [reflexivity |].
  unfold finished, CacheMachine.cache_objects, CacheMachine.query_key,
    cache_objects, cache_add, cache_set, bind, emit, update_cache, ret. cbn.
  by rewrite <- !app_assoc.
Qed.

Lemma next_machine (cm : CacheMachine) (g : GenState) (w : World) :
  next (IterMachine cm g) w
  = match CacheMachine.__iter__ cm g w with
    | (Ok r, w') => (Ok (r.1, IterMachine cm r.2), w')
    | (Raise e, w') => (Raise e, w')
    end.
Proof. reflexivity. Qed.

Lemma collect_step (fuel : nat) (it : Iter) (w : World) :
  collect (Datatypes.S fuel) it w
  = match next it w with
    | (Ok (Some obj, it'), w') =>
        match collect fuel it' w' with
        | (Ok rest, w'') => (Ok (obj :: rest), w'')
        | (Raise e, w'') => (Raise e, w'')
        end
    | (Ok (None, _), w') => (Ok [], w')
    | (Raise e, w') => (Raise e, w')
    end.
Proof.
  cbn [collect]. unfold bind at 1.
  destruct (next it w) as [[[[obj|] it']|e] w']; reflexivity.
Qed.

Lemma collect_miss (cm : CacheMachine) (rows : list Obj) :
  forall (u : UIter) (to_cache : list Obj) (w : World) (fuel : nat),
    started u -> u_list u = Ok rows -> length rows < fuel ->
    collect fuel (IterMachine cm (GMiss u to_cache)) w
    = (Ok (map (set_from_cache false) rows),
       finished cm (to_cache ++ map (set_from_cache false) rows)
         (logged (map Yield (map (set_from_cache false) rows)) w)).
Proof.
  induction rows as [|o rows IH]; intros u to_cache w fuel Hs Hl Hfuel.
  - destruct fuel as [|fuel]; [cbn in Hfuel; lia |].
    rewrite collect_step, next_machine. cbn [CacheMachine.__iter__].
    rewrite (fetch_stop cm u UDone to_cache w Hs (u_pull_nil u Hs Hl)).
    cbn. by rewrite app_nil_r, logged_nil.
  - destruct fuel as [|fuel]; [cbn in Hfuel; lia |].
    destruct (u_pull_cons u o rows Hs Hl) as (u' & Hp & Hs' & Hl').
    rewrite collect_step, next_machine. cbn [CacheMachine.__iter__].
    rewrite (fetch_yield cm u u' o to_cache w Hs Hp). cbn [fst snd].
    rewrite (IH u' _ _ fuel Hs' Hl'); [| cbn in Hfuel; lia].
    cbn [map]. rewrite logged_app, <- app_assoc. reflexivity.
Qed.

Lemma collect_hit (cm : CacheMachine) (l : list Obj) :
  forall (w : World) (fuel : nat),
    length l < fuel ->
    collect fuel (IterMachine cm (GHit l)) w
    = (Ok (map (set_from_cache true) l),
       logged (map Yield (map (set_from_cache true) l)) w).
Proof.
  induction l as [|o l IH]; intros w fuel Hfuel.
  - destruct fuel as [|fuel]; [cbn in Hfuel; lia |].
    cbn. by rewrite logged_nil.
  - destruct fuel as [|fuel]; [cbn in Hfuel; lia |].
    rewrite collect_step, next_machine.
    change (CacheMachine.__iter__ cm (GHit (o :: l)) w)
      with (Ok (Some (set_from_cache true o), GHit l),
            logged [Yield (set_from_cache true o)] w).
    cbn [fst snd]. rewrite IH; [| cbn in Hfuel; lia].
    cbn [map]. by rewrite logged_app.
Qed.

Lemma lookup_noted (cm : CacheMachine) (c : gmap string CVal) :
  noted cm c !! machine_key cm = c !! machine_key cm.
Proof. unfold noted. apply lookup_insert_ne, sql_key_ne. Qed.

Lemma lookup_default_noted (cm : CacheMachine) (c : gmap string CVal) :
  lookup_default (machine_key cm) (noted cm c) = lookup_default (machine_key cm) c.
Proof. unfold lookup_default. by rewrite lookup_noted. Qed.

Lemma bind_ok {A B} (m : M A) (k : A -> M B) (w w' : World) (b : B) :
  bind m k w = (Ok b, w') ->
  exists a w1, m w = (Ok a, w1) /\ k a w1 = (Ok b, w').
Proof.
  unfold bind. destruct (m w) as [[a|e] w1]; [| done]. intros H. by exists a, w1.
Qed.

Lemma bind_same {A B} (m1 m2 : M A) (k : A -> M B) (w1 w2 : World) :
  m1 w1 = m2 w2 -> bind m1 k w1 = bind m2 k w2.
Proof. unfold bind. by intros ->. Qed.

Lemma fetch_by_id_started (qs : CachingQuerySet) (w w' : World) (u : UIter) :
  CachingQuerySet.fetch_by_id qs w = (Ok u, w') ->
  exists objects, u = UById (values_list_pk (qs_query qs) (db w)) objects.
Proof.
  unfold CachingQuerySet.fetch_by_id. intros H.
  apply bind_ok in H as (? & w1 & H1 & H). injection H1 as _ <-.
  apply bind_ok in H as (d & w2 & H2 & H). injection H2 as <- <-.
  apply bind_ok in H as (? & ? & _ & H).
  apply bind_ok in H as (? & ? & _ & H).
  apply bind_ok in H as (? & ? & _ & H).
  apply bind_ok in H as (found & ? & _ & H).
  injection H as <- _. by eexists.
Qed.

Lemma u_start_started (f : IterFunction) (w w' : World) (u : UIter) :
  u_start f w = (Ok u, w') -> started u.
Proof.
  destruct f as [q | qs | sql].
  - by intros [= <- _].
  - intros H. by destruct (fetch_by_id_started _ _ _ _ H) as [objects ->].
  - by intros [= <- _].
Qed.

Lemma underlying_inv (f : IterFunction) (w w' : World) (rows : list Obj) :
  underlying f w = (Ok rows, w') ->
  exists u, u_start f w = (Ok u, w') /\ started u /\ u_list u = Ok rows.
Proof.
  unfold underlying. intros H. apply bind_ok in H as (u & w1 & Hs & H).
  unfold lift in H. injection H as Hl <-. exists u.
  split; [done |]. split; [by eapply u_start_started | done].
Qed.

Lemma fetch_new (cm : CacheMachine) (f : IterFunction) (u : UIter)
    (to_cache : list Obj) (w w' : World) :
  u_start f w = (Ok u, w') -> started u ->
  CacheMachine.fetch cm (UNew f) to_cache w = CacheMachine.fetch cm u to_cache w'.
Proof.
  intros Hu Hs. unfold CacheMachine.fetch. apply bind_same.
  cbn [u_next]. unfold bind, lift. by rewrite Hu, (u_next_started _ _ Hs).
Qed.

(** The first statements of [__iter__] on a hit and on a miss. *)
Lemma start_hit (cm : CacheMachine) (l : list Obj) (w : World) :
  lookup_default (machine_key cm) (cache w) = CObjs l ->
  CacheMachine.__iter__ cm GStart w = CacheMachine.replay l (replaying cm w).
Proof.
  intros Hl. unfold CacheMachine.__iter__, try_except, CacheMachine.query_key,
    cache_set, cache_get, read_cache, log_debug, bind, emit, update_cache, ret.
  cbn [cache db trace]. fold (machine_key cm). fold (noted cm (cache w)).
  rewrite lookup_default_noted, Hl. cbn [is_none negb].
  unfold replaying, note. destruct CACHE_DEBUG; cbn; by rewrite <- !app_assoc.
Qed.

Lemma start_miss (cm : CacheMachine) (w : World) :
  is_none (lookup_default (machine_key cm) (cache w)) = true ->
  CacheMachine.__iter__ cm GStart w
  = CacheMachine.fetch cm (UNew (iter_function cm)) [] (missed cm w).
Proof.
  intros Hn. unfold CacheMachine.__iter__, try_except, CacheMachine.query_key,
    cache_set, cache_get, read_cache, bind, emit, update_cache, ret.
  cbn [cache db trace]. fold (machine_key cm). fold (noted cm (cache w)).
  rewrite lookup_default_noted, Hn. cbn [negb].
  unfold missed, note. cbn [cache db trace]. by rewrite <- !app_assoc.
Qed.

(** A whole execution on a hit. *)
Lemma list_hit (cm : CacheMachine) (l : list Obj) (w : World) :
  lookup_default (machine_key cm) (cache w) = CObjs l ->
  list_ (IterMachine cm GStart) w
  = (Ok (map (set_from_cache true) l),
     logged (map Yield (map (set_from_cache true) l)) (replaying cm w)).
Proof.
  intros Hl. unfold list_. unfold bind at 1.
  rewrite next_machine, (start_hit cm l w Hl).
  destruct l as [|o l].
  - cbn. by rewrite logged_nil.
  - change (CacheMachine.replay (o :: l) (replaying cm w))
      with (Ok (Some (set_from_cache true o), GHit l),
            logged [Yield (set_from_cache true o)] (replaying cm w)).
    cbn [fst snd it_remaining CacheMachine.remaining]. unfold bind at 1.
    rewrite collect_hit; [| lia]. cbn [map ret]. by rewrite logged_app.
Qed.

(** A whole execution on a miss. *)
Lemma list_miss (cm : CacheMachine) (rows : list Obj) (w w2 : World) :
  is_none (lookup_default (machine_key cm) (cache w)) = true ->
  underlying (iter_function cm) (missed cm w) = (Ok rows, w2) ->
  list_ (IterMachine cm GStart) w
  = (Ok (map (set_from_cache false) rows),
     finished cm (map (set_from_cache false) rows)
       (logged (map Yield (map (set_from_cache false) rows)) w2)).
Proof.
  intros Hn Hu. destruct (underlying_inv _ _ _ _ Hu) as (u & Hstart & Hs & Hl).
  unfold list_. unfold bind at 1.
  rewrite next_machine, (start_miss cm w Hn), (fetch_new cm _ u [] _ w2 Hstart Hs).
  destruct rows as [|o rows].
  - rewrite (fetch_stop cm u UDone [] w2 Hs (u_pull_nil u Hs Hl)).
    cbn. by rewrite logged_nil.
  - destruct (u_pull_cons u o rows Hs Hl) as (u' & Hp & Hs' & Hl').
    rewrite (fetch_yield cm u u' o [] w2 Hs Hp).
    cbn [fst snd it_remaining CacheMachine.remaining]. unfold bind at 1.
    rewrite (collect_miss cm rows u' _ _ _ Hs' Hl');
      [| rewrite (u_remaining_list u' rows Hs' Hl'); lia].
    cbn [map ret app]. by rewrite logged_app.
Qed.

Lemma get_many_nothing (c : gmap string CVal) :
  filter (fun kv : string * CVal => kv.1 ∈ @nil string) c = ∅.
Proof.
  apply map_empty_filter. intros k v _ Hin. by apply elem_of_nil in Hin.
Qed.

(** An iter function that finds no row leaves the store and the
    database as they are. *)
Lemma underlying_empty (f : IterFunction) (w w2 : World) :
  underlying f w = (Ok [], w2) -> w2 = logged (empty_run f) w.
Proof.
  intros H. destruct f as [q | qs | sql].
  - by injection H as _ <-.
  - destruct (underlying_inv _ _ _ _ H) as (u & Hstart & _ & Hl).
    cbn [u_start] in Hstart.
    destruct (fetch_by_id_started _ _ _ _ Hstart) as [objects ->].
    assert (Hpks : values_list_pk (qs_query qs) (db w) = []).
    { cbn [u_list] in Hl. destruct (values_list_pk _ _) as [|pk pks]; [done |].
      cbn in Hl. destruct (objects !! pk); [| done].
      by destruct (by_id_rows pks objects). }
    revert Hstart. unfold CachingQuerySet.fetch_by_id, cache_get_many, bind, emit,
      read_db, read_cache, ret. cbn [cache db trace]. rewrite Hpks.
    unfold lift. cbn [CachingQuerySet.mapR].
    unfold CachingQuerySet.dict. cbn [reverse rev_append list_to_map foldr].
    rewrite !map_to_list_empty. cbn [map filter list_filter].
    rewrite get_many_nothing, map_filter_empty, !map_to_list_empty.
    cbn. intros [= _ <-]. unfold logged. by rewrite <- app_assoc.
  - by injection H as _ <-.
Qed.

End MachineFacts.

(** ** Executions of a [CacheMachine] *)

Section Executions.
Context {R : Relational} {I : Invalidation} {S : Settings}.

Lemma finished_cons (cm : CacheMachine) (to_cache : list Obj) (w : World) :
  to_cache <> [] ->
  finished cm to_cache w
  = {| cache := inv_cache_objects to_cache (machine_key cm) (machine_flush cm)
                  (add_if_absent (machine_key cm) (CObjs to_cache) (noted cm (cache w)));
       db := db w;
       trace := trace w ++ [note cm;
                            CacheAdd (machine_key cm) (CObjs to_cache) (timeout cm);
                            CacheObjects to_cache (machine_key cm) (machine_flush cm)] |}.
Proof. by destruct to_cache. Qed.

(** C4. On a miss, each round of the loop that receives a row tags it
    [from_cache = False], appends it to the buffer and yields it, and
    the world gains nothing but the [Yield]: no write has happened.
    Only the round in which the underlying iterator is exhausted writes
    the buffer under the query key, with [cache.add], which leaves a key
    that already holds a value as it is, and then registers the
    dependencies with the invalidator.  In the trace of a whole
    execution all yields come first, then the [add], then the
    registration. *)
Theorem miss_yields_then_caches (cm : CacheMachine) :
  (forall (u u' : UIter) (o : Obj) (to_cache : list Obj) (w : World),
      started u -> u_pull u = Ok (Some o, u') ->
      CacheMachine.__iter__ cm (GMiss u to_cache) w
      = (Ok (Some (set_from_cache false o),
             GMiss u' (to_cache ++ [set_from_cache false o])),
         logged [Yield (set_from_cache false o)] w))
  /\ (forall (u u' : UIter) (to_cache : list Obj) (w : World),
      started u -> u_pull u = Ok (None, u') -> to_cache <> [] ->
      CacheMachine.__iter__ cm (GMiss u to_cache) w
      = (Ok (None, GDone),
         {| cache := inv_cache_objects to_cache (machine_key cm) (machine_flush cm)
                       (add_if_absent (machine_key cm) (CObjs to_cache)
                          (noted cm (cache w)));
            db := db w;
            trace := trace w ++ [note cm;
                                 CacheAdd (machine_key cm) (CObjs to_cache) (timeout cm);
                                 CacheObjects to_cache (machine_key cm)
                                   (machine_flush cm)] |}))
  /\ (forall (c : gmap string CVal) (v : CVal) (to_cache : list Obj),
      c !! machine_key cm = Some v ->
      add_if_absent (machine_key cm) (CObjs to_cache) c = c)
  /\ (forall (rows : list Obj) (w w2 : World),
      is_none (lookup_default (machine_key cm) (cache w)) = true ->
      underlying (iter_function cm) (missed cm w) = (Ok rows, w2) ->
      rows <> [] ->
      let yielded := map (set_from_cache false) rows in
      list_ (IterMachine cm GStart) w
      = (Ok yielded,
         {| cache := inv_cache_objects yielded (machine_key cm) (machine_flush cm)
                       (add_if_absent (machine_key cm) (CObjs yielded)
                          (noted cm (cache w2)));
            db := db w2;
            trace := trace w2 ++ map Yield yielded
                     ++ [note cm;
                         CacheAdd (machine_key cm) (CObjs yielded) (timeout cm);
                         CacheObjects yielded (machine_key cm) (machine_flush cm)] |})).
Proof.
  split; [| split; [| split]].
  - intros u u' o to_cache w Hs Hp. by apply fetch_yield.
  - intros u u' to_cache w Hs Hp Hne. cbn [CacheMachine.__iter__].
    rewrite (fetch_stop cm u u' to_cache w Hs Hp). by rewrite finished_cons.
  - intros c v to_cache Hc. unfold add_if_absent. by rewrite Hc.
  - intros rows w w2 Hn Hu Hne yielded.
    rewrite (list_miss cm rows w w2 Hn Hu). fold yielded.
    rewrite finished_cons; [| by destruct rows].
    unfold logged. cbn [cache db trace]. by rewrite <- app_assoc.
Qed.

Lemma hit_events_not_relational (cm : CacheMachine) (l : list Obj) :
  Forall (fun e => relational e = false) (hit_events cm l).
Proof.
  unfold hit_events. repeat apply Forall_app_2.
  - by repeat constructor.
  - destruct CACHE_DEBUG; by repeat constructor.
  - induction l as [|o l IH]; by constructor.
Qed.

Lemma set_from_cache_twice (b b' : bool) (l : list Obj) :
  map (set_from_cache b) (map (set_from_cache b') l) = map (set_from_cache b) l.
Proof. rewrite map_map. by apply map_ext. Qed.

(** C2, as amended.  On a hit, [__iter__] replays the stored sequence
    in its order with [from_cache = True] on every item, stops when the
    sequence is exhausted and calls neither the iter function nor the
    database.  Hence, for a query with no cache entry whose first
    execution yields at least one row, a second execution yields the
    same records in the same order, tagged as cached, with no call to
    the relational layer.  (The store is taken to keep what it holds:
    the underlying iteration leaves the query key free, and the
    registration with the invalidator does not touch the entry it
    registers; the caller is [list], which leaves the records it is
    handed as they are.) *)
Theorem hit_replays_stored_sequence (cm : CacheMachine) :
  (forall (l : list Obj) (w : World),
      lookup_default (machine_key cm) (cache w) = CObjs l ->
      list_ (IterMachine cm GStart) w
      = (Ok (map (set_from_cache true) l),
         {| cache := noted cm (cache w); db := db w;
            trace := trace w ++ hit_events cm l |})
      /\ Forall (fun e => relational e = false) (hit_events cm l))
  /\ (forall (rows : list Obj) (w w2 : World),
      cache w !! machine_key cm = None ->
      underlying (iter_function cm) (missed cm w) = (Ok rows, w2) ->
      rows <> [] ->
      cache w2 !! machine_key cm = None ->
      (forall objects c,
          inv_cache_objects objects (machine_key cm) (machine_flush cm) c
            !! machine_key cm = c !! machine_key cm) ->
      exists w3 : World,
        list_ (IterMachine cm GStart) w = (Ok (map (set_from_cache false) rows), w3)
        /\ list_ (IterMachine cm GStart) w3
           = (Ok (map (set_from_cache true) rows),
              {| cache := noted cm (cache w3); db := db w3;
                 trace := trace w3
                          ++ hit_events cm (map (set_from_cache false) rows) |})
        /\ Forall (fun e => relational e = false)
             (hit_events cm (map (set_from_cache false) rows))).
Proof.
  assert (Hhit : forall (l : list Obj) (w : World),
      lookup_default (machine_key cm) (cache w) = CObjs l ->
      list_ (IterMachine cm GStart) w
      = (Ok (map (set_from_cache true) l),
         {| cache := noted cm (cache w); db := db w;
            trace := trace w ++ hit_events cm l |})).
  { intros l w Hl. rewrite (list_hit cm l w Hl).
    unfold logged, replaying, hit_events. cbn [cache db trace].
    by rewrite <- !app_assoc. }
  split.
  - intros l w Hl. split; [by apply Hhit | apply hit_events_not_relational].
  - intros rows w w2 Hfree Hu Hne Hfree2 Hkeep.
    assert (Hn : is_none (lookup_default (machine_key cm) (cache w)) = true).
    { unfold lookup_default. by rewrite Hfree. }
    eexists. split; [apply (list_miss cm rows w w2 Hn Hu) |].
    set (yielded := map (set_from_cache false) rows).
    assert (Hne' : yielded <> []) by by destruct rows.
    split; [| apply hit_events_not_relational].
    rewrite <- (set_from_cache_twice true false rows). apply Hhit.
    rewrite finished_cons by done. cbn [cache].
    unfold lookup_default. rewrite Hkeep. unfold add_if_absent.
    cbn [logged cache]. rewrite lookup_noted, Hfree2.
    by rewrite lookup_insert_eq.
Qed.

End Executions.

Section EmptyResults.
Context {R : Relational} {I : Invalidation} {S : Settings}.

Lemma list_miss_empty (cm : CacheMachine) (w : World) :
  is_none (lookup_default (machine_key cm) (cache w)) = true ->
  fst (underlying (iter_function cm) (missed cm w)) = Ok [] ->
  list_ (IterMachine cm GStart) w = (Ok [], empty_execution cm w).
Proof.
  intros Hn Hu.
  destruct (underlying (iter_function cm) (missed cm w)) as [r w2] eqn:Hrun.
  cbn in Hu. subst r. rewrite (list_miss cm [] w w2 Hn Hrun). cbn.
  rewrite logged_nil. by rewrite (underlying_empty _ _ _ Hrun).
Qed.

Lemma iter_calls_app (t1 t2 : list Event) :
  iter_calls (t1 ++ t2) = iter_calls t1 + iter_calls t2.
Proof. unfold iter_calls. by rewrite List.filter_app, length_app. Qed.

Lemma iter_calls_empty_run (f : IterFunction) : iter_calls (empty_run f) = 0.
Proof. by destruct f. Qed.

Lemma empty_executions (cm : CacheMachine) (w : World) (n : nat) :
  db (Nat.iter n (empty_execution cm) w) = db w
  /\ lookup_default (machine_key cm) (cache (Nat.iter n (empty_execution cm) w))
     = lookup_default (machine_key cm) (cache w)
  /\ iter_calls (trace (Nat.iter n (empty_execution cm) w))
     = iter_calls (trace w) + n.
Proof.
  induction n as [|n (IHd & IHc & IHt)]; [cbn; by rewrite Nat.add_0_r |].
  rewrite Nat.iter_succ. set (wn := Nat.iter n (empty_execution cm) w) in *.
  unfold empty_execution, logged, missed. cbn [cache db trace].
  split; [done |]. split.
  - by rewrite lookup_default_noted.
  - rewrite !iter_calls_app, IHt, iter_calls_empty_run. cbn. lia.
Qed.

(** C3. When a miss finds the underlying iterator empty, the execution
    consists of the lookup, the call of the iter function and the empty
    iteration: nothing is added under the query key and nothing is
    registered with the invalidator.  So the next execution misses
    again: while the iterator finds no row, each of [n] executions in
    a row calls the iter function anew and returns the empty result. *)
Theorem empty_result_is_not_cached (cm : CacheMachine) (w : World) :
  is_none (lookup_default (machine_key cm) (cache w)) = true ->
  (forall w', db w' = db w -> fst (underlying (iter_function cm) w') = Ok []) ->
  list_ (IterMachine cm GStart) w
  = (Ok [],
     {| cache := noted cm (cache w); db := db w;
        trace := trace w ++ [note cm; CacheGet (machine_key cm);
                             IterFunctionCall (iter_function cm)]
                 ++ empty_run (iter_function cm) |})
  /\ forall n : nat,
      times n (list_ (IterMachine cm GStart)) w
      = (Ok (replicate n []), Nat.iter n (empty_execution cm) w)
      /\ iter_calls (trace (Nat.iter n (empty_execution cm) w))
         = iter_calls (trace w) + n
      /\ lookup_default (machine_key cm) (cache (Nat.iter n (empty_execution cm) w))
         = lookup_default (machine_key cm) (cache w).
Proof.
  intros Hn Hempty. split.
  - rewrite (list_miss_empty cm w Hn (Hempty (missed cm w) eq_refl)).
    unfold empty_execution, logged, missed. cbn [cache db trace].
    by rewrite <- app_assoc.
  - intros n. destruct (empty_executions cm w n) as (Hd & Hc & Ht).
    split; [| done]. clear Hd Hc Ht.
    assert (Hgen : forall w0, db w0 = db w ->
              is_none (lookup_default (machine_key cm) (cache w0)) = true ->
              times n (list_ (IterMachine cm GStart)) w0
              = (Ok (replicate n []), Nat.iter n (empty_execution cm) w0)).
    { induction n as [|n IH]; intros w0 Hd0 Hn0; [reflexivity |].
      cbn [times]. unfold bind at 1.
      rewrite (list_miss_empty cm w0 Hn0 (Hempty (missed cm w0) Hd0)).
      unfold bind at 1. rewrite IH.
      - unfold ret. cbn [replicate]. f_equal. symmetry. apply Nat.iter_succ_r.
      - exact Hd0.
      - unfold empty_execution, logged, missed. cbn [cache].
        by rewrite lookup_default_noted. }
    by apply Hgen.
Qed.

End EmptyResults.

(** ** The reference invalidator keeps what it registers *)

Lemma flush_prefix_ne (x y : string) : "flush:" ++ x <> "qs:" ++ y.
Proof. rewrite !append_cons. discriminate. Qed.

Lemma dependency_map_other (objects : list Obj) (query_key query_flush k : string) :
  (forall a, SpecInvalidation.flush_key a <> k) -> query_flush <> k ->
  SpecInvalidation.dependency_map objects query_key query_flush !! k = None.
Proof.
  intros Hflush Hq. induction objects as [|o objects IH]; cbn.
  - by apply lookup_singleton_ne.
  - unfold SpecInvalidation.register at 1. rewrite lookup_insert_ne by apply Hflush.
    unfold SpecInvalidation.register at 1. by rewrite lookup_insert_ne by apply Hflush.
Qed.

Lemma add_to_flush_list_other (mapping : gmap string (gset string))
    (c : gmap string CVal) (k : string) :
  mapping !! k = None ->
  SpecInvalidation.add_to_flush_list mapping c !! k = c !! k.
Proof.
  intros Hk. unfold SpecInvalidation.add_to_flush_list.
  rewrite lookup_merge, Hk. by destruct (c !! k).
Qed.

(** Registering a query's dependencies leaves the entry under the
    query key alone. *)
Lemma cache_objects_keeps_query (cm : CacheMachine) (objects : list Obj)
    (c : gmap string CVal) :
  inv_cache_objects (Invalidation := SpecInvalidation.invalidation) objects
    (machine_key (I := SpecInvalidation.invalidation) cm)
    (machine_flush (I := SpecInvalidation.invalidation) cm) c
    !! machine_key (I := SpecInvalidation.invalidation) cm
  = c !! machine_key (I := SpecInvalidation.invalidation) cm.
Proof.
  apply add_to_flush_list_other, dependency_map_other.
  - intros a. apply flush_prefix_ne.
  - apply flush_prefix_ne.
Qed.

(** [clear] leaves no flush list in the store. *)
Lemma clear_drops_every_flush_list (c : gmap string CVal) (k : string)
    (l : list string) :
  SpecInvalidation.clear c !! k <> Some (CKeys l).
Proof.
  unfold SpecInvalidation.clear. intros H.
  apply map_lookup_filter_Some in H as [_ H]. done.
Qed.

(** ** The executions of the sample queries *)

Section SampleRuns.
#[local] Existing Instance Sample.relational.
#[local] Existing Instance SpecInvalidation.invalidation.
#[local] Existing Instance Sample.settings.

Lemma miss_yields_then_caches_witness :
  fst (list_ (IterMachine Sample.red GStart) Sample.world0)
  = Ok [set_from_cache false Sample.w1; set_from_cache false Sample.w2].
Proof.
  destruct (miss_yields_then_caches Sample.red) as (_ & _ & _ & H).
  rewrite (H [Sample.w1; Sample.w2] Sample.world0
             (logged [DbExecute (qs_query (Sample.by_color "red"))]
                (missed Sample.red Sample.world0))
             eq_refl eq_refl ltac:(discriminate)).
  reflexivity.
Defined.

Lemma hit_replays_stored_sequence_witness :
  exists w3 : World,
    list_ (IterMachine Sample.red GStart) Sample.world0
    = (Ok [set_from_cache false Sample.w1; set_from_cache false Sample.w2], w3)
    /\ fst (list_ (IterMachine Sample.red GStart) w3)
       = Ok [set_from_cache true Sample.w1; set_from_cache true Sample.w2].
Proof.
  destruct (hit_replays_stored_sequence Sample.red) as [_ H].
  destruct (H [Sample.w1; Sample.w2] Sample.world0
              (logged [DbExecute (qs_query (Sample.by_color "red"))]
                 (missed Sample.red Sample.world0))
              eq_refl eq_refl ltac:(discriminate) eq_refl
              (cache_objects_keeps_query Sample.red))
    as (w3 & H1 & H2 & _).
  exists w3. split; [exact H1 |]. rewrite H2. reflexivity.
Defined.

Lemma empty_result_is_not_cached_witness :
  times 3 (list_ (IterMachine Sample.green GStart)) Sample.world0
  = (Ok [[]; []; []], Nat.iter 3 (empty_execution Sample.green) Sample.world0).
Proof.
  apply (empty_result_is_not_cached Sample.green Sample.world0).
  - reflexivity.
  - intros w' Hd. cbn. rewrite Hd. reflexivity.
Defined.

(** C2 as stated fails for a query that matches nothing: no entry
    exists before, both executions return the empty sequence, and the
    second one calls the iter function again. *)
Lemma second_run_of_empty_result_queries_again :
  cache Sample.world0 !! machine_key Sample.green = None
  /\ exists w1 w2 : World,
      list_ (IterMachine Sample.green GStart) Sample.world0 = (Ok [], w1)
      /\ list_ (IterMachine Sample.green GStart) w1 = (Ok [], w2)
      /\ trace w2
         = (trace w1 ++ [note Sample.green; CacheGet (machine_key Sample.green);
                         IterFunctionCall (iter_function Sample.green);
                         DbExecute (qs_query (Sample.by_color "green"))])%list
      /\ iter_calls (trace w2) = iter_calls (trace w1) + 1.
Proof.
  split; [reflexivity |].
  exists (empty_execution Sample.green Sample.world0),
         (empty_execution Sample.green (empty_execution Sample.green Sample.world0)).
  split; [by apply list_miss_empty |]. split; [by apply list_miss_empty |].
  split; reflexivity.
Qed.

End SampleRuns.

(** ** [iterator] without caching *)

Section Bypass.
Context {R : Relational} {I : Invalidation} {S : Settings}.

Lemma next_plain (u : UIter) (w : World) :
  next (IterPlain u) w
  = match u_next u w with
    | (Ok r, w') => (Ok (r.1, IterPlain r.2), w')
    | (Raise e, w') => (Raise e, w')
    end.
Proof. reflexivity. Qed.

Lemma collect_plain (rows : list Obj) :
  forall (w : World) (fuel : nat),
    length rows < fuel ->
    collect fuel (IterPlain (URows rows)) w = (Ok rows, w).
Proof.
  induction rows as [|o rows IH]; intros w fuel Hfuel.
  - destruct fuel as [|fuel]; [cbn in Hfuel; lia | reflexivity].
  - destruct fuel as [|fuel]; [cbn in Hfuel; lia |].
    rewrite collect_step, next_plain. cbn [u_next u_pull lift fst snd].
    rewrite IH; [done | cbn in Hfuel; lia].
Qed.

(** Exhausting the base iterator: one query, its rows. *)
Lemma list_plain (q : Query) (w : World) :
  list_ (IterPlain (UNew (SuperIterator q))) w
  = (Ok (execute q (db w)), logged [DbExecute q] w).
Proof.
  unfold list_. unfold bind at 1. rewrite next_plain.
  change (u_next (UNew (SuperIterator q)) w)
    with (u_pull (URows (execute q (db w))), logged [DbExecute q] w).
  destruct (execute q (db w)) as [|o rows]; [reflexivity |].
  cbn [u_pull fst snd it_remaining u_remaining]. unfold bind at 1.
  rewrite collect_plain; [reflexivity | lia].
Qed.

Lemma iterator_no_cache (self : CachingQuerySet) (w : World) :
  qs_timeout self = Some NO_CACHE ->
  CachingQuerySet.iterator self w
  = (Ok (IterPlain (UNew (SuperIterator (qs_query self)))),
     logged [IterFunctionCall (SuperIterator (qs_query self))]
       (registered (CachingQuerySet.get_constraints self) w)).
Proof.
  intros Ht. unfold CachingQuerySet.iterator. rewrite Ht.
  rewrite bool_decide_eq_true_2 by done. reflexivity.
Qed.

(** C6. With the [NO_CACHE] timeout, [iterator] hands out the base
    iterator itself: exhausting it costs one query and returns its rows,
    and nothing is read from or written to the cache for the result.
    The constraints are discovered and registered with the invalidator
    all the same: in every mode, whatever the timeout, the first effect
    of [iterator] is [add_to_flush_list] of the same constraints, and
    only then is the timeout looked at. *)
Theorem no_cache_still_registers_constraints (self : CachingQuerySet) (w : World) :
  qs_timeout self = Some NO_CACHE ->
  let constraints := CachingQuerySet.get_constraints self in
  let q := qs_query self in
  (it <- CachingQuerySet.iterator self ;; list_ it) w
  = (Ok (execute q (db w)),
     {| cache := inv_add_to_flush_list constraints (cache w);
        db := db w;
        trace := trace w ++ [AddToFlushList constraints;
                             IterFunctionCall (SuperIterator q);
                             DbExecute q] |})
  /\ Forall (fun e => cache_access e = false)
       [AddToFlushList constraints; IterFunctionCall (SuperIterator q); DbExecute q]
  /\ forall tmo : option Z,
      CachingQuerySet.get_constraints (CachingQuerySet.cache_ self tmo) = constraints
      /\ exists r evs,
          CachingQuerySet.iterator (CachingQuerySet.cache_ self tmo) w
          = (r, logged evs (registered constraints w))
          /\ Forall (fun e => cache_access e = false) evs.
Proof.
  intros Ht constraints q. split; [| split].
  - unfold bind at 1. rewrite (iterator_no_cache self w Ht), list_plain.
    unfold logged, registered. cbn [cache db trace]. by rewrite <- !app_assoc.
  - by repeat constructor.
  - intros tmo. split; [reflexivity |].
    unfold CachingQuerySet.iterator.
    change (CachingQuerySet.get_constraints (CachingQuerySet.cache_ self tmo))
      with constraints.
    cbn [qs_timeout qs_query CachingQuerySet.cache_].
    destruct (bool_decide (tmo = Some NO_CACHE)).
    + eexists _, [IterFunctionCall (SuperIterator (qs_query self))].
      split; [reflexivity | by repeat constructor].
    + unfold CachingQuerySet.query_key. cbn [qs_query CachingQuerySet.cache_].
      destruct (as_sql (qs_query self)) as [sql|] eqn:Hsql.
      * eexists _, []. split; [| constructor].
        unfold add_to_flush_list, try_except, bind, emit, update_cache, lift, ret.
        cbn. unfold logged, registered. cbn. by rewrite app_nil_r.
      * eexists _, [IterFunctionCall (SuperIterator (qs_query self))].
        split; [| by repeat constructor].
        unfold add_to_flush_list, try_except, bind, emit, update_cache, lift, ret.
        cbn. reflexivity.
Qed.

End Bypass.

Section SampleBypass.
#[local] Existing Instance Sample.relational.
#[local] Existing Instance SpecInvalidation.invalidation.
#[local] Existing Instance Sample.settings.

Lemma no_cache_still_registers_constraints_witness :
  fst ((it <- CachingQuerySet.iterator
               (CachingQuerySet.no_cache (Sample.by_color "red")) ;;
        list_ it) Sample.world0)
  = Ok [Sample.w1; Sample.w2].
Proof.
  destruct (no_cache_still_registers_constraints
              (CachingQuerySet.no_cache (Sample.by_color "red")) Sample.world0
              eq_refl) as [H _].
  rewrite H. reflexivity.
Defined.

End SampleBypass.

(** ** The before-update hook *)

Section PreSave.
Context {R : Relational} {I : Invalidation} {S : Settings}.

Lemma get_no_cache (self : CachingQuerySet) (value : PyVal) (w : World) :
  qs_timeout self = Some NO_CACHE ->
  let lookup := exact_pk self value in
  QuerySet_get self value w
  = (match execute (qs_query lookup) (db w) with
     | [obj] => Ok obj
     | [] => Raise DoesNotExist
     | _ => Raise MultipleObjectsReturned
     end,
     logged [IterFunctionCall (SuperIterator (qs_query lookup));
             DbExecute (qs_query lookup)]
       (registered (CachingQuerySet.get_constraints lookup) w)).
Proof.
  intros Ht lookup. unfold QuerySet_get. fold lookup. unfold bind at 1.
  rewrite (iterator_no_cache lookup w) by exact Ht.
  unfold bind at 1. rewrite list_plain. rewrite logged_app.
  cbn [app db logged registered].
  by destruct (execute (qs_query lookup) (db w)) as [|o [|o' rows]].
Qed.

(** The lookup of [pre_save] filters on the primary key only, which
    is never a watched column. *)
Lemma pk_lookup_registers_nothing (cls : ModelClass) (value : PyVal) :
  is_Some (meta_pk (cls__meta cls)) ->
  CachingQuerySet.get_constraints
    (exact_pk (CachingManager.no_cache (MkManager cls)) value) = ∅.
Proof.
  intros [pk Hpk]. unfold CachingQuerySet.get_constraints. cbn.
  unfold CachingQuerySet.pk_field_name, CachingQuerySet.is_pk_name. rewrite Hpk.
  rewrite bool_decide_eq_true_2 by done. by destruct (cls_mixin cls).
Qed.

Lemma invalidate_model_ok (self : CachingManager) (w : World) :
  cls_mixin (model self) = true ->
  CachingManager.invalidate_model self w = (Ok tt, model_invalidated (model self) w).
Proof.
  intros Hmix. unfold CachingManager.invalidate_model, model_invalidated.
  rewrite Hmix. cbn [negb].
  unfold invalidate_keys, cache_delete, log_debug, bind, emit, update_cache, ret.
  destruct CACHE_DEBUG; cbn; by rewrite <- !app_assoc.
Qed.

Lemma py_eq_refl (a : PyVal) : py_eq a a = true.
Proof. destruct a; cbn; by rewrite bool_decide_eq_true_2. Qed.

Lemma py_ne_same (a : option PyVal) : py_ne a a = false.
Proof. destruct a as [a|]; [| done]. cbn. by rewrite py_eq_refl. Qed.

(** The loop over the watched columns invalidates the model once, at
    the first column that differs, or not at all. *)
Lemma compare_cols_spec (objects : CachingManager) (orig instance : Obj)
    (flush_cols : list string) :
  CachingManager.compare_cols objects orig instance flush_cols
  = if existsb (differs orig instance) flush_cols
    then CachingManager.invalidate_model objects
    else ret tt.
Proof.
  induction flush_cols as [|col cols IH]; [reflexivity |].
  cbn [CachingManager.compare_cols existsb]. unfold differs at 1.
  destruct (hasattr orig col), (hasattr instance col); cbn [negb orb andb]; try done.
  by destruct (py_ne (getattr orig col) (getattr instance col)).
Qed.

(** C1.  [pre_save] does nothing for a record without an id.  For a
    record with an id it fetches the persisted row with a [NO_CACHE]
    queryset, which reads nothing from the cache, and asks the
    invalidator for the watched columns of the model.  If one of them
    differs between the persisted and the about-to-be-saved record (on
    a column both records have), the model is invalidated, once: the
    loop stops at the first such column.  If there is no watched
    column, or none differs, the hook ends without an invalidating
    effect and the store is as the fetch left it. *)
Theorem pre_save_invalidates_on_watched_change (self : CachingManager)
    (sender : ModelClass) (instance : Obj) (id : PyVal) (w : World) :
  getattr instance "id" = Some id ->
  (truthy id = false ->
   forall raw, CachingManager.pre_save self sender instance raw w = (Ok tt, w))
  /\ (truthy id = true ->
      forall orig : Obj,
      let cls := o_class instance in
      let lookup := exact_pk (CachingManager.no_cache (MkManager cls)) id in
      let flush_cols :=
        inv_get_flush_lists ["cols:" ++ _model_key cls]
          (inv_add_to_flush_list (CachingQuerySet.get_constraints lookup) (cache w)) in
      cls_objects_caching cls = true ->
      cls_mixin cls = true ->
      execute (qs_query lookup) (db w) = [orig] ->
      CachingManager.pre_save self sender instance false w
      = (Ok tt,
         if existsb (differs orig instance) flush_cols
         then model_invalidated cls (compared cls lookup w)
         else compared cls lookup w)
      /\ (exists evs,
            compared cls lookup w
            = {| cache := inv_add_to_flush_list
                            (CachingQuerySet.get_constraints lookup) (cache w);
                 db := db w;
                 trace := trace w ++ evs |}
            /\ Forall (fun e => invalidating e = false /\ cache_access e = false) evs)
      /\ ((flush_cols = []
           \/ forall col, col ∈ flush_cols -> getattr orig col = getattr instance col) ->
          CachingManager.pre_save self sender instance false w
          = (Ok tt, compared cls lookup w))
      /\ (is_Some (meta_pk (cls__meta cls)) ->
          CachingQuerySet.get_constraints lookup = ∅)).
Proof.
  intros Hid. split.
  - intros Hfalse [|]; [reflexivity |].
    unfold CachingManager.pre_save, attr, bind, lift. rewrite Hid. cbn.
    by rewrite Hfalse.
  - intros Htrue orig cls lookup flush_cols Hobjects Hmix Hrow.
    assert (Hrun : CachingManager.pre_save self sender instance false w
                   = (Ok tt,
                      if existsb (differs orig instance) flush_cols
                      then model_invalidated cls (compared cls lookup w)
                      else compared cls lookup w));
      [| split; [exact Hrun | split; [| split]]].
    + unfold CachingManager.pre_save, attr. unfold bind at 1. unfold lift at 1.
      rewrite Hid. cbn [of_option]. rewrite Htrue. cbn [negb].
      fold cls. rewrite Hobjects. cbn [negb]. unfold bind at 1.
      rewrite (get_no_cache (CachingManager.no_cache (MkManager cls)) id w eq_refl).
      fold lookup. rewrite Hrow.
      unfold model_key. fold cls. rewrite Hmix.
      unfold bind at 1. unfold lift at 1. unfold bind at 1.
      unfold get_flush_lists, read_cache, bind, emit, ret. cbn [cache db trace logged registered].
      fold flush_cols. rewrite compare_cols_spec.
      destruct flush_cols as [|col cols] eqn:Hcols.
      * cbn. unfold compared, logged, registered. cbn. by rewrite <- !app_assoc.
      * cbn [length Nat.eqb].
        destruct (existsb (differs orig instance) (col :: cols)).
        -- rewrite (invalidate_model_ok (MkManager cls)) by exact Hmix.
           cbn [model]. do 2 f_equal.
           unfold compared, logged, registered. cbn. by rewrite <- !app_assoc.
        -- unfold ret, compared, logged, registered. cbn. by rewrite <- !app_assoc.
    + exists [AddToFlushList (CachingQuerySet.get_constraints lookup);
              IterFunctionCall (SuperIterator (qs_query lookup));
              DbExecute (qs_query lookup);
              GetFlushLists ["cols:" ++ _model_key cls]].
      split; [| by repeat constructor].
      unfold compared, logged, registered. cbn [cache db trace].
      by rewrite <- app_assoc.
    + intros Hsame. rewrite Hrun.
      enough (existsb (differs orig instance) flush_cols = false) as -> by done.
      destruct Hsame as [-> | Hsame]; [reflexivity |].
      apply not_true_is_false. intros Hex.
      apply existsb_exists in Hex as (col & Hin & Hd).
      unfold differs in Hd. apply andb_true_iff in Hd as [_ Hd].
      rewrite (Hsame col) in Hd by by apply list_elem_of_In.
      by rewrite py_ne_same in Hd.
    + intros Hpk. by apply pk_lookup_registers_nothing.
Qed.

End PreSave.

Section SamplePreSave.
#[local] Existing Instance Sample.relational.
#[local] Existing Instance SpecInvalidation.invalidation.
#[local] Existing Instance Sample.settings.

(** Saving widget 1 with another colour, a watched column, invalidates
    the model. *)
Lemma pre_save_invalidates_on_watched_change_witness :
  CachingManager.pre_save (MkManager Sample.Widget) Sample.Widget
    (Sample.widget 1 (PInt 7) "blue") false Sample.world1
  = (Ok tt,
     model_invalidated Sample.Widget
       (compared Sample.Widget
          (exact_pk (CachingManager.no_cache (MkManager Sample.Widget)) (PInt 1))
          Sample.world1)).
Proof.
  destruct (pre_save_invalidates_on_watched_change (MkManager Sample.Widget)
              Sample.Widget (Sample.widget 1 (PInt 7) "blue") (PInt 1)
              Sample.world1 eq_refl) as [_ H].
  destruct (H eq_refl Sample.w1 eq_refl eq_refl eq_refl) as [H1 _].
  rewrite H1. reflexivity.
Defined.

(** Saving it with another owner, which no query filtered on, does
    not. *)
Example pre_save_unwatched_change :
  CachingManager.pre_save (MkManager Sample.Widget) Sample.Widget
    (Sample.widget 1 (PInt 8) "red") false Sample.world1
  = (Ok tt,
     compared Sample.Widget
       (exact_pk (CachingManager.no_cache (MkManager Sample.Widget)) (PInt 1))
       Sample.world1).
Proof. vm_compute. reflexivity. Qed.

End SamplePreSave.

(** ** Memoized functions that return [None] *)

Section NoneResults.
Context {R : Relational} {I : Invalidation} {S : Settings} {Pr : Printing}
  {F : Formatting}.

Lemma calls_app (name : string) (t1 t2 : list Event) :
  calls name (t1 ++ t2) = calls name t1 + calls name t2.
Proof. unfold calls. by rewrite List.filter_app, length_app. Qed.

(** [n] runs of a computation that keeps an invariant and bumps a
    counter by one. *)
Lemma times_invariant {A} (m : M A) (a : A) (P : World -> Prop)
    (count : World -> nat) :
  (forall w, P w -> exists w', m w = (Ok a, w') /\ P w' /\ count w' = count w + 1) ->
  forall (n : nat) (w : World),
    P w ->
    exists wn, times n m w = (Ok (replicate n a), wn)
               /\ P wn /\ count wn = count w + n.
Proof.
  intros Hstep n. induction n as [|n IH]; intros w HP.
  - exists w. cbn. split; [done |]. split; [done | lia].
  - destruct (Hstep w HP) as (w' & Hm & HP' & Hc).
    destruct (IH w' HP') as (wn & Hn & HPn & Hcn).
    exists wn. cbn [times]. unfold bind at 1. rewrite Hm.
    unfold bind at 1. rewrite Hn. split; [done |]. split; [done | lia].
Qed.

(** A miss of [cached]: the function is called and its value stored. *)
Lemma cached_miss (function : Callable) (key_ : string) (duration : option Z)
    (w : World) (v : CVal) (c : gmap string CVal) (d : DB) :
  is_none (lookup_default (_function_cache_key key_) (cache w)) = true ->
  fn_body function (cache w) (db w) = (Ok v, c, d) ->
  cached function key_ duration w
  = (Ok v,
     {| cache := <[_function_cache_key key_ := v]> c; db := d;
        trace := trace w ++ [CacheGet (_function_cache_key key_)]
                 ++ (if CACHE_DEBUG
                     then [LogDebug ("cache miss for " ++ _function_cache_key key_)]
                     else [])
                 ++ [FunctionCall (fn_name function);
                     CacheSet (_function_cache_key key_) v duration] |}).
Proof.
  intros Hn Hf. unfold cached, cache_get, cache_set, call, log_debug, read_cache,
    bind, emit, update_cache, ret. cbn [cache db trace]. rewrite Hn.
  destruct CACHE_DEBUG; cbn [cache db trace]; rewrite Hf; cbn;
    by rewrite <- !app_assoc.
Qed.

(** A hit of [cached]: the stored value is returned, the function is
    not called. *)
Lemma cached_hit (function : Callable) (key_ : string) (duration : option Z)
    (w : World) :
  is_none (lookup_default (_function_cache_key key_) (cache w)) = false ->
  cached function key_ duration w
  = (Ok (lookup_default (_function_cache_key key_) (cache w)),
     logged ([CacheGet (_function_cache_key key_)]
             ++ (if CACHE_DEBUG
                 then [LogDebug ("cache hit for " ++ _function_cache_key key_)]
                 else [])) w).
Proof.
  intros Hn. unfold cached, cache_get, log_debug, read_cache, bind, emit, ret.
  cbn [cache db trace]. rewrite Hn. unfold logged.
  destruct CACHE_DEBUG; cbn; by rewrite <- ?app_assoc.
Qed.

Lemma calls_cached_miss (name fk : string) (t dbg : list Event) (v : CVal)
    (duration : option Z) :
  (forall e, e ∈ dbg -> exists msg, e = LogDebug msg) ->
  calls name (t ++ [CacheGet fk] ++ dbg ++ [FunctionCall name; CacheSet fk v duration])
  = calls name t + 1.
Proof.
  intros Hdbg. rewrite !calls_app. unfold calls at 2 4. cbn.
  rewrite String.eqb_refl. cbn.
  assert (calls name dbg = 0) as ->; [| lia].
  induction dbg as [|e dbg IH]; [done |].
  destruct (Hdbg e) as [msg ->]; [by left |].
  unfold calls in *. cbn. apply IH. intros e' He'. apply Hdbg. by right.
Qed.

Lemma cached_none_step (function : Callable) (key_ : string) (duration : option Z)
    (w : World) :
  (forall c d, (fn_body function c d).1.1 = Ok CNone) ->
  is_none (lookup_default (_function_cache_key key_) (cache w)) = true ->
  exists w',
    cached function key_ duration w = (Ok CNone, w')
    /\ is_none (lookup_default (_function_cache_key key_) (cache w')) = true
    /\ calls (fn_name function) (trace w') = calls (fn_name function) (trace w) + 1.
Proof.
  intros Hnone Hn.
  destruct (fn_body function (cache w) (db w)) as [[r c] d] eqn:Hf.
  specialize (Hnone (cache w) (db w)). rewrite Hf in Hnone. cbn in Hnone. subst r.
  eexists. split; [by apply cached_miss |]. cbn [cache trace]. split.
  - unfold lookup_default. by rewrite lookup_insert_eq.
  - apply calls_cached_miss. intros e He.
    destruct CACHE_DEBUG; [| by apply elem_of_nil in He].
    apply list_elem_of_singleton in He as ->. by eexists.
Qed.

Lemma cached_with_identity (obj : PyObject) (f : Callable) (f_key : string)
    (tmo : option Z) (key fl : string) (w : World) :
  identity obj = Some (key, fl) ->
  cached_with obj f f_key tmo w
  = cached f (f_key ++ ":" ++ key) tmo
      (registered {[ fl := {[ _function_cache_key (f_key ++ ":" ++ key) ]} ]} w).
Proof.
  intros Hid. destruct obj as [qs | o | cm | r | items]; try done.
  - cbn in Hid. destruct (as_sql (qs_query qs)) as [sql|] eqn:Hsql; [| done].
    injection Hid as <- <-.
    unfold cached_with, object_key, object_flush_key, CachingQuerySet.flush_key,
      CachingQuerySet.query_key, add_to_flush_list, try_except, bind, lift, emit,
      update_cache, ret.
    rewrite Hsql. reflexivity.
  - cbn in Hid. destruct (cache_key o) as [own|] eqn:Hown; [| done].
    injection Hid as <- <-.
    assert (Hmix : cls_mixin (o_class o) = true).
    { unfold cache_key in Hown. by destruct (cls_mixin (o_class o)). }
    unfold cached_with, object_key, object_flush_key, add_to_flush_list,
      try_except, bind, lift, emit, update_cache, ret.
    rewrite Hown, Hmix. reflexivity.
Qed.

Lemma cached_with_none_step (obj : PyObject) (function : Callable)
    (key_ key fl : string) (duration : option Z) (w : World) :
  (forall c d, (fn_body function c d).1.1 = Ok CNone) ->
  identity obj = Some (key, fl) ->
  let fk := _function_cache_key (key_ ++ ":" ++ key) in
  (forall c, is_none (lookup_default fk c) = true ->
             is_none (lookup_default fk
                        (inv_add_to_flush_list {[ fl := {[ fk ]} ]} c)) = true) ->
  is_none (lookup_default fk (cache w)) = true ->
  exists w',
    cached_with obj function key_ duration w = (Ok CNone, w')
    /\ is_none (lookup_default fk (cache w')) = true
    /\ calls (fn_name function) (trace w') = calls (fn_name function) (trace w) + 1.
Proof.
  intros Hnone Hid fk Hreg Hn.
  rewrite (cached_with_identity obj function key_ duration key fl w Hid).
  destruct (cached_none_step function (key_ ++ ":" ++ key) duration
              (registered {[ fl := {[ fk ]} ]} w) Hnone) as (w' & Hrun & Hn' & Hc).
  { cbn [registered cache]. by apply Hreg. }
  exists w'. split; [done |]. split; [done |].
  rewrite Hc. cbn [registered trace]. rewrite calls_app. unfold calls at 2. cbn. lia.
Qed.

(** C10.  [cached] takes the answer [None] of [cache.get] for a miss,
    whether the key is absent or holds [None].  So when the function
    returns [None], the value [cache.set] stores reads as a miss again:
    each of [n] calls in a row calls the function and returns [None],
    where a stored value other than [None] is served without a call.
    The same holds for [cached_with] on an object with an identity, and
    for a cached method called through fresh wrappers, whose external
    layer is [cached_with] (the dictionary of one wrapper does hold on
    to [None]).  Registering the function key in a flush list is taken
    not to store a value under the function key. *)
Theorem none_results_are_never_served (function : Callable) :
  (forall c d, (fn_body function c d).1.1 = Ok CNone) ->
  (forall (key_ : string) (duration : option Z) (w : World) (n : nat),
      is_none (lookup_default (_function_cache_key key_) (cache w)) = true ->
      exists wn,
        times n (cached function key_ duration) w = (Ok (replicate n CNone), wn)
        /\ is_none (lookup_default (_function_cache_key key_) (cache wn)) = true
        /\ calls (fn_name function) (trace wn) = calls (fn_name function) (trace w) + n)
  /\ (forall (key_ : string) (duration : option Z) (w : World),
      is_none (lookup_default (_function_cache_key key_) (cache w)) = false ->
      exists evs,
        cached function key_ duration w
        = (Ok (lookup_default (_function_cache_key key_) (cache w)), logged evs w)
        /\ calls (fn_name function) evs = 0)
  /\ (forall (obj : PyObject) (key_ key fl : string) (duration : option Z)
        (w : World) (n : nat),
      identity obj = Some (key, fl) ->
      let fk := _function_cache_key (key_ ++ ":" ++ key) in
      (forall c, is_none (lookup_default fk c) = true ->
                 is_none (lookup_default fk
                            (inv_add_to_flush_list {[ fl := {[ fk ]} ]} c)) = true) ->
      is_none (lookup_default fk (cache w)) = true ->
      exists wn,
        times n (cached_with obj function key_ duration) w
        = (Ok (replicate n CNone), wn)
        /\ is_none (lookup_default fk (cache wn)) = true
        /\ calls (fn_name function) (trace wn)
           = calls (fn_name function) (trace w) + n)
  /\ (forall (obj : Obj) (func : Method) (args : list Arg)
        (kwargs : list (string * Arg)) (own : string) (w : World) (n : nat),
      function = MethodWrapper.partial func obj args kwargs ->
      cache_key obj = Ok own ->
      let key := MethodWrapper.call_key own func args kwargs in
      let fk := _function_cache_key (key ++ ":" ++ own) in
      let used := {| mw_obj := obj; mw_func := func; local := {[ key := CNone ]} |} in
      (forall c, is_none (lookup_default fk c) = true ->
                 is_none (lookup_default fk
                            (inv_add_to_flush_list
                               {[ flush_key (KeyObj obj) := {[ fk ]} ]} c)) = true) ->
      is_none (lookup_default fk (cache w)) = true ->
      (exists wn,
          times n (MethodWrapper.__call__ (MethodWrapper.__init__ obj func) args kwargs) w
          = (Ok (replicate n (CNone, used)), wn)
          /\ calls (fn_name function) (trace wn)
             = calls (fn_name function) (trace w) + n)
      /\ MethodWrapper.__call__ used args kwargs w = (Ok (CNone, used), w)).
Proof.
  intros Hnone. split; [| split; [| split]].
  - intros key_ duration w n Hn.
    apply (times_invariant (cached function key_ duration) CNone
             (fun w => is_none (lookup_default (_function_cache_key key_) (cache w)) = true)
             (fun w => calls (fn_name function) (trace w))); [| done].
    intros w0 Hn0. by apply cached_none_step.
  - intros key_ duration w Hn. eexists. split; [by apply cached_hit |].
    unfold calls. by destruct CACHE_DEBUG.
  - intros obj key_ key fl duration w n Hid fk Hreg Hn.
    apply (times_invariant (cached_with obj function key_ duration) CNone
             (fun w => is_none (lookup_default fk (cache w)) = true)
             (fun w => calls (fn_name function) (trace w))); [| done].
    intros w0 Hn0. by apply (cached_with_none_step obj function key_ key fl).
  - intros obj func args kwargs own w n Hf Hown key fk used Hreg Hn. split.
    + destruct (times_invariant
                  (MethodWrapper.__call__ (MethodWrapper.__init__ obj func) args kwargs)
                  (CNone, used)
                  (fun w => is_none (lookup_default fk (cache w)) = true)
                  (fun w => calls (fn_name function) (trace w))) with (n := n) (w := w)
        as (wn & Hrun & _ & Hc); [| done | by exists wn].
      intros w0 Hn0.
      destruct (cached_with_none_step (OInstance obj) function key own
                  (flush_key (KeyObj obj)) None w0 Hnone) as (w' & Hrun & Hn' & Hc);
        [by cbn; rewrite Hown | exact Hreg | exact Hn0 |].
      exists w'. split; [| done].
      unfold MethodWrapper.__call__, MethodWrapper.__init__.
      cbn [mw_obj mw_func local]. unfold bind at 1. unfold lift at 1.
      rewrite Hown. fold key. rewrite lookup_empty. unfold bind at 1.
      rewrite <- Hf, Hrun. unfold ret, used. by rewrite insert_empty.
    + unfold MethodWrapper.__call__, used. cbn [mw_obj mw_func local].
      unfold bind at 1. unfold lift at 1. rewrite Hown. fold key.
      by rewrite lookup_singleton_eq.
Qed.

End NoneResults.

Section SampleNone.
#[local] Existing Instance Sample.relational.
#[local] Existing Instance Sample.printing.
#[local] Existing Instance SpecInvalidation.invalidation.
#[local] Existing Instance Sample.settings.
#[local] Existing Instance Sample.formatting.

(** Memoizing [nothing] on widget 1: three calls, three computations. *)
Lemma none_results_are_never_served_witness :
  exists wn : World,
    times 3 (cached_with (OInstance Sample.w1) Sample.nothing "score" None) Sample.world0
    = (Ok [CNone; CNone; CNone], wn)
    /\ calls "nothing" (trace wn) = 3.
Proof.
  destruct (none_results_are_never_served Sample.nothing) as (_ & _ & H & _);
    [reflexivity |].
  destruct (H (OInstance Sample.w1) "score" "o:app.widget:1" "flush:o:app.widget:1"
              None Sample.world0 3 eq_refl) as (wn & Hrun & _ & Hcalls).
  - intros c Hc. unfold lookup_default.
    change (@inv_add_to_flush_list SpecInvalidation.invalidation)
      with SpecInvalidation.add_to_flush_list.
    rewrite add_to_flush_list_other; [exact Hc |].
    apply lookup_singleton_ne. discriminate.
  - reflexivity.
  - exists wn. split; [exact Hrun | exact Hcalls].
Defined.

End SampleNone.

(** * Further properties *)

(** ** The hooks on objects that do not take part, and their errors *)

Section HookEdges.
Context {R : Relational} {I : Invalidation} {S : Settings}.

Lemma gather_keys_keys_of (objects : list Obj) :
  CachingManager.gather_keys objects = keys_of objects.
Proof.
  unfold keys_of. induction objects as [|o objects IH]; [reflexivity |].
  cbn [CachingManager.gather_keys List.filter].
  destruct (cls_mixin (o_class o)); [| exact IH].
  cbn [CachingQuerySet.mapR]. rewrite IH.
  destruct (_cache_keys o) as [ks|e]; [| reflexivity]. cbn [rbind].
  by destruct (CachingQuerySet.mapR _cache_keys _).
Qed.

Lemma invalidate_run (self : CachingManager) (objects : list Obj) (w : World) :
  CachingManager.invalidate self objects w
  = match keys_of objects with
    | Ok [] => (Ok tt, w)
    | Ok keys =>
        (Ok tt, {| cache := inv_invalidate_keys keys (cache w); db := db w;
                   trace := trace w ++ [InvalidateKeys keys] |})
    | Raise e => (Raise e, w)
    end.
Proof.
  unfold CachingManager.invalidate, bind, lift. rewrite gather_keys_keys_of.
  by destruct (keys_of objects) as [[|k keys]|e].
Qed.

(** X1. [invalidate] skips the objects without [_cache_keys] and
    passes the keys of the others, in the order of the objects, to the
    invalidator in a single call; with no key at all it makes no call.
    An object whose keys cannot be derived makes it raise before any
    call. *)
Theorem invalidate_makes_one_call (self : CachingManager) (objects : list Obj)
    (w : World) :
  CachingManager.invalidate self objects w
  = match keys_of objects with
    | Ok [] => (Ok tt, w)
    | Ok keys =>
        (Ok tt, {| cache := inv_invalidate_keys keys (cache w); db := db w;
                   trace := trace w ++ [InvalidateKeys keys] |})
    | Raise e => (Raise e, w)
    end.
Proof. apply invalidate_run. Qed.

Lemma keys_of_outsiders (objects : list Obj) :
  Forall (fun o => cls_mixin (o_class o) = false) objects ->
  keys_of objects = Ok [].
Proof.
  intros Hall. unfold keys_of.
  assert (List.filter (fun o => cls_mixin (o_class o)) objects = []) as ->; [| done].
  induction Hall as [|o objects Ho _ IH]; [done |]. cbn. by rewrite Ho.
Qed.

(** X2. For an instance of a class without the mixin, [post_delete]
    and [post_save] of an update do nothing at all, while [post_save]
    of a create still calls [invalidator.clear()]. *)
Theorem post_hooks_on_outsider (self : CachingManager) (instance : Obj) (w : World) :
  cls_mixin (o_class instance) = false ->
  CachingManager.post_delete self instance w = (Ok tt, w)
  /\ CachingManager.post_save self instance false w = (Ok tt, w)
  /\ CachingManager.post_save self instance true w
     = (Ok tt, {| cache := inv_clear (cache w); db := db w;
                  trace := trace w ++ [Clear] |}).
Proof.
  intros Hmix.
  assert (Hinv : CachingManager.invalidate self [instance] w = (Ok tt, w)).
  { rewrite invalidate_run, keys_of_outsiders; [done |].
    by constructor. }
  split; [exact Hinv |].
  unfold CachingManager.post_save, bind. rewrite Hinv. by split.
Qed.

(** X3. [m2m_changed] acts on the actions that begin with [post]
    only.  For them it flushes the keys of the instance, its own and
    those of the records it references, in one call of the invalidator
    (none for an instance without [_cache_keys]); for every other
    action, the [pre_] notifications among them, it does nothing. *)
Theorem m2m_changed_on_post_only (self : CachingManager) (instance : Obj)
    (action : string) (w : World) :
  (String.substring 0 4 action <> "post" ->
   CachingManager.m2m_changed self instance action w = (Ok tt, w))
  /\ (String.substring 0 4 action = "post" ->
      CachingManager.m2m_changed self instance action w
      = match keys_of [instance] with
        | Ok [] => (Ok tt, w)
        | Ok keys =>
            (Ok tt, {| cache := inv_invalidate_keys keys (cache w); db := db w;
                       trace := trace w ++ [InvalidateKeys keys] |})
        | Raise e => (Raise e, w)
        end).
Proof.
  unfold CachingManager.m2m_changed. split; intros Ha.
  - apply String.eqb_neq in Ha. by rewrite Ha.
  - apply String.eqb_eq in Ha. rewrite Ha. apply invalidate_run.
Qed.

(** X4. For a model with the mixin, [invalidate_model] flushes the
    model key through the invalidator and then deletes the set of
    watched columns: afterwards the store holds nothing under
    [cols:<model key>], and every other key is as the invalidator left
    it. *)
Theorem invalidate_model_forgets_columns (self : CachingManager) (w : World) :
  cls_mixin (model self) = true ->
  let mk := _model_key (model self) in
  exists w',
    CachingManager.invalidate_model self w = (Ok tt, w')
    /\ cache w' !! ("cols:" ++ mk) = None
    /\ (forall k, k <> "cols:" ++ mk ->
                  cache w' !! k = inv_invalidate_keys [mk] (cache w) !! k)
    /\ db w' = db w
    /\ List.filter invalidating (drop (length (trace w)) (trace w'))
       = [InvalidateKeys [mk]; CacheDelete ("cols:" ++ mk)].
Proof.
  intros Hmix mk. exists (model_invalidated (model self) w).
  split; [by apply invalidate_model_ok |].
  unfold model_invalidated. cbn [cache db trace]. fold mk.
  split; [apply lookup_delete_eq |].
  split; [intros k Hk; by apply lookup_delete_ne |]. split; [done |].
  rewrite drop_app_length. by destruct CACHE_DEBUG.
Qed.

(** X5. [pre_save] returns at once, with no query and no call of the
    invalidator, when the save is a fixture load ([raw]), whatever the
    instance, and when the default manager of the class has no
    [invalidate_model]. *)
Theorem pre_save_skips (self : CachingManager) (sender : ModelClass)
    (instance : Obj) (w : World) :
  CachingManager.pre_save self sender instance true w = (Ok tt, w)
  /\ (forall id,
        getattr instance "id" = Some id ->
        cls_objects_caching (o_class instance) = false ->
        CachingManager.pre_save self sender instance false w = (Ok tt, w)).
Proof.
  split; [reflexivity |]. intros id Hid Hobjects.
  unfold CachingManager.pre_save, attr, bind, lift. rewrite Hid. cbn [of_option].
  destruct (truthy id); [| reflexivity]. cbn [negb]. by rewrite Hobjects.
Qed.

(** X6. When the instance carries an id, [pre_save] looks the record
    up before anything else, so it raises [DoesNotExist] if no row has
    that primary key (a new record saved with a chosen key) and
    [MultipleObjectsReturned] if several have; for an instance whose
    class lacks the mixin it raises [AttributeError] at [model_key]
    once the row is fetched.  In each case the watched columns are not
    read and nothing is invalidated. *)
Theorem pre_save_errors (self : CachingManager) (sender : ModelClass)
    (instance : Obj) (id : PyVal) (w : World) :
  getattr instance "id" = Some id ->
  truthy id = true ->
  cls_objects_caching (o_class instance) = true ->
  let cls := o_class instance in
  let lookup := exact_pk (CachingManager.no_cache (MkManager cls)) id in
  let fetched :=
    logged [IterFunctionCall (SuperIterator (qs_query lookup));
            DbExecute (qs_query lookup)]
      (registered (CachingQuerySet.get_constraints lookup) w) in
  (execute (qs_query lookup) (db w) = [] ->
   CachingManager.pre_save self sender instance false w = (Raise DoesNotExist, fetched))
  /\ (forall o o' rest,
        execute (qs_query lookup) (db w) = o :: o' :: rest ->
        CachingManager.pre_save self sender instance false w
        = (Raise MultipleObjectsReturned, fetched))
  /\ (forall orig,
        execute (qs_query lookup) (db w) = [orig] ->
        cls_mixin cls = false ->
        CachingManager.pre_save self sender instance false w
        = (Raise AttributeError, fetched)).
Proof.
  intros Hid Htrue Hobjects cls lookup fetched.
  assert (Hstart : CachingManager.pre_save self sender instance false w
            = match execute (qs_query lookup) (db w) with
              | [orig] =>
                  (model_key <- lift (model_key instance) ;;
                   flush_cols <- get_flush_lists ["cols:" ++ model_key] ;;
                   if Nat.eqb (length flush_cols) 0 then ret tt
                   else CachingManager.compare_cols (MkManager cls) orig instance
                          flush_cols) fetched
              | [] => (Raise DoesNotExist, fetched)
              | _ => (Raise MultipleObjectsReturned, fetched)
              end).
  { unfold CachingManager.pre_save, attr. unfold bind at 1. unfold lift at 1.
    rewrite Hid. cbn [of_option]. rewrite Htrue. cbn [negb].
    rewrite Hobjects. cbn [negb]. unfold bind at 1.
    rewrite (get_no_cache (CachingManager.no_cache (MkManager cls)) id w eq_refl).
    subst fetched lookup cls.
    by destruct (execute _ (db w)) as [|o [|o' rest]]. }
  split; [| split].
  - intros Hrows. by rewrite Hstart, Hrows.
  - intros o o' rest Hrows. by rewrite Hstart, Hrows.
  - intros orig Hrows Hmix. rewrite Hstart, Hrows.
    unfold model_key. fold cls. by rewrite Hmix.
Qed.

End HookEdges.

Section SampleHooks.
#[local] Existing Instance Sample.relational.
#[local] Existing Instance SpecInvalidation.invalidation.
#[local] Existing Instance Sample.settings.

Lemma post_hooks_on_outsider_witness :
  CachingManager.post_delete (MkManager Sample.Gadget) Sample.gadget Sample.world1
  = (Ok tt, Sample.world1)
  /\ CachingManager.post_save (MkManager Sample.Gadget) Sample.gadget false Sample.world1
     = (Ok tt, Sample.world1)
  /\ CachingManager.post_save (MkManager Sample.Gadget) Sample.gadget true Sample.world1
     = (Ok tt, {| cache := inv_clear (cache Sample.world1); db := db Sample.world1;
                  trace := trace Sample.world1 ++ [Clear] |}).
Proof.
  apply (post_hooks_on_outsider (MkManager Sample.Gadget) Sample.gadget Sample.world1).
  reflexivity.
Defined.

Lemma m2m_changed_on_post_only_witness :
  CachingManager.m2m_changed (MkManager Sample.Widget) Sample.w1 "pre_add" Sample.world1
  = (Ok tt, Sample.world1)
  /\ CachingManager.m2m_changed (MkManager Sample.Widget) Sample.w1 "post_add"
       Sample.world1
     = (Ok tt,
        {| cache := inv_invalidate_keys ["o:app.widget:1"; "o:app.owner:7"]
                      (cache Sample.world1);
           db := db Sample.world1;
           trace := trace Sample.world1
                    ++ [InvalidateKeys ["o:app.widget:1"; "o:app.owner:7"]] |}).
Proof.
  split.
  - apply (proj1 (m2m_changed_on_post_only (MkManager Sample.Widget) Sample.w1
                    "pre_add" Sample.world1)).
    discriminate.
  - apply (proj2 (m2m_changed_on_post_only (MkManager Sample.Widget) Sample.w1
                    "post_add" Sample.world1)).
    reflexivity.
Defined.

Lemma invalidate_model_forgets_columns_witness :
  exists w',
    CachingManager.invalidate_model (MkManager Sample.Widget) Sample.world1 = (Ok tt, w')
    /\ cache w' !! "cols:m:app.widget" = None
    /\ cache Sample.world1 !! "cols:m:app.widget" <> None.
Proof.
  destruct (invalidate_model_forgets_columns (MkManager Sample.Widget) Sample.world1
              eq_refl) as (w' & Hrun & Hcols & _).
  exists w'. split; [exact Hrun |]. split; [exact Hcols |].
  vm_compute. discriminate.
Defined.

Lemma pre_save_skips_witness :
  CachingManager.pre_save (MkManager Sample.Widget) Sample.Widget
    (Sample.widget 1 (PInt 7) "green") true Sample.world1 = (Ok tt, Sample.world1)
  /\ CachingManager.pre_save (MkManager Sample.Owner) Sample.OwnerElsewhere
       {| o_class := Sample.OwnerElsewhere; o_attrs := {[ "id" := PInt 7 ]};
          from_cache := None |} false Sample.world1
     = (Ok tt, Sample.world1).
Proof.
  split.
  - apply (proj1 (pre_save_skips (MkManager Sample.Widget) Sample.Widget
                    (Sample.widget 1 (PInt 7) "green") Sample.world1)).
  - apply (proj2 (pre_save_skips (MkManager Sample.Owner) Sample.OwnerElsewhere
                    {| o_class := Sample.OwnerElsewhere; o_attrs := {[ "id" := PInt 7 ]};
                       from_cache := None |} Sample.world1) (PInt 7)).
    + reflexivity.
    + reflexivity.
Defined.

Lemma pre_save_errors_witness :
  fst (CachingManager.pre_save (MkManager Sample.Widget) Sample.Widget
         (Sample.widget 9 PNone "red") false Sample.world1) = Raise DoesNotExist
  /\ fst (CachingManager.pre_save (MkManager Sample.Gadget) Sample.Gadget
            Sample.gadget false
            (MkWorld (R := Sample.relational) ∅ [Sample.gadget] [])) = Raise AttributeError.
Proof.
  split.
  - rewrite (proj1 (pre_save_errors (MkManager Sample.Widget) Sample.Widget
                      (Sample.widget 9 PNone "red") (PInt 9) Sample.world1
                      eq_refl eq_refl eq_refl)); reflexivity.
  - rewrite (proj2 (proj2 (pre_save_errors (MkManager Sample.Gadget) Sample.Gadget
                      Sample.gadget (PInt 1)
                      (MkWorld (R := Sample.relational) ∅ [Sample.gadget] [])
                      eq_refl eq_refl eq_refl)) Sample.gadget); reflexivity.
Defined.

End SampleHooks.

(** ** Object keys of integer primary keys *)

Lemma append_cancel (s t u : string) : s ++ t = s ++ u -> t = u.
Proof.
  induction s as [|a s IH]; [done |]. rewrite !append_cons. intros [= H]. auto.
Qed.

Lemma occurs_append (c : Ascii.ascii) (s t : string) :
  occurs c (s ++ t) = occurs c s || occurs c t.
Proof.
  induction s as [|a s IH]; [done |].
  rewrite append_cons. cbn [occurs]. rewrite IH. by rewrite orb_assoc.
Qed.

Lemma occurs_pretty_N_go (x : N) (s : string) :
  occurs colon (pretty_N_go x s) = occurs colon s.
Proof.
  revert s. induction (N.lt_wf_0 x) as [x _ IH]; intros s.
  assert (x = 0 \/ 0 < x)%N as [-> | Hx] by lia.
  - by rewrite pretty_N_go_0.
  - rewrite pretty_N_go_step by done. rewrite IH by (by apply N.div_lt).
    cbn [occurs]. unfold pretty_N_char. by repeat case_match.
Qed.

Lemma occurs_pretty_Z (z : Z) : occurs colon (pretty z) = false.
Proof.
  destruct z as [|p|p]; [done | |].
  - change (pretty (Z.pos p)) with (pretty (N.pos p)). unfold pretty, pretty_N.
    case_decide; [done |]. by rewrite occurs_pretty_N_go.
  - change (pretty (Z.neg p)) with ("-" ++ pretty (N.pos p)).
    rewrite occurs_append. cbn [occurs orb Ascii.eqb]. unfold pretty, pretty_N.
    case_decide; [done |]. by rewrite occurs_pretty_N_go.
Qed.

(** The text after the last colon determines the split. *)
Lemma split_at_last_colon (s1 s2 d1 d2 : string) :
  occurs colon d1 = false -> occurs colon d2 = false ->
  s1 ++ ":" ++ d1 = s2 ++ ":" ++ d2 ->
  s1 = s2 /\ d1 = d2.
Proof.
  assert (Hin : forall s d, occurs colon (s ++ String colon d) = true).
  { intros s d. rewrite occurs_append. cbn. by rewrite orb_true_r. }
  intros H1 H2. revert s2.
  induction s1 as [|a s1 IH]; intros [|b s2] Heq;
    change (String.append ":" ?d) with (String colon d) in Heq;
    change (String.append "" ?d) with d in Heq.
  - split; [done |]. by injection Heq.
  - exfalso. rewrite append_cons in Heq. injection Heq as _ Heq.
    rewrite Heq, Hin in H1. done.
  - exfalso. rewrite append_cons in Heq. injection Heq as _ Heq.
    rewrite <- Heq, Hin in H2. done.
  - rewrite !append_cons in Heq. injection Heq as -> Heq.
    destruct (IH s2 Heq) as [-> ->]. done.
Qed.

(** X7. With integer primary keys the object key identifies the
    record: two keys are equal only if the classes print the same label
    [app_label.module_name] and the primary keys are the same number.
    So no two rows of a table, and no two rows of tables with different
    labels, share a cache entry. *)
Theorem integer_keys_identify_records (cls cls' : ModelClass) (a b : Z) :
  _cache_key cls (PInt a) = _cache_key cls' (PInt b) ->
  smart_unicode (KMeta (cls__meta cls)) = smart_unicode (KMeta (cls__meta cls'))
  /\ a = b.
Proof.
  unfold _cache_key. cbv zeta. cbn [map]. rewrite !join3.
  cbn [smart_unicode]. intros Heq.
  apply (append_cancel "o:") in Heq.
  rewrite <- !(append_assoc _ "." _) in Heq.
  apply split_at_last_colon in Heq as [Hlabel Hpk]; try apply occurs_pretty_Z.
  split; [by rewrite !append_assoc in Hlabel |].
  by apply (inj pretty).
Qed.

Lemma integer_keys_identify_records_witness :
  smart_unicode (KMeta (cls__meta Sample.OwnerElsewhere))
  = smart_unicode (KMeta (cls__meta Sample.Owner))
  /\ 7%Z = 7%Z.
Proof.
  apply (integer_keys_identify_records Sample.OwnerElsewhere Sample.Owner 7 7).
  reflexivity.
Defined.

(** ** Memoized functions: round trips and failures *)

Section MemoEdges.
Context {R : Relational} {I : Invalidation} {S : Settings} {Pr : Printing}
  {F : Formatting}.

(** X8. [cached] memoizes by key alone.  After a miss that computes a
    value other than [None], every later call under the same key
    returns that value without calling its function, whichever function
    and duration it is given, as long as the store holds the entry. *)
Theorem cached_round_trip (function : Callable) (key_ : string)
    (duration : option Z) (w : World) (v : CVal) (c : gmap string CVal) (d : DB) :
  is_none (lookup_default (_function_cache_key key_) (cache w)) = true ->
  fn_body function (cache w) (db w) = (Ok v, c, d) ->
  is_none v = false ->
  exists w1,
    cached function key_ duration w = (Ok v, w1)
    /\ cache w1 = <[_function_cache_key key_ := v]> c
    /\ forall (other : Callable) (duration' : option Z) (w2 : World),
         cache w2 !! _function_cache_key key_ = Some v ->
         exists evs,
           cached other key_ duration' w2 = (Ok v, logged evs w2)
           /\ List.filter (fun e => match e with FunctionCall _ => true | _ => false end)
                evs = []
           /\ List.filter (fun e => match e with CacheSet _ _ _ => true | _ => false end)
                evs = [].
Proof.
  intros Hmiss Hf Hv. eexists. split; [by apply cached_miss |].
  cbn [cache]. split; [done |]. intros other duration' w2 Hw2.
  assert (Hl : lookup_default (_function_cache_key key_) (cache w2) = v).
  { unfold lookup_default. by rewrite Hw2. }
  eexists. split.
  - rewrite cached_hit by (by rewrite Hl). by rewrite Hl.
  - by destruct CACHE_DEBUG.
Qed.

(** X9. When the memoized function raises, [cached] lets the exception
    through and stores nothing: the run makes no [cache.set], and the
    store is as the function left it. *)
Theorem cached_failure_stores_nothing (function : Callable) (key_ : string)
    (duration : option Z) (w : World) (e : Exn) (c : gmap string CVal) (d : DB) :
  is_none (lookup_default (_function_cache_key key_) (cache w)) = true ->
  fn_body function (cache w) (db w) = (Raise e, c, d) ->
  exists evs,
    cached function key_ duration w
    = (Raise e, {| cache := c; db := d; trace := trace w ++ evs |})
    /\ List.filter (fun e => match e with CacheSet _ _ _ => true | _ => false end)
         evs = []
    /\ calls (fn_name function) evs = 1.
Proof.
  intros Hmiss Hf.
  exists ([CacheGet (_function_cache_key key_)]
          ++ (if CACHE_DEBUG
              then [LogDebug ("cache miss for " ++ _function_cache_key key_)%string]
              else [])
          ++ [FunctionCall (fn_name function)])%list.
  split.
  - unfold cached, cache_get, call, log_debug, read_cache, bind, emit, ret.
    cbn [cache db trace]. rewrite Hmiss.
    destruct CACHE_DEBUG; cbn [cache db trace]; rewrite Hf; cbn;
      by rewrite <- !app_assoc.
  - unfold calls. destruct CACHE_DEBUG; cbn; by rewrite String.eqb_refl.
Qed.

(** X10. [cached_with] catches [AttributeError] around the derivation of
    the key only.  For a queryset whose query does not compile the
    [EmptyResultSet] of [query_key] propagates, and for a
    [CacheMachine], which has [query_key] but no [flush_key], the
    [AttributeError] of the call [obj.flush_key()] propagates after the
    machine has noted its SQL text; in both cases the function is not
    called and no warning is logged. *)
Theorem cached_with_propagates (f : Callable) (f_key : string) (tmo : option Z)
    (w : World) :
  (forall qs, as_sql (qs_query qs) = None ->
              cached_with (OQuerySet qs) f f_key tmo w = (Raise EmptyResultSet, w))
  /\ (forall cm,
        cached_with (OMachine cm) f f_key tmo w
        = (Raise AttributeError,
           {| cache := noted cm (cache w); db := db w;
              trace := trace w ++ [note cm] |})).
Proof.
  split.
  - intros qs Hsql.
    unfold cached_with, object_key, CachingQuerySet.query_key, try_except, bind, lift.
    by rewrite Hsql.
  - intros cm. reflexivity.
Qed.

(** X11. [count] derives the query key before anything else, also when
    [CACHE_COUNT_TIMEOUT] is not set: for a query that does not compile
    it raises [EmptyResultSet] without counting and without touching
    the cache. *)
Theorem count_of_uncompilable_query (self : CachingQuerySet) (w : World) :
  as_sql (qs_query self) = None ->
  CachingQuerySetCount.count self w = (Raise EmptyResultSet, w).
Proof.
  intros Hsql. unfold CachingQuerySetCount.count, CachingQuerySet.query_key, bind, lift.
  by rewrite Hsql.
Qed.

(** X12. With [CACHE_COUNT_TIMEOUT] set, [count] is memoized under the
    function key of [count:<sql>:<sql>].  The first call counts the
    rows and stores the number; every later call on a store that still
    holds the entry returns that number without counting, whatever the
    rows are by then.  Registering the function key in a flush list is
    taken not to store a value under the function key. *)
Theorem count_is_memoized (self : CachingQuerySet) (sql : string) (t : Z)
    (w : World) :
  CACHE_COUNT_TIMEOUT = Some t ->
  as_sql (qs_query self) = Some sql ->
  let fk := _function_cache_key (("count:" ++ sql) ++ ":" ++ sql) in
  let fl := flush_key (KeyStr sql) in
  let n := CScalar (PInt (count_rows (qs_query self) (db w))) in
  (forall c, inv_add_to_flush_list {[ fl := {[ fk ]} ]} c !! fk = c !! fk) ->
  cache w !! fk = None ->
  exists w1,
    CachingQuerySetCount.count self w = (Ok n, w1)
    /\ cache w1 !! fk = Some n
    /\ calls "count" (trace w1) = calls "count" (trace w) + 1
    /\ forall w2, cache w2 !! fk = Some n ->
         exists w3,
           CachingQuerySetCount.count self w2 = (Ok n, w3)
           /\ calls "count" (trace w3) = calls "count" (trace w2)
           /\ db w3 = db w2.
Proof.
  intros Ht Hsql fk fl n Hframe Hnone.
  assert (Hcount : forall w0, CachingQuerySetCount.count self w0
            = cached (CachingQuerySetCount.super_count self)
                (("count:" ++ sql) ++ ":" ++ sql) (Some t)
                (registered {[ fl := {[ fk ]} ]} w0)).
  { intros w0. unfold CachingQuerySetCount.count, CachingQuerySet.query_key.
    rewrite Ht. unfold bind at 1. unfold lift at 1. rewrite Hsql. cbn [of_option].
    apply cached_with_identity. cbn. by rewrite Hsql. }
  eexists. split; [| split; [| split]].
  - rewrite Hcount. apply cached_miss; [| reflexivity].
    cbn [registered cache]. unfold lookup_default. fold fk.
    by rewrite Hframe, Hnone.
  - cbn [cache]. fold fk. apply lookup_insert_eq.
  - cbn [trace registered]. fold fk.
    change (fn_name (CachingQuerySetCount.super_count self)) with "count".
    rewrite (calls_cached_miss "count" fk).
    + rewrite calls_app. unfold calls at 2. cbn. lia.
    + intros e He. destruct CACHE_DEBUG; [| by apply elem_of_nil in He].
      apply list_elem_of_singleton in He as ->. by eexists.
  - intros w2 Hw2.
    assert (Hl : lookup_default fk (cache (registered {[ fl := {[ fk ]} ]} w2)) = n).
    { cbn [registered cache]. unfold lookup_default. by rewrite Hframe, Hw2. }
    eexists. split; [| split].
    + rewrite Hcount, cached_hit by (fold fk; by rewrite Hl). fold fk.
      by rewrite Hl.
    + unfold logged, registered. cbn [trace]. rewrite !calls_app.
      unfold calls at 2 3. destruct CACHE_DEBUG; cbn; lia.
    + reflexivity.
Qed.

(** X13. A method wrapper remembers what it returned: once a call has
    returned a value, the same wrapper returns it again for the same
    arguments in every world, without an effect.  The dictionary of the
    wrapper is not reached by invalidation, and it holds on to [None]
    as to any other value. *)
Theorem method_wrapper_remembers (self self' : MethodWrapper)
    (args : list Arg) (kwargs : list (string * Arg)) (v : CVal) (w w' : World) :
  MethodWrapper.__call__ self args kwargs w = (Ok (v, self'), w') ->
  forall w'', MethodWrapper.__call__ self' args kwargs w'' = (Ok (v, self'), w'').
Proof.
  unfold MethodWrapper.__call__. unfold bind at 1 3. unfold lift.
  destruct (cache_key (mw_obj self)) as [own|e] eqn:Hown; [| done].
  destruct (local self !! MethodWrapper.call_key own (mw_func self) args kwargs)
    as [val|] eqn:Hlocal.
  - intros [= <- <- <-] w''. by rewrite Hown, Hlocal.
  - unfold bind at 1.
    destruct (cached_with _ _ _ _ w) as [[val|e] w1]; [| done].
    intros [= <- <- <-] w''. cbn [mw_obj mw_func local]. rewrite Hown.
    by rewrite lookup_insert_eq.
Qed.

(** X14. A cached method of an object without [cache_key] cannot be
    called: the wrapper raises [AttributeError] while it builds the
    key, before the method runs.  [cached_with] alone, on the same
    object, falls back to the plain call when its warning text can be
    built. *)
Theorem method_wrapper_needs_cache_key (self : MethodWrapper)
    (args : list Arg) (kwargs : list (string * Arg)) (w : World) :
  cls_mixin (o_class (mw_obj self)) = false ->
  MethodWrapper.__call__ self args kwargs w = (Raise AttributeError, w)
  /\ forall msg,
       cannot_be_cached (OInstance (mw_obj self)) = Ok msg ->
       exists evs,
         (cached_with (OInstance (mw_obj self))
            (MethodWrapper.partial (mw_func self) (mw_obj self) args kwargs)
            "key" None w).2.(trace) = (trace w ++ evs)%list
         /\ calls (m_name (mw_func self)) evs = 1.
Proof.
  intros Hmix. split.
  - unfold MethodWrapper.__call__, cache_key, bind, lift. by rewrite Hmix.
  - intros msg Hmsg. exists [LogWarning msg; FunctionCall (m_name (mw_func self))].
    split.
    + rewrite cached_with_fallback by (cbn; done). rewrite Hmsg.
      unfold MethodWrapper.partial. cbn [fn_body fn_name].
      by destruct (m_body _ _ _ _ _ _) as [[r c] d].
    + unfold calls. cbn. by rewrite String.eqb_refl.
Qed.

End MemoEdges.

Section SampleMemo.
#[local] Existing Instance Sample.relational.
#[local] Existing Instance Sample.printing.
#[local] Existing Instance SpecInvalidation.invalidation.
#[local] Existing Instance Sample.settings.
#[local] Existing Instance Sample.formatting.

Lemma cached_round_trip_witness :
  exists w1,
    cached Sample.five "answer" None Sample.world0 = (Ok (CScalar (PInt 5)), w1)
    /\ exists evs,
         cached Sample.broken "answer" (Some 60%Z) w1
         = (Ok (CScalar (PInt 5)), logged evs w1).
Proof.
  destruct (cached_round_trip Sample.five "answer" None Sample.world0
              (CScalar (PInt 5)) ∅ Sample.rows eq_refl eq_refl eq_refl)
    as (w1 & Hrun & Hcache & Hlater).
  exists w1. split; [exact Hrun |].
  destruct (Hlater Sample.broken (Some 60%Z) w1) as (evs & Hhit & _).
  - rewrite Hcache. apply lookup_insert_eq.
  - by exists evs.
Defined.

Lemma cached_failure_stores_nothing_witness :
  exists evs,
    cached Sample.broken "answer" None Sample.world0
    = (Raise (Exception "broken"),
       MkWorld (R := Sample.relational) ∅ Sample.rows evs)
    /\ calls "broken" evs = 1.
Proof.
  destruct (cached_failure_stores_nothing Sample.broken "answer" None Sample.world0
              (Exception "broken") ∅ Sample.rows eq_refl eq_refl)
    as (evs & Hrun & _ & Hcalls).
  exists evs. split; [exact Hrun | exact Hcalls].
Defined.

Lemma cached_with_propagates_witness :
  cached_with (OQuerySet Sample.no_color) Sample.five "answer" None Sample.world0
  = (Raise EmptyResultSet, Sample.world0).
Proof.
  apply (proj1 (cached_with_propagates Sample.five "answer" None Sample.world0)
           Sample.no_color).
  reflexivity.
Defined.

Lemma count_of_uncompilable_query_witness :
  CachingQuerySetCount.count Sample.no_color Sample.world0
  = (Raise EmptyResultSet, Sample.world0).
Proof.
  apply (count_of_uncompilable_query Sample.no_color Sample.world0). reflexivity.
Defined.

Lemma method_wrapper_remembers_witness :
  exists (self' : MethodWrapper) (w' : World),
    MethodWrapper.__call__ (MethodWrapper.__init__ Sample.w1 Sample.census) [] []
      Sample.world0 = (Ok (CScalar (PInt 3), self'), w')
    /\ MethodWrapper.__call__ self' [] []
         (MkWorld (R := Sample.relational) ∅ [] [])
       = (Ok (CScalar (PInt 3), self'), MkWorld (R := Sample.relational) ∅ [] []).
Proof.
  eexists _, _. split.
  - vm_compute. reflexivity.
  - eapply (method_wrapper_remembers
              (MethodWrapper.__init__ Sample.w1 Sample.census) _ [] []
              (CScalar (PInt 3)) Sample.world0).
    vm_compute. reflexivity.
Defined.

Lemma method_wrapper_needs_cache_key_witness :
  MethodWrapper.__call__ (MethodWrapper.__init__ Sample.gadget Sample.census) [] []
    Sample.world0 = (Raise AttributeError, Sample.world0).
Proof.
  apply (method_wrapper_needs_cache_key
           (MethodWrapper.__init__ Sample.gadget Sample.census) [] [] Sample.world0).
  reflexivity.
Defined.

End SampleMemo.

Section SampleCount.
#[local] Existing Instance Sample.relational.
#[local] Existing Instance Sample.printing.
#[local] Existing Instance SpecInvalidation.invalidation.
#[local] Existing Instance Sample.debug_settings.

(** Two red widgets are counted once; the number is served again when
    the table is empty. *)
Lemma count_is_memoized_witness :
  exists w1,
    CachingQuerySetCount.count (Sample.by_color "red") Sample.world0
    = (Ok (CScalar (PInt 2)), w1)
    /\ exists w3,
         CachingQuerySetCount.count (Sample.by_color "red")
           (MkWorld (R := Sample.relational) (cache w1) [] [])
         = (Ok (CScalar (PInt 2)), w3)
         /\ calls "count" (trace w3) = 0.
Proof.
  destruct (count_is_memoized (R := Sample.relational)
              (I := SpecInvalidation.invalidation) (S := Sample.debug_settings)
              (Sample.by_color "red")
              "SELECT * FROM m:app.widget WHERE (color exact red)" 60 Sample.world0
              eq_refl eq_refl) as (w1 & Hrun & Hstored & _ & Hlater).
  - intros c.
    change (@inv_add_to_flush_list SpecInvalidation.invalidation)
      with SpecInvalidation.add_to_flush_list.
    apply add_to_flush_list_other, lookup_singleton_ne. discriminate.
  - reflexivity.
  - exists w1. split; [exact Hrun |].
    destruct (Hlater (MkWorld (R := Sample.relational) (cache w1) [] []) Hstored)
      as (w3 & Hagain & Hcalls & _).
    exists w3. split; [exact Hagain | exact Hcalls].
Defined.

End SampleCount.

(** ** Executions that fail, stop early, or go through a queryset *)

Section MachineEdges.
Context {R : Relational} {I : Invalidation} {S : Settings}.

Lemma collect_raise (cm : CacheMachine) (objects : gmap PyVal Obj) (e : Exn) :
  forall (pks : list PyVal) (to_cache : list Obj) (w : World) (fuel : nat),
    by_id_rows pks objects = Raise e -> length pks < fuel ->
    exists ys,
      collect fuel (IterMachine cm (GMiss (UById pks objects) to_cache)) w
      = (Raise e, logged (map Yield ys) w).
Proof.
  induction pks as [|pk pks IH]; intros to_cache w fuel Hl Hfuel; [done |].
  destruct fuel as [|fuel]; [cbn in Hfuel; lia |].
  rewrite collect_step, next_machine. cbn [CacheMachine.__iter__].
  cbn [by_id_rows] in Hl. destruct (objects !! pk) as [o|] eqn:Hpk.
  - rewrite (fetch_yield cm (UById (pk :: pks) objects) (UById pks objects) o to_cache w
              Logic.I)
      by (cbn; by rewrite Hpk).
    cbn [fst snd].
    destruct (by_id_rows pks objects) as [l|e'] eqn:Hrest; [done |].
    injection Hl as ->.
    destruct (IH (to_cache ++ [set_from_cache false o])%list
                (logged [Yield (set_from_cache false o)] w) fuel eq_refl)
      as (ys & ->); [cbn in Hfuel; lia |].
    exists (set_from_cache false o :: ys). by rewrite logged_app.
  - injection Hl as <-. exists []. rewrite logged_nil.
    unfold CacheMachine.fetch, bind. cbn [u_next lift u_pull]. by rewrite Hpk.
Qed.

(** X15. When the underlying iterator fails on a miss, at its start or
    at a later row ([fetch_by_id] raises [KeyError] for a primary key
    whose row it did not get), the exception reaches the caller after
    the rows before it have been yielded, and the handler of
    [StopIteration] does not run: the world is the one the iter
    function left, with the yields, so nothing is added under the query
    key and nothing is registered. *)
Theorem failed_miss_caches_nothing (cm : CacheMachine) (e : Exn) (w w2 : World) :
  is_none (lookup_default (machine_key cm) (cache w)) = true ->
  underlying (iter_function cm) (missed cm w) = (Raise e, w2) ->
  exists ys,
    list_ (IterMachine cm GStart) w = (Raise e, logged (map Yield ys) w2).
Proof.
  intros Hn Hu. unfold list_. unfold bind at 1.
  rewrite next_machine, (start_miss cm w Hn).
  unfold underlying in Hu. unfold bind in Hu.
  destruct (u_start (iter_function cm) (missed cm w)) as [[u|e'] w'] eqn:Hstart.
  - unfold lift in Hu. injection Hu as Hl <-.
    assert (Hs : started u) by by eapply u_start_started.
    rewrite (fetch_new cm _ u [] _ w' Hstart Hs).
    destruct u as [f | rows | pks objects |]; try done.
    cbn [u_list] in Hl. destruct pks as [|pk pks]; [done |].
    cbn [by_id_rows] in Hl. destruct (objects !! pk) as [o|] eqn:Hpk.
    + rewrite (fetch_yield cm (UById (pk :: pks) objects) (UById pks objects) o [] w'
                Logic.I)
        by (cbn; by rewrite Hpk).
      cbn [fst snd it_remaining CacheMachine.remaining u_remaining].
      destruct (by_id_rows pks objects) as [l|e'] eqn:Hrest; [done |].
      injection Hl as ->. unfold bind at 1.
      destruct (collect_raise cm objects e pks ([] ++ [set_from_cache false o])%list
                  (logged [Yield (set_from_cache false o)] w')
                  (Datatypes.S (length pks)) Hrest) as (ys & ->); [lia |].
      exists (set_from_cache false o :: ys). by rewrite logged_app.
    + injection Hl as <-. exists []. rewrite logged_nil.
      unfold CacheMachine.fetch, bind. cbn [u_next lift u_pull]. by rewrite Hpk.
  - injection Hu as <- <-. exists []. rewrite logged_nil.
    unfold CacheMachine.fetch, bind. cbn [u_next]. unfold bind. by rewrite Hstart.
Qed.

Lemma pull_miss (cm : CacheMachine) :
  forall (k : nat) (rows : list Obj) (u : UIter) (to_cache : list Obj) (w : World),
    started u -> u_list u = Ok rows -> k <= length rows ->
    exists u',
      pull k (IterMachine cm (GMiss u to_cache)) w
      = (Ok (map (set_from_cache false) (take k rows),
             IterMachine cm
               (GMiss u' (to_cache ++ map (set_from_cache false) (take k rows)))),
         logged (map Yield (map (set_from_cache false) (take k rows))) w)
      /\ started u' /\ u_list u' = Ok (drop k rows).
Proof.
  induction k as [|k IH]; intros rows u to_cache w Hs Hl Hk.
  - exists u. cbn. by rewrite app_nil_r, logged_nil.
  - destruct rows as [|o rows]; [cbn in Hk; lia |].
    destruct (u_pull_cons u o rows Hs Hl) as (u1 & Hp & Hs1 & Hl1).
    destruct (IH rows u1 (to_cache ++ [set_from_cache false o])%list
                (logged [Yield (set_from_cache false o)] w) Hs1 Hl1)
      as (u' & Hrun & Hs' & Hl'); [cbn in Hk; lia |].
    exists u'. split; [| done].
    cbn [pull]. unfold bind at 1. rewrite next_machine.
    cbn [CacheMachine.__iter__]. rewrite (fetch_yield cm u u1 o to_cache w Hs Hp).
    cbn [fst snd]. unfold bind at 1. rewrite Hrun. cbn [fst snd ret take map drop].
    by rewrite logged_app, <- app_assoc.
Qed.

(** X16. A caller that stops early caches nothing.  After [k] items
    of a miss have been received, with [k] at least one and at most the
    number of rows, the world is the one the iter function left plus
    the [k] yields, and the generator is suspended in its loop with
    those items in its buffer.  This holds even when all rows have been
    received: the result is cached only by the call of [next] that
    finds the iterator exhausted. *)
Theorem early_stop_caches_nothing (cm : CacheMachine) (rows : list Obj)
    (w w2 : World) (k : nat) :
  is_none (lookup_default (machine_key cm) (cache w)) = true ->
  underlying (iter_function cm) (missed cm w) = (Ok rows, w2) ->
  0 < k <= length rows ->
  let received := map (set_from_cache false) (take k rows) in
  exists u',
    pull k (IterMachine cm GStart) w
    = (Ok (received, IterMachine cm (GMiss u' received)),
       logged (map Yield received) w2)
    /\ u_list u' = Ok (drop k rows).
Proof.
  intros Hn Hu [Hk1 Hk2] received. subst received.
  destruct (underlying_inv _ _ _ _ Hu) as (u & Hstart & Hs & Hl).
  destruct k as [|k]; [lia |].
  destruct rows as [|o rows]; [cbn in Hk2; lia |].
  destruct (u_pull_cons u o rows Hs Hl) as (u1 & Hp & Hs1 & Hl1).
  destruct (pull_miss cm k rows u1 ([] ++ [set_from_cache false o])%list
              (logged [Yield (set_from_cache false o)] w2) Hs1 Hl1)
    as (u' & Hrun & _ & Hl'); [cbn in Hk2; lia |].
  exists u'. split; [| done].
  cbn [pull]. unfold bind at 1.
  rewrite next_machine, (start_miss cm w Hn), (fetch_new cm _ u [] _ w2 Hstart Hs).
  rewrite (fetch_yield cm u u1 o [] w2 Hs Hp).
  cbn [fst snd]. unfold bind at 1. rewrite Hrun. cbn [fst snd ret take map drop app].
  by rewrite logged_app.
Qed.

(** A first execution that finds rows leaves them under the query key,
    and every execution on a store that holds them replays them. *)
Lemma read_through (cm : CacheMachine) (rows : list Obj) (w w2 : World) :
  cache w !! machine_key cm = None ->
  underlying (iter_function cm) (missed cm w) = (Ok rows, w2) ->
  rows <> [] ->
  cache w2 !! machine_key cm = None ->
  (forall objects c,
      inv_cache_objects objects (machine_key cm) (machine_flush cm) c
        !! machine_key cm = c !! machine_key cm) ->
  let yielded := map (set_from_cache false) rows in
  exists w1,
    list_ (IterMachine cm GStart) w = (Ok yielded, w1)
    /\ cache w1 !! machine_key cm = Some (CObjs yielded)
    /\ db w1 = db w2
    /\ forall w',
         cache w' !! machine_key cm = Some (CObjs yielded) ->
         list_ (IterMachine cm GStart) w'
         = (Ok (map (set_from_cache true) rows),
            {| cache := noted cm (cache w'); db := db w';
               trace := trace w' ++ hit_events cm yielded |}).
Proof.
  intros Hfree Hu Hne Hfree2 Hkeep yielded.
  assert (Hn : is_none (lookup_default (machine_key cm) (cache w)) = true).
  { unfold lookup_default. by rewrite Hfree. }
  assert (Hne' : yielded <> []) by by destruct rows.
  eexists. split; [apply (list_miss cm rows w w2 Hn Hu) |]. fold yielded.
  rewrite finished_cons by done. cbn [cache db logged]. split; [| split; [done |]].
  - rewrite Hkeep. unfold add_if_absent. rewrite lookup_noted, Hfree2.
    by rewrite lookup_insert_eq.
  - intros w' Hw'.
    rewrite <- (set_from_cache_twice true false rows). fold yielded.
    rewrite (list_hit cm yielded w') by (unfold lookup_default; by rewrite Hw').
    unfold logged, replaying, hit_events. cbn [cache db trace].
    by rewrite <- !app_assoc.
Qed.

Lemma iterator_machine (self : CachingQuerySet) (sql : string) (w : World) :
  FETCH_BY_ID = false ->
  qs_timeout self <> Some NO_CACHE ->
  as_sql (qs_query self) = Some sql ->
  CachingQuerySet.iterator self w
  = (Ok (IterMachine
           (MkCacheMachine sql (SuperIterator (qs_query self)) (qs_timeout self))
           GStart),
     registered (CachingQuerySet.get_constraints self) w).
Proof.
  intros Hf Ht Hsql. unfold CachingQuerySet.iterator.
  rewrite bool_decide_eq_false_2 by done.
  unfold CachingQuerySet.query_key, add_to_flush_list, try_except, bind, lift,
    emit, update_cache, ret. cbn [cache db trace]. by rewrite Hsql, Hf.
Qed.

(** X17. Reading through a queryset.  With [FETCH_BY_ID] off, the
    first iteration of a queryset whose query compiles and finds rows
    registers the constraints, runs the query once, yields the rows
    tagged [from_cache = False] and leaves them under the query key.
    Every later iteration on a store that holds this entry, whatever
    the database holds by then, yields the same rows tagged [True]
    and, apart from the registration of the constraints, makes the
    events of a hit: no call of the relational layer.  (Registration
    with the invalidator is taken not to touch the query key.) *)
Theorem queryset_read_through (self : CachingQuerySet) (sql : string) (w : World) :
  FETCH_BY_ID = false ->
  qs_timeout self <> Some NO_CACHE ->
  as_sql (qs_query self) = Some sql ->
  let cm := MkCacheMachine sql (SuperIterator (qs_query self)) (qs_timeout self) in
  let constraints := CachingQuerySet.get_constraints self in
  let rows := execute (qs_query self) (db w) in
  let yielded := map (set_from_cache false) rows in
  rows <> [] ->
  (forall c, inv_add_to_flush_list constraints c !! machine_key cm
             = c !! machine_key cm) ->
  (forall objects c,
      inv_cache_objects objects (machine_key cm) (machine_flush cm) c
        !! machine_key cm = c !! machine_key cm) ->
  cache w !! machine_key cm = None ->
  exists w1,
    (it <- CachingQuerySet.iterator self ;; list_ it) w = (Ok yielded, w1)
    /\ List.filter relational (drop (length (trace w)) (trace w1))
       = [IterFunctionCall (SuperIterator (qs_query self)); DbExecute (qs_query self)]
    /\ cache w1 !! machine_key cm = Some (CObjs yielded)
    /\ forall w',
         cache w' !! machine_key cm = Some (CObjs yielded) ->
         (it <- CachingQuerySet.iterator self ;; list_ it) w'
         = (Ok (map (set_from_cache true) rows),
            {| cache := noted cm (inv_add_to_flush_list constraints (cache w'));
               db := db w';
               trace := trace w' ++ AddToFlushList constraints :: hit_events cm yielded |})
         /\ Forall (fun e => relational e = false)
              (AddToFlushList constraints :: hit_events cm yielded).
Proof.
  intros Hf Ht Hsql cm constraints rows yielded Hne Hreg Hkeep Hfree.
  assert (Hrun : forall w0,
            (it <- CachingQuerySet.iterator self ;; list_ it) w0
            = list_ (IterMachine cm GStart) (registered constraints w0)).
  { intros w0. unfold bind. by rewrite (iterator_machine self sql w0 Hf Ht Hsql). }
  destruct (read_through cm rows (registered constraints w)
              (logged [DbExecute (qs_query self)] (missed cm (registered constraints w))))
    as (w1 & Hfirst & Hstored & _ & Hlater); try done.
  - cbn [registered cache]. by rewrite Hreg.
  - cbn [logged missed registered cache]. by rewrite lookup_noted, Hreg.
  - exists w1. split; [by rewrite Hrun |]. split; [| split; [done |]].
    + rewrite (list_miss cm rows (registered constraints w)
                 (logged [DbExecute (qs_query self)]
                    (missed cm (registered constraints w)))) in Hfirst.
      * injection Hfirst as <-. fold yielded.
        rewrite finished_cons by (by destruct rows).
        cbn [trace logged missed registered cm iter_function].
        rewrite <- !app_assoc, drop_app_length, !List.filter_app.
        assert (List.filter relational (map Yield yielded) = []) as ->.
        { induction yielded as [|o l IH]; [done | exact IH]. }
        reflexivity.
      * unfold lookup_default. cbn [registered cache]. by rewrite Hreg, Hfree.
      * reflexivity.
    + intros w' Hw'. split.
      * rewrite Hrun, Hlater by (cbn [registered cache]; by rewrite Hreg).
        cbn [registered cache db trace]. by rewrite <- app_assoc.
      * constructor; [done | apply hit_events_not_relational].
Qed.

(** X18. A queryset whose query does not compile is iterated without
    the cache, whatever its timeout: [iterator] registers the
    constraints and returns the base iterator, so the rows are those of
    the base iterator, untagged, and the run reads and writes no value
    of the store. *)
Theorem iterator_of_uncompilable_query (self : CachingQuerySet) (w : World) :
  as_sql (qs_query self) = None ->
  (it <- CachingQuerySet.iterator self ;; list_ it) w
  = (Ok (execute (qs_query self) (db w)),
     logged [IterFunctionCall (SuperIterator (qs_query self));
             DbExecute (qs_query self)]
       (registered (CachingQuerySet.get_constraints self) w)).
Proof.
  intros Hsql.
  assert (Hit : CachingQuerySet.iterator self w
            = (Ok (IterPlain (UNew (SuperIterator (qs_query self)))),
               logged [IterFunctionCall (SuperIterator (qs_query self))]
                 (registered (CachingQuerySet.get_constraints self) w))).
  { unfold CachingQuerySet.iterator. case_bool_decide as Ht.
    - rewrite <- (iterator_no_cache self w Ht). unfold CachingQuerySet.iterator.
      by rewrite bool_decide_eq_true_2.
    - unfold CachingQuerySet.query_key, add_to_flush_list, try_except, bind, lift,
        emit, update_cache, ret. cbn [cache db trace]. by rewrite Hsql. }
  unfold bind at 1. rewrite Hit, list_plain, logged_app. reflexivity.
Qed.

End MachineEdges.

Section RawEdges.
Context {R : Relational} {I : Invalidation} {S : Settings} {F : Formatting}.

(** X19. Reading through a raw queryset.  The machine of
    [CachingRawQuerySet] is keyed by the formatted text, the raw query
    with its parameters substituted.  The first iteration that finds
    rows runs the raw query once and leaves the rows under the query
    key; after that every raw queryset with the same formatted text,
    iterated on a store that holds the entry, is served these rows
    tagged [from_cache = True] without a call of the relational layer.
    (Registration with the invalidator is taken not to touch the query
    key.) *)
Theorem raw_queryset_read_through (self : CachingRawQuerySet) (w : World) :
  let sql := percent (raw_query self) (params self) in
  let cm := MkCacheMachine sql (RawIterator sql) None in
  let rows := execute_raw sql (db w) in
  let yielded := map (set_from_cache false) rows in
  rows <> [] ->
  (forall objects c,
      inv_cache_objects objects (machine_key cm) (machine_flush cm) c
        !! machine_key cm = c !! machine_key cm) ->
  cache w !! machine_key cm = None ->
  exists w1,
    list_ (CachingRawQuerySet.__iter__ self) w = (Ok yielded, w1)
    /\ cache w1 !! machine_key cm = Some (CObjs yielded)
    /\ forall (other : CachingRawQuerySet) (w' : World),
         percent (raw_query other) (params other) = sql ->
         cache w' !! machine_key cm = Some (CObjs yielded) ->
         list_ (CachingRawQuerySet.__iter__ other) w'
         = (Ok (map (set_from_cache true) rows),
            {| cache := noted cm (cache w'); db := db w';
               trace := trace w' ++ hit_events cm yielded |})
         /\ Forall (fun e => relational e = false) (hit_events cm yielded).
Proof.
  intros sql cm rows yielded Hne Hkeep Hfree.
  destruct (read_through cm rows w (logged [DbExecuteRaw sql] (missed cm w)))
    as (w1 & Hfirst & Hstored & _ & Hlater); try done.
  - cbn [logged missed cache]. by rewrite lookup_noted.
  - exists w1. split; [exact Hfirst |]. split; [exact Hstored |].
    intros other w' Hsame Hw'. split; [| apply hit_events_not_relational].
    unfold CachingRawQuerySet.__iter__. rewrite Hsame. by apply Hlater.
Qed.

End RawEdges.

Section SampleMachine.
#[local] Existing Instance Sample.relational.
#[local] Existing Instance SpecInvalidation.invalidation.
#[local] Existing Instance Sample.settings.

(** [fetch_by_id] on a model without the mixin fails at its start. *)
Lemma failed_miss_caches_nothing_witness :
  exists ys w2,
    list_ (IterMachine Sample.gadgets_by_id GStart)
      (MkWorld (R := Sample.relational) ∅ [Sample.gadget] [])
    = (Raise AttributeError, logged (map Yield ys) w2)
    /\ cache w2 !! machine_key Sample.gadgets_by_id = None.
Proof.
  edestruct (failed_miss_caches_nothing Sample.gadgets_by_id AttributeError
               (MkWorld (R := Sample.relational) ∅ [Sample.gadget] []))
    as (ys & Hrun).
  - reflexivity.
  - vm_compute. reflexivity.
  - exists ys. eexists. split; [exact Hrun |]. vm_compute. reflexivity.
Defined.

(** The first red widget is taken and the iteration abandoned. *)
Lemma early_stop_caches_nothing_witness :
  exists it w',
    pull 1 (IterMachine Sample.red GStart) Sample.world0
    = (Ok ([set_from_cache false Sample.w1], it), w')
    /\ cache w' !! machine_key Sample.red = None.
Proof.
  edestruct (early_stop_caches_nothing Sample.red [Sample.w1; Sample.w2]
               Sample.world0) with (k := 1) as (u' & Hrun & _).
  - reflexivity.
  - vm_compute. reflexivity.
  - cbn. lia.
  - eexists _, _. split; [exact Hrun |]. vm_compute. reflexivity.
Defined.

Lemma queryset_read_through_witness :
  exists w1 w2,
    (it <- CachingQuerySet.iterator (Sample.by_color "red") ;; list_ it) Sample.world0
    = (Ok [set_from_cache false Sample.w1; set_from_cache false Sample.w2], w1)
    /\ (it <- CachingQuerySet.iterator (Sample.by_color "red") ;; list_ it)
         (MkWorld (R := Sample.relational) (cache w1) [] [])
       = (Ok [set_from_cache true Sample.w1; set_from_cache true Sample.w2], w2).
Proof.
  destruct (queryset_read_through (R := Sample.relational)
              (I := SpecInvalidation.invalidation) (S := Sample.settings)
              (Sample.by_color "red")
              "SELECT * FROM m:app.widget WHERE (color exact red)" Sample.world0
              eq_refl) as (w1 & Hfirst & _ & Hstored & Hlater).
  - discriminate.
  - reflexivity.
  - discriminate.
  - intros c.
    change (@inv_add_to_flush_list SpecInvalidation.invalidation)
      with SpecInvalidation.add_to_flush_list.
    apply add_to_flush_list_other. vm_compute. reflexivity.
  - intros objects c. apply cache_objects_keeps_query.
  - reflexivity.
  - exists w1. eexists. split; [exact Hfirst |].
    exact (proj1 (Hlater (MkWorld (R := Sample.relational) (cache w1) [] []) Hstored)).
Defined.

Lemma iterator_of_uncompilable_query_witness :
  exists w',
    (it <- CachingQuerySet.iterator Sample.no_color ;; list_ it) Sample.world0
    = (Ok [], w')
    /\ List.filter cache_access (trace w') = [].
Proof.
  eexists. split.
  - apply (iterator_of_uncompilable_query Sample.no_color Sample.world0). reflexivity.
  - reflexivity.
Defined.

End SampleMachine.

Section SampleRaw.
#[local] Existing Instance Sample.relational.
#[local] Existing Instance SpecInvalidation.invalidation.
#[local] Existing Instance Sample.settings.
#[local] Existing Instance Sample.appending.

(** The same text written with and without a parameter: the second
    queryset is served what the first one fetched. *)
Lemma raw_queryset_read_through_witness :
  exists w1 w2,
    list_ (CachingRawQuerySet.__iter__ Sample.all_widgets) Sample.world0
    = (Ok (map (set_from_cache false) Sample.rows), w1)
    /\ list_ (CachingRawQuerySet.__iter__ Sample.all_widgets')
         (MkWorld (R := Sample.relational) (cache w1) [] [])
       = (Ok (map (set_from_cache true) Sample.rows), w2).
Proof.
  destruct (raw_queryset_read_through (R := Sample.relational)
              (I := SpecInvalidation.invalidation) (S := Sample.settings)
              (F := Sample.appending) Sample.all_widgets Sample.world0)
    as (w1 & Hfirst & Hstored & Hlater).
  - discriminate.
  - intros objects c.
    apply (cache_objects_keeps_query
             (MkCacheMachine "SELECT * FROM m:app.widget"
                (RawIterator "SELECT * FROM m:app.widget") None)).
  - reflexivity.
  - exists w1. eexists. split; [exact Hfirst |].
    exact (proj1 (Hlater Sample.all_widgets'
                    (MkWorld (R := Sample.relational) (cache w1) [] [])
                    eq_refl Hstored)).
Defined.

End SampleRaw.

(** ** What [get_constraints] finds *)

Section ConstraintsFound.
Context {R : Relational} {I : Invalidation} {S : Settings}.

Lemma tuples_node (cs : list WhereItem) (p : ModelClass * string) :
  p ∈ tuples (WhereNode cs)
  <-> (exists lookup_type value, ConstraintTuple p.1 p.2 lookup_type value ∈ cs)
      \/ (exists cs', WhereNode cs' ∈ cs /\ p ∈ tuples (WhereNode cs')).
Proof.
  induction cs as [|c cs IH].
  - cbn. split.
    + intros H. by apply elem_of_nil in H.
    + intros [(? & ? & H) | (? & H & _)]; by apply elem_of_nil in H.
  - change (tuples (WhereNode (c :: cs)))
      with ((match c with
             | ConstraintTuple m n _ _ => [(m, n)]
             | _ => tuples c
             end) ++ tuples (WhereNode cs))%list.
    rewrite elem_of_app, IH. split.
    + intros [Hc | [(lt & v & H) | (cs' & H & Hp)]].
      * destruct c as [cs' | m n lt v |].
        -- right. exists cs'. split; [by left | done].
        -- apply list_elem_of_singleton in Hc as ->. left. exists lt, v. by left.
        -- by apply elem_of_nil in Hc.
      * left. exists lt, v. by right.
      * right. exists cs'. split; [by right | done].
    + intros [(lt & v & H) | (cs' & H & Hp)].
      * apply elem_of_cons in H as [<- | H].
        -- left. destruct p. by apply list_elem_of_singleton.
        -- right. left. by exists lt, v.
      * apply elem_of_cons in H as [<- | H].
        -- by left.
        -- right. right. by exists cs'.
Qed.

Lemma visit_item_found (item : WhereItem) (stack : list WhereItem)
    (constraints : gmap string (gset string)) (key name : string) :
  let st := CachingQuerySet.visit_item (stack, constraints) item in
  (name ∈ columns st.2 key
   <-> name ∈ columns constraints key
       \/ exists model lookup_type value,
            item = ConstraintTuple model name lookup_type value
            /\ watches model name key)
  /\ st.1 = match item with WhereNode _ => item :: stack | _ => stack end.
Proof.
  destruct item as [cs | model n lt v |]; cbn [CachingQuerySet.visit_item].
  - split; [| done]. cbn [snd]. split; [by left |].
    by intros [H | (? & ? & ? & ? & _)].
  - destruct (cls_mixin model) eqn:Hmix; cbn [negb].
    + destruct (CachingQuerySet.is_pk_name model n) eqn:Hpk.
      * split; [| done]. cbn [snd]. split; [by left |].
        intros [H | (m & ? & ? & [= -> -> _ _] & _ & Hpk' & _)]; [done | congruence].
      * split; [| done]. cbn [snd]. unfold columns.
        destruct (decide (key = "cols:" ++ _model_key model)) as [-> | Hkey].
        -- rewrite lookup_insert_eq. cbn [from_option id]. rewrite elem_of_union.
           rewrite elem_of_singleton. split.
           ++ intros [H | ->]; [by left |]. right. by exists model, lt, v.
           ++ intros [H | (m & ? & ? & [= -> -> _ _] & _)]; [by left | by right].
        -- rewrite lookup_insert_ne by done. split; [by left |].
           intros [H | (m & ? & ? & [= -> -> _ _] & _ & _ & Hk)]; [done | congruence].
    + split; [| done]. cbn [snd]. split; [by left |].
      intros [H | (m & ? & ? & [= -> -> _ _] & Hmix' & _)]; [done | congruence].
  - split; [| done]. cbn [snd]. split; [by left |].
    by intros [H | (? & ? & ? & ? & _)].
Qed.

Lemma visit_items_found (key name : string) (items : list WhereItem) :
  forall (stack : list WhereItem) (constraints : gmap string (gset string)),
    let st := foldl CachingQuerySet.visit_item (stack, constraints) items in
    (name ∈ columns st.2 key
     <-> name ∈ columns constraints key
         \/ exists model lookup_type value,
              ConstraintTuple model name lookup_type value ∈ items
              /\ watches model name key)
    /\ (forall x, x ∈ st.1
                  <-> x ∈ stack \/ exists cs, x = WhereNode cs /\ x ∈ items).
Proof.
  induction items as [|item items IH]; intros stack constraints.
  - cbn. split; split; try (by left).
    + intros [H | (? & ? & ? & H & _)]; [done | by apply elem_of_nil in H].
    + intros [H | (? & _ & H)]; [done | by apply elem_of_nil in H].
  - cbn [foldl].
    destruct (visit_item_found item stack constraints key name) as [Hcols Hstack].
    destruct (CachingQuerySet.visit_item (stack, constraints) item)
      as [stack1 constraints1]. cbn [fst snd] in Hcols, Hstack.
    destruct (IH stack1 constraints1) as [IHcols IHstack].
    split.
    + rewrite IHcols, Hcols. split.
      * intros [[H | (m & lt & v & -> & Hw)] | (m & lt & v & Hin & Hw)].
        -- by left.
        -- right. exists m, lt, v. split; [by left | done].
        -- right. exists m, lt, v. split; [by right | done].
      * intros [H | (m & lt & v & Hin & Hw)]; [by left; left |].
        apply elem_of_cons in Hin as [<- | Hin].
        -- left. right. by exists m, lt, v.
        -- right. by exists m, lt, v.
    + intros x. rewrite IHstack, Hstack. split.
      * intros [H | (cs & -> & Hin)].
        -- destruct item as [cs | |]; [| by left | by left].
           apply elem_of_cons in H as [-> | H]; [| by left].
           right. exists cs. split; [done | by left].
        -- right. exists cs. split; [done | by right].
      * intros [H | (cs & -> & Hin)].
        -- left. destruct item; [by right | done | done].
        -- apply elem_of_cons in Hin as [<- | Hin].
           ++ left. by left.
           ++ right. by exists cs.
Qed.

(** The loop run to its end adds the watched columns of the tuples
    below the nodes of its stack. *)
Lemma walk_found (key name : string) (fuel : nat) :
  forall (stack : list WhereItem) (constraints : gmap string (gset string)),
    Forall (fun x => 0 < CachingQuerySet.nodes x) stack ->
    stack_nodes stack <= fuel ->
    name ∈ columns (CachingQuerySet.walk fuel stack constraints) key
    <-> name ∈ columns constraints key
        \/ exists model x, x ∈ stack /\ (model, name) ∈ tuples x
                           /\ watches model name key.
Proof.
  induction fuel as [|fuel IH]; intros stack constraints Hpos Hle.
  - destruct stack as [|x stack].
    + cbn. split; [by left |].
      intros [H | (? & ? & H & _)]; [done | by apply elem_of_nil in H].
    + apply Forall_cons in Hpos as [Hx _]. rewrite stack_nodes_cons in Hle. lia.
  - destruct stack as [|curr stack].
    + cbn. split; [by left |].
      intros [H | (? & ? & H & _)]; [done | by apply elem_of_nil in H].
    + apply Forall_cons in Hpos as [Hcurr Hpos].
      destruct curr as [cs | |]; [| cbn in Hcurr; lia | cbn in Hcurr; lia].
      cbn [CachingQuerySet.walk CachingQuerySet.children].
      destruct (visit_items cs stack constraints Hpos) as [Hsum Hall].
      destruct (visit_items_found key name cs stack constraints) as [Hcols Hstack].
      destruct (foldl CachingQuerySet.visit_item (stack, constraints) cs)
        as [stack' constraints']. cbn [fst snd] in Hsum, Hall, Hcols, Hstack.
      rewrite IH; [| done |].
      2: { rewrite Hsum. rewrite stack_nodes_cons, nodes_node in Hle. lia. }
      rewrite Hcols. split.
      * intros [[H | (m & lt & v & Hin & Hw)] | (m & x & Hx & Hp & Hw)].
        -- by left.
        -- right. exists m, (WhereNode cs). split; [by left |]. split; [| done].
           apply tuples_node. left. by exists lt, v.
        -- right. apply Hstack in Hx as [Hx | (cs' & -> & Hx)].
           ++ exists m, x. split; [by right | done].
           ++ exists m, (WhereNode cs). split; [by left |]. split; [| done].
              apply tuples_node. right. by exists cs'.
      * intros [H | (m & x & Hx & Hp & Hw)]; [by left; left |].
        apply elem_of_cons in Hx as [-> | Hx].
        -- apply tuples_node in Hp as [(lt & v & Hin) | (cs' & Hin & Hp)].
           ++ left. right. by exists m, lt, v.
           ++ right. exists m, (WhereNode cs'). split; [| done].
              apply Hstack. right. by exists cs'.
        -- right. exists m, x. split; [| done]. apply Hstack. by left.
Qed.

(** X20. What [get_constraints] returns.  A column is recorded under
    a key exactly when the where tree holds, among the children of its
    root or of a node nested below it, a constraint on that column of a
    model that derives keys, the column is not the primary key of the
    model, and the key is [cols:] followed by the model key.  Tuples of
    other models, and primary key lookups, leave no trace. *)
Theorem get_constraints_spec (self : CachingQuerySet) (key name : string) :
  name ∈ columns (CachingQuerySet.get_constraints self) key
  <-> exists model, (model, name) ∈ tuples (q_where (qs_query self))
                    /\ watches model name key.
Proof.
  unfold CachingQuerySet.get_constraints.
  destruct (q_where (qs_query self)) as [cs | m n lt v |] eqn:Hroot.
  - rewrite walk_found.
    + split.
      * intros [H | (m & x & Hx & Hp & Hw)]; [done |].
        apply list_elem_of_singleton in Hx as ->. by exists m.
      * intros (m & Hp & Hw). right. exists m, (WhereNode cs).
        split; [by apply list_elem_of_singleton | done].
    + constructor; [rewrite nodes_node; lia | constructor].
    + rewrite stack_nodes_cons. change (stack_nodes []) with 0. lia.
  - cbn. split; [done |]. intros (? & H & _). by apply elem_of_nil in H.
  - cbn. split; [done |]. intros (? & H & _). by apply elem_of_nil in H.
Qed.

Lemma nodes_where_add (cs : list WhereItem) (model : ModelClass)
    (name lookup_type : string) (value : list PyVal) :
  CachingQuerySet.nodes (WhereNode (cs ++ [ConstraintTuple model name lookup_type value]))
  = CachingQuerySet.nodes (WhereNode cs).
Proof. cbn. rewrite map_app, list_sum_app. cbn. lia. Qed.

Lemma pk_tuple_ignored (model : ModelClass) (lookup_type : string)
    (value : list PyVal) (st : list WhereItem * gmap string (gset string)) :
  is_Some (meta_pk (cls__meta model)) ->
  CachingQuerySet.visit_item st
    (ConstraintTuple model (CachingQuerySet.pk_field_name model) lookup_type value)
  = st.
Proof.
  intros [pk Hpk]. destruct st as [stack constraints].
  cbn [CachingQuerySet.visit_item].
  unfold CachingQuerySet.pk_field_name, CachingQuerySet.is_pk_name. rewrite Hpk.
  rewrite bool_decide_eq_true_2 by done. by destruct (cls_mixin model).
Qed.

(** X21. Filtering on the primary key adds no watched column.  For a
    queryset whose where tree has a node at its root and whose model
    has a primary key, the constraints of [filter(pk...)], of the
    clone [get] iterates and of the queryset [fetch_missed] builds are
    those of the queryset itself, so [fetch_by_id] registers for its
    second query what the first one registered. *)
Theorem pk_filter_adds_no_constraint (self : CachingQuerySet)
    (cs : list WhereItem) :
  q_where (qs_query self) = WhereNode cs ->
  is_Some (meta_pk (cls__meta (qs_model self))) ->
  (forall lookup_type value,
      CachingQuerySet.get_constraints (CachingQuerySet.filter_pk self lookup_type value)
      = CachingQuerySet.get_constraints self)
  /\ (forall value,
        CachingQuerySet.get_constraints (exact_pk self value)
        = CachingQuerySet.get_constraints self)
  /\ (forall pks,
        CachingQuerySet.get_constraints (CachingQuerySet.fetch_missed self pks)
        = CachingQuerySet.get_constraints self).
Proof.
  intros Hroot Hpk.
  assert (Hadd : forall lookup_type value,
            CachingQuerySet.walk
              (Datatypes.S (CachingQuerySet.nodes
                 (CachingQuerySet.where_add
                    (ConstraintTuple (qs_model self)
                       (CachingQuerySet.pk_field_name (qs_model self))
                       lookup_type value) (WhereNode cs))))
              [CachingQuerySet.where_add
                 (ConstraintTuple (qs_model self)
                    (CachingQuerySet.pk_field_name (qs_model self))
                    lookup_type value) (WhereNode cs)] ∅
            = CachingQuerySet.walk (Datatypes.S (CachingQuerySet.nodes (WhereNode cs)))
                [WhereNode cs] ∅).
  { intros lookup_type value. cbn [CachingQuerySet.where_add].
    rewrite nodes_where_add. cbn [CachingQuerySet.walk CachingQuerySet.children].
    rewrite foldl_app. cbn [foldl]. by rewrite (pk_tuple_ignored _ _ _ _ Hpk). }
  unfold CachingQuerySet.get_constraints. rewrite Hroot.
  split; [| split].
  - intros lookup_type value. cbn [CachingQuerySet.filter_pk qs_query q_where].
    rewrite Hroot. apply Hadd.
  - intros value. cbn [exact_pk CachingQuerySet.filter_pk qs_query q_where qs_model].
    rewrite Hroot. apply Hadd.
  - intros pks.
    cbn [CachingQuerySet.fetch_missed CachingQuerySet.no_cache CachingQuerySet.cache_
         CachingQuerySet.filter_pk CachingQuerySet.clear_limits_and_order
         qs_query q_where qs_model].
    rewrite Hroot. apply Hadd.
Qed.

End ConstraintsFound.

Section SampleConstraints.
#[local] Existing Instance Sample.relational.
#[local] Existing Instance SpecInvalidation.invalidation.
#[local] Existing Instance Sample.settings.

Lemma get_constraints_spec_witness :
  "color" ∈ columns (CachingQuerySet.get_constraints (Sample.by_color "red"))
             "cols:m:app.widget".
Proof.
  apply (proj2 (get_constraints_spec (Sample.by_color "red") "cols:m:app.widget"
                  "color")).
  exists Sample.Widget. split.
  - apply list_elem_of_singleton. reflexivity.
  - split; [reflexivity |]. split; reflexivity.
Defined.

Lemma pk_filter_adds_no_constraint_witness :
  CachingQuerySet.get_constraints
    (CachingQuerySet.fetch_missed (Sample.by_color "red") [PInt 1; PInt 2])
  = CachingQuerySet.get_constraints (Sample.by_color "red").
Proof.
  apply (pk_filter_adds_no_constraint (Sample.by_color "red")
           [ConstraintTuple Sample.Widget "color" "exact" [PStr "red"]]).
  - reflexivity.
  - by eexists.
Defined.

End SampleConstraints.

(** ** [fetch_by_id] when every object is cached *)

Section FetchById.
Context {R : Relational} {I : Invalidation} {S : Settings}.

Lemma mapR_ok {A B} (f : A -> Result B) (g : A -> B) (l : list A) :
  (forall a, a ∈ l -> f a = Ok (g a)) ->
  CachingQuerySet.mapR f l = Ok (map g l).
Proof.
  induction l as [|a l IH]; intros Hf; [done |].
  cbn [CachingQuerySet.mapR map]. rewrite (Hf a) by by left. cbn [rbind].
  rewrite IH; [done |]. intros a' Ha'. apply Hf. by right.
Qed.

Lemma mapR_total {A B} (f : A -> Result B) (l : list A) :
  (forall a, a ∈ l -> exists b, f a = Ok b) ->
  exists l', CachingQuerySet.mapR f l = Ok l'
             /\ forall b, b ∈ l' <-> exists a, a ∈ l /\ f a = Ok b.
Proof.
  induction l as [|a l IH]; intros Hf.
  - exists []. split; [done |]. intros b. split.
    + intros H. by apply elem_of_nil in H.
    + intros (a & H & _). by apply elem_of_nil in H.
  - destruct (Hf a) as [b Hb]; [by left |].
    destruct IH as (l' & Hl' & Hin); [intros a' Ha'; apply Hf; by right |].
    exists (b :: l'). split; [cbn; by rewrite Hb, Hl' |].
    intros b'. rewrite elem_of_cons, Hin. split.
    + intros [-> | (a' & Ha' & Hb')]; [exists a; split; [by left | done] |].
      exists a'. split; [by right | done].
    + intros (a' & Ha' & Hb'). apply elem_of_cons in Ha' as [-> | Ha'].
      * left. congruence.
      * right. by exists a'.
Qed.

Lemma by_id_rows_ok (objects : gmap PyVal Obj) (obj_of : PyVal -> Obj)
    (pks : list PyVal) :
  (forall pk, pk ∈ pks -> objects !! pk = Some (obj_of pk)) ->
  by_id_rows pks objects = Ok (map obj_of pks).
Proof.
  induction pks as [|pk pks IH]; intros Hobj; [done |].
  cbn [by_id_rows map]. rewrite (Hobj pk) by by left.
  rewrite IH; [done |]. intros pk' Hpk'. apply Hobj. by right.
Qed.

Lemma elem_of_map {A B} (f : A -> B) (l : list A) (y : B) :
  y ∈ map f l <-> exists x, y = f x /\ x ∈ l.
Proof. apply (list_elem_of_fmap f l y). Qed.

Lemma filter_none {A} (P : A -> Prop) `{forall x, Decision (P x)} (l : list A) :
  (forall x, x ∈ l -> ~ P x) -> filter P l = [].
Proof.
  induction l as [|a l IH]; intros Hl; [done |].
  rewrite filter_cons_False by (apply Hl; by left).
  apply IH. intros x Hx. apply Hl. by right.
Qed.

(** X22. When the store holds, under its [byid] key, the object of
    every primary key the query selects, [fetch_by_id] does not query
    for rows: it asks for the primary keys, reads the keys with one
    [get_many], and yields the cached objects in the order of the
    primary keys.  It calls neither the base iterator nor [set_many],
    and registers nothing. *)
Theorem fetch_by_id_all_cached (self : CachingQuerySet) (obj_of : PyVal -> Obj)
    (w : World) :
  cls_mixin (qs_model self) = true ->
  let pks := values_list_pk (qs_query self) (db w) in
  (forall pk, pk ∈ pks ->
     cache w !! byid (KeyStr (_cache_key (qs_model self) pk)) = Some (CObj (obj_of pk))
     /\ obj_pk (obj_of pk) = Ok pk) ->
  exists keys,
    underlying (FetchById self) w
    = (Ok (map obj_of pks),
       logged [DbValuesList (qs_query self); CacheGetMany keys] w).
Proof.
  intros Hmix pks Hall.
  unfold underlying. cbn [u_start].
  unfold CachingQuerySet.fetch_by_id.
  unfold bind at 1 2. unfold emit at 1. unfold bind at 1. unfold read_db at 1.
  cbn [cache db trace]. fold pks.
  rewrite (mapR_ok _ (fun pk => (byid (KeyStr (_cache_key (qs_model self) pk)), pk)))
    by (intros pk _; unfold CachingQuerySet.class_cache_key; by rewrite Hmix).
  unfold bind at 1. unfold lift at 1.
  set (K := fun pk => byid (KeyStr (_cache_key (qs_model self) pk))).
  set (keys := CachingQuerySet.dict _).
  unfold bind at 1. unfold cache_get_many, bind, emit, read_cache, ret.
  cbn [cache db trace].
  set (cached := filter (fun kv : string * CVal => is_none kv.2 = false) _).
  assert (Hkeys1 : forall k pk, keys !! k = Some pk -> pk ∈ pks /\ k = K pk).
  { intros k pk Hk. apply elem_of_list_to_map_2, elem_of_reverse, elem_of_map in Hk
      as (pk' & [= -> ->] & Hpk'). done. }
  assert (Hkeys2 : forall pk, pk ∈ pks -> keys !! K pk = Some pk).
  { intros pk Hpk. destruct (keys !! K pk) as [pk'|] eqn:Hk.
    - destruct (Hkeys1 _ _ Hk) as [Hpk' HK].
      destruct (Hall pk Hpk) as [Hc Ho], (Hall pk' Hpk') as [Hc' Ho'].
      fold (K pk) in Hc. fold (K pk') in Hc'. rewrite HK, Hc' in Hc.
      injection Hc as Hsame. rewrite Hsame, Ho in Ho'. by injection Ho' as ->.
    - exfalso. apply not_elem_of_list_to_map_2 in Hk. apply Hk.
      apply (list_elem_of_fmap_2' fst _ (K pk, pk)); [| done].
      apply elem_of_reverse, elem_of_map. by exists pk. }
  assert (Hcached : forall k pk, keys !! k = Some pk ->
            cached !! k = Some (CObj (obj_of pk))).
  { intros k pk Hk. destruct (Hkeys1 _ _ Hk) as [Hpk ->].
    apply map_lookup_filter_Some_2; [| done].
    apply map_lookup_filter_Some_2; [by apply Hall |].
    cbn [fst]. apply elem_of_map. exists (K pk, pk).
    split; [done | by apply elem_of_map_to_list]. }
  assert (Hmissed : filter (fun kv : string * PyVal =>
                              bool_decide (cached !! kv.1 = None))
                      (map_to_list keys) = []).
  { apply filter_none. intros [k pk] Hk. apply elem_of_map_to_list in Hk.
    cbn [fst]. rewrite (Hcached _ _ Hk). intros Hb. by apply bool_decide_unpack in Hb. }
  rewrite Hmissed. cbn [map]. unfold lift. rewrite map_to_list_empty. cbn [map].
  rewrite app_nil_r.
  assert (Hvals : forall v, v ∈ map snd (map_to_list cached) ->
            exists pk, pk ∈ pks /\ v = CObj (obj_of pk)).
  { intros v Hv. apply elem_of_map in Hv as ([k v'] & -> & Hkv). cbn [snd].
    apply elem_of_map_to_list in Hkv.
    pose proof (map_lookup_filter_Some_1_1 _ _ _ _ Hkv) as Hgot.
    apply map_lookup_filter_Some_1_2 in Hgot. cbn [fst] in Hgot.
    apply elem_of_map in Hgot as ([k' pk] & -> & Hk). cbn [fst] in Hkv.
    apply elem_of_map_to_list in Hk. rewrite (Hcached _ _ Hk) in Hkv.
    injection Hkv as <-. exists pk. split; [by apply (Hkeys1 _ _ Hk) | done]. }
  assert (Hpk_of : forall pk, pk ∈ pks ->
            CachingQuerySet.cval_pk (CObj (obj_of pk)) = Ok (pk, obj_of pk)).
  { intros pk Hpk. cbn. by rewrite (proj2 (Hall pk Hpk)). }
  destruct (mapR_total CachingQuerySet.cval_pk (map snd (map_to_list cached)))
    as (found & -> & Hfound).
  { intros v Hv. destruct (Hvals v Hv) as (pk & Hpk & ->). eexists. by apply Hpk_of. }
  assert (Hfound' : forall pk o, (pk, o) ∈ found <-> pk ∈ pks /\ o = obj_of pk).
  { intros pk o. rewrite Hfound. split.
    - intros (v & Hv & Hb). destruct (Hvals v Hv) as (pk' & Hpk' & ->).
      rewrite (Hpk_of pk' Hpk') in Hb. by injection Hb as <- <-.
    - intros [Hpk ->]. exists (CObj (obj_of pk)). split; [| by apply Hpk_of].
      apply elem_of_map. exists (K pk, CObj (obj_of pk)). split; [done |].
      apply elem_of_map_to_list, Hcached. by apply Hkeys2. }
  cbn [u_list]. rewrite (by_id_rows_ok _ obj_of).
  - eexists. unfold logged. cbn [cache db trace]. by rewrite <- app_assoc.
  - intros pk Hpk. unfold CachingQuerySet.dict. apply elem_of_list_to_map_1'.
    + intros o Ho. apply elem_of_reverse, Hfound' in Ho as [_ ->]. done.
    + apply elem_of_reverse, Hfound'. done.
Qed.

End FetchById.

Section SampleFetchById.
#[local] Existing Instance Sample.relational.
#[local] Existing Instance SpecInvalidation.invalidation.
#[local] Existing Instance Sample.settings.

Lemma fetch_by_id_all_cached_witness :
  exists keys,
    underlying (FetchById (Sample.by_color "red")) Sample.warm
    = (Ok [Sample.w1; Sample.w2],
       logged [DbValuesList (qs_query (Sample.by_color "red")); CacheGetMany keys]
         Sample.warm).
Proof.
  apply (fetch_by_id_all_cached (Sample.by_color "red") Sample.red_widget Sample.warm).
  - reflexivity.
  - intros pk Hpk.
    change (pk ∈ [PInt 1; PInt 2]) in Hpk.
    apply elem_of_cons in Hpk as [-> | Hpk]; [split; reflexivity |].
    apply list_elem_of_singleton in Hpk as ->. split; reflexivity.
Defined.

End SampleFetchById.
